(** * YourInfo presence server: redaction, replication, enrichment

    A shallow embedding of the server side of the repository
    ([server/index.ts], [server/shared-visitors.ts], [server/ai-profiler.ts])
    and the properties its specification states about it.

    Conventions of the embedding.
    - A JavaScript [Map<string, V>] is a [gmap string V].  Iteration order
      (insertion order in JavaScript) is not represented; no statement below
      depends on it.
    - A JavaScript number that holds a latitude or longitude is a finite
      double, hence a rational: [Q].  [Math.round] is exact on doubles, so
      it is the rational function "floor of x + 1/2".  The sign of zero is
      not represented.
    - Timestamps ([Date.now()]), counters and HTTP statuses are integers [Z].
    - [JSON.stringify] followed by [JSON.parse] is the identity on the plain
      data records exchanged here, so a stored or published record is kept
      as the record itself.
    - An [async] function whose awaits are all sequential is, for a caller
      that awaits it, the sequential composition of its steps; a rejected
      promise is a thrown exception.
    - An [async] function that a handler calls without [await] runs inside
      the handler up to its first [await]; what is left of it runs in later
      turns of the event loop, one [await] at a time, and reads the objects
      it was given as they are at that time. *)

From Stdlib Require Import ZArith QArith Qround Qabs Lia Lqa Ascii.
From stdpp Require Import base option list strings pretty gmap fin_maps.

Local Open Scope Z_scope.
Set Warnings "-clear-no-such-hyp".

(* ===================================================================== *)
(** * Part I: the program                                                 *)
(* ===================================================================== *)

(** ** Exceptions and state

    A computation over a mutable store [S] either returns or throws, and
    keeps the store it reached in both cases (JavaScript does not roll back
    mutations when an exception unwinds). *)

Inductive Outcome (A : Type) : Type :=
| Returned (a : A)
| Thrown (err : string).
Arguments Returned {A} a.
Arguments Thrown {A} err.

Definition M (S A : Type) : Type := S → Outcome A * S.

#[export] Instance M_ret {S} : MRet (M S) :=
  fun A a s => (Returned a, s).

#[export] Instance M_bind {S} : MBind (M S) :=
  fun A B k m s => match m s with
                   | (Returned a, s') => k a s'
                   | (Thrown e, s') => (Thrown e, s')
                   end.

Definition throw {S A} (err : string) : M S A := fun s => (Thrown err, s).

(** [try { body } catch (err) { handler }] *)
Definition try_catch {S A} (body : M S A) (handler : string → M S A) : M S A :=
  fun s => match body s with
           | (Returned a, s') => (Returned a, s')
           | (Thrown e, s') => handler e s'
           end.

Definition gets {S A} (f : S → A) : M S A := fun s => (Returned (f s), s).
Definition modify {S} (f : S → S) : M S unit := fun s => (Returned tt, f s).

(** The outcome of an awaited external call, which the environment
    decides. *)
Definition await {S A} (o : Outcome A) : M S A := fun s => (o, s).

(** JavaScript truthiness of an optional string: [undefined], [null] and
    the empty string are falsy. *)
Definition truthy (o : option string) : bool :=
  match o with
  | Some s => negb (String.eqb s "")
  | None => false
  end.

(** [o || dflt] on an optional string. *)
Definition or_else (o : option string) (dflt : string) : string :=
  match o with
  | Some s => if String.eqb s "" then dflt else s
  | None => dflt
  end.

(** ** Data model ([src/types], as built by [buildServerInfo],
    [getGeolocation] and the [open] handler) *)

(** [UserProfile]: a plain object; properties by name, values as JSON
    text.  Only the property [aiGenerated] is written by the server. *)
Abbreviation UserProfile := (gmap string string).

(** [ClientInfo]: the device facts collected by the browser.  The server
    reads [fingerprintId], [crossBrowserId] and [timezone]; the browser
    adds [userProfile] once enrichment has answered.  Every property is
    optional ([Partial<ClientInfo>]); the remaining collected facts are
    kept by name in [facts]. *)
Record ClientInfo : Type := {
  fingerprintId : option string;
  crossBrowserId : option string;
  timezone : option string;
  userProfile : option UserProfile;
  facts : gmap string string;
}.

(** [GeoLocation], as filled in by [getGeolocation]. *)
Record GeoLocation : Type := {
  lat : Q;
  lng : Q;
  city : string;
  region : string;
  country : string;
  countryCode : string;
  geo_timezone : string;
  isp : string;
  org : string;
  as_ : string;
}.

(** [ServerInfo], as returned by [buildServerInfo]. *)
Record ServerInfo : Type := {
  ip : string;
  geo : option GeoLocation;
  userAgent : string;
  acceptLanguage : string;
  referer : string;
  headers : gmap string string;
}.

(** [VisitorInfo], as built by the [open] handler. *)
Record VisitorInfo : Type := {
  id : string;
  server : ServerInfo;
  client : option ClientInfo;
  connectedAt : Z;
}.

(** ** Redaction ([server/index.ts]) *)

(** [Math.round]: the nearest integer, a tie going to the larger one. *)
Definition Math_round (x : Q) : Q := inject_Z (Qfloor (x + (1 # 2))).

Definition MASKED_IP : string := "•••.•••.•••.•••".
Definition MASK : string := "••••••".

(** [redactVisitorInfo]: the two spreads copy every property, then the
    listed ones are overwritten. *)
Definition redactVisitorInfo (visitor : VisitorInfo) : VisitorInfo :=
  {| id := id visitor;
     server :=
       {| ip := MASKED_IP;
          geo := match geo (server visitor) with
                 | Some g =>
                     Some {| lat := Math_round (lat g);
                             lng := Math_round (lng g);
                             city := MASK;
                             region := region g;
                             country := country g;
                             countryCode := countryCode g;
                             geo_timezone := geo_timezone g;
                             isp := MASK;
                             org := MASK;
                             as_ := as_ g |}
                 | None => None
                 end;
          userAgent := userAgent (server visitor);
          acceptLanguage := acceptLanguage (server visitor);
          referer := referer (server visitor);
          headers := headers (server visitor) |};
     client := client visitor;
     connectedAt := connectedAt visitor |}.

(** [redactVisitorsExcept] *)
Definition redactVisitorsExcept (allVisitors : list VisitorInfo)
    (currentId : string) : list VisitorInfo :=
  map (fun v => if String.eqb (id v) currentId then v else redactVisitorInfo v)
      allVisitors.


(** ** Shared visitor state ([server/shared-visitors.ts]) *)

Definition VISITOR_TTL : Z := 300.

Inductive VisitorEventType : Type := Joined | Left | Updated.

Record VisitorEvent : Type := {
  type : VisitorEventType;
  visitor : VisitorInfo;
  instanceId : string;
}.

(** The Redis server as this module uses it: the hash [VISITORS_KEY], the
    expiry of that key, and the messages published on [VISITOR_CHANNEL]
    (oldest first).  [rejections] scripts the connection: its head tells
    whether the next command of [pubClient] rejects; an exhausted script
    means that commands succeed. *)
Record Redis : Type := {
  visitors : gmap string VisitorInfo;
  expiry : option Z;
  channel : list VisitorEvent;
  rejections : list bool;
}.

Inductive Command : Type :=
| HSet (field : string) (value : VisitorInfo)
| Expire (seconds : Z)
| HDel (field : string)
| Publish (event : VisitorEvent).

(** What a command does on the server.  A key lives while its hash has a
    field: EXPIRE on a missing key sets nothing, and deleting the last
    field removes the key together with its expiry. *)
Definition execute (c : Command) (r : Redis) : Redis :=
  match c with
  | HSet field value =>
      {| visitors := <[field := value]> (visitors r);
         expiry := expiry r;
         channel := channel r;
         rejections := rejections r |}
  | Expire seconds =>
      {| visitors := visitors r;
         expiry := if decide (visitors r = ∅) then expiry r else Some seconds;
         channel := channel r;
         rejections := rejections r |}
  | HDel field =>
      {| visitors := delete field (visitors r);
         expiry := if decide (delete field (visitors r) = ∅) then None
                   else expiry r;
         channel := channel r;
         rejections := rejections r |}
  | Publish event =>
      {| visitors := visitors r;
         expiry := expiry r;
         channel := channel r ++ [event];
         rejections := rejections r |}
  end.

Definition next_rejection (r : Redis) : Redis :=
  {| visitors := visitors r;
     expiry := expiry r;
     channel := channel r;
     rejections := tail (rejections r) |}.

(** The module's variables.  [pubClient] is [true] once [createClient]
    has run (the variable is no longer [null]). *)
Record SharedVisitors : Type := {
  pubClient : bool;
  isConnected : bool;
  redis : Redis;
}.

Definition with_redis (f : Redis → Redis) (s : SharedVisitors) : SharedVisitors :=
  {| pubClient := pubClient s; isConnected := isConnected s;
     redis := f (redis s) |}.

(** [await pubClient.<command>(...)] *)
Definition send_command (c : Command) : M SharedVisitors unit :=
  fun s =>
    match rejections (redis s) with
    | true :: _ => (Thrown "redis: command rejected", with_redis next_rejection s)
    | _ => (Returned tt, with_redis (fun r => next_rejection (execute c r)) s)
    end.

Section SharedVisitorsModule.
(** [INSTANCE_ID] is fixed when the module is loaded. *)
Variable INSTANCE_ID : string.

(** [publishVisitorJoined] *)
Definition publishVisitorJoined (visitor : VisitorInfo) : M SharedVisitors unit :=
  connected ← gets (fun s => pubClient s && isConnected s);
  if negb connected then mret tt
  else
    try_catch
      (send_command (HSet (id visitor) visitor);;
       send_command (Expire VISITOR_TTL);;
       send_command (Publish {| type := Joined; visitor := visitor;
                                instanceId := INSTANCE_ID |}))
      (fun _ => mret tt).

(** [publishVisitorLeft] *)
Definition publishVisitorLeft (visitor : VisitorInfo) : M SharedVisitors unit :=
  connected ← gets (fun s => pubClient s && isConnected s);
  if negb connected then mret tt
  else
    try_catch
      (send_command (HDel (id visitor));;
       send_command (Publish {| type := Left; visitor := visitor;
                                instanceId := INSTANCE_ID |}))
      (fun _ => mret tt).

(** [publishVisitorUpdated] *)
Definition publishVisitorUpdated (visitor : VisitorInfo) : M SharedVisitors unit :=
  connected ← gets (fun s => pubClient s && isConnected s);
  if negb connected then mret tt
  else
    try_catch
      (send_command (HSet (id visitor) visitor);;
       send_command (Publish {| type := Updated; visitor := visitor;
                                instanceId := INSTANCE_ID |}))
      (fun _ => mret tt).

(** [getAllSharedVisitors]: [hGetAll] rejects like any other command. *)
Definition getAllSharedVisitors : M SharedVisitors (list VisitorInfo) :=
  connected ← gets (fun s => pubClient s && isConnected s);
  if negb connected then mret []
  else
    try_catch
      (fun s =>
         match rejections (redis s) with
         | true :: _ =>
             (Thrown "redis: command rejected", with_redis next_rejection s)
         | _ => (Returned (map snd (map_to_list (visitors (redis s)))),
                 with_redis next_rejection s)
         end)
      (fun _ => mret []).

(** [isSharedVisitorsConnected] *)
Definition isSharedVisitorsConnected (s : SharedVisitors) : bool := isConnected s.

(** *** The publishing functions, one [await] at a time

    The definitions above are the functions as a caller that awaits
    them sees them, when nobody writes to [visitor] meanwhile.  Each body
    is the check of the connection and then, inside one [try], commands
    that are awaited one after the other; the arguments of a command are
    evaluated when the command is issued, so [JSON.stringify] reads the
    object [visitor] as it is at that moment. *)
Inductive Step : Type :=
| IssueHSet
| IssueExpire
| IssueHDel
| IssuePublish (type : VisitorEventType).

(** The commands of the three bodies, in order. *)
Definition steps_of (type : VisitorEventType) : list Step :=
  match type with
  | Joined => [IssueHSet; IssueExpire; IssuePublish Joined]
  | Left => [IssueHDel; IssuePublish Left]
  | Updated => [IssueHSet; IssuePublish Updated]
  end.

(** The command of a step, from [visitor] as it is when the step is
    taken. *)
Definition command_of (step : Step) (visitor : VisitorInfo) : Command :=
  match step with
  | IssueHSet => HSet (id visitor) visitor
  | IssueExpire => Expire VISITOR_TTL
  | IssueHDel => HDel (id visitor)
  | IssuePublish type =>
      Publish {| type := type; visitor := visitor; instanceId := INSTANCE_ID |}
  end.



(** *** The subscription

    What arrives on the channel is a string; [JSON.parse] either throws
    on it or yields the event it encodes. *)
Inductive ChannelMessage : Type :=
| Malformed (raw : string)
| Encoded (event : VisitorEvent).

Definition JSON_parse_event (message : ChannelMessage) : Outcome VisitorEvent :=
  match message with
  | Malformed _ => Thrown "SyntaxError"
  | Encoded event => Returned event
  end.

(** The callbacks act on the state [St] of the process that registered
    them. *)
Context {St : Type}.

Definition EventCallback : Type := VisitorEvent → M St unit.

(** [eventCallbacks.forEach(cb => cb(event))]: in order; an exception
    leaves the loop. *)
Fixpoint forEach (eventCallbacks : list EventCallback) (event : VisitorEvent)
    : M St unit :=
  match eventCallbacks with
  | [] => mret tt
  | cb :: rest => cb event;; forEach rest event
  end.

(** The listener given to [subClient.subscribe] in [initSharedVisitors]. *)
Definition onChannelMessage (eventCallbacks : list EventCallback)
    (message : ChannelMessage) : M St unit :=
  try_catch
    (event ← await (JSON_parse_event message);
     if negb (String.eqb (instanceId event) INSTANCE_ID)
     then forEach eventCallbacks event
     else mret tt)
    (fun _ => mret tt).

(** [onVisitorEvent] *)
Definition onVisitorEvent (callback : EventCallback)
    (eventCallbacks : list EventCallback) : list EventCallback :=
  eventCallbacks ++ [callback].
End SharedVisitorsModule.

(** ** The session controller ([server/index.ts]) *)

(** [WebSocket.OPEN] *)
Definition OPEN : Z := 1.

(** A socket as the handlers see it: the [visitorId] that [open] attaches
    to it, and its [readyState]. *)
Record WebSocket : Type := {
  visitorId : option string;
  readyState : Z;
}.

(** Server to client messages ([WSMessage] with its payload). *)
Inductive WSMessage : Type :=
| welcome (visitor : VisitorInfo) (visitors : list VisitorInfo)
| visitor_joined (visitor : VisitorInfo)
| visitor_updated (visitor : VisitorInfo)
| visitor_left (visitor : VisitorInfo).

(** What leaves the process other than through [pubClient]: [ws.send] on
    the socket of a visitor, and the calls of [trackUniqueVisitor]. *)
Inductive Effect : Type :=
| Send (recipient : string) (message : WSMessage)
| TrackUniqueVisitor (fingerprint crossBrowser : string).

(** A call of a publishing function that the handler did not await and
    that has not come to its end: the steps it has still to take, and the
    object [visitor] it was given.  The object is shared with
    [localVisitors] for as long as the map holds that very object:
    [held_as] is the key under which it does.  [about] is the object as
    it is now. *)
Record Call : Type := {
  todo : list Step;
  about : VisitorInfo;
  held_as : option string;
}.

(** The module's three maps, the state of [shared-visitors.ts], the
    effects so far (oldest first), and the calls of publishing functions
    that wait for a reply of the store (oldest first). *)
Record Server : Type := {
  localVisitors : gmap string VisitorInfo;
  allVisitors : gmap string VisitorInfo;
  connections : gmap string WebSocket;
  shared : SharedVisitors;
  effects : list Effect;
  pending : list Call;
}.

Definition on_localVisitors (f : gmap string VisitorInfo → gmap string VisitorInfo)
    (s : Server) : Server :=
  {| localVisitors := f (localVisitors s); allVisitors := allVisitors s;
     connections := connections s; shared := shared s; effects := effects s;
     pending := pending s |}.

Definition on_allVisitors (f : gmap string VisitorInfo → gmap string VisitorInfo)
    (s : Server) : Server :=
  {| localVisitors := localVisitors s; allVisitors := f (allVisitors s);
     connections := connections s; shared := shared s; effects := effects s;
     pending := pending s |}.

Definition on_connections (f : gmap string WebSocket → gmap string WebSocket)
    (s : Server) : Server :=
  {| localVisitors := localVisitors s; allVisitors := allVisitors s;
     connections := f (connections s); shared := shared s; effects := effects s;
     pending := pending s |}.

Definition emit (es : list Effect) (s : Server) : Server :=
  {| localVisitors := localVisitors s; allVisitors := allVisitors s;
     connections := connections s; shared := shared s;
     effects := effects s ++ es; pending := pending s |}.

Definition on_pending (f : list Call → list Call) (s : Server) : Server :=
  {| localVisitors := localVisitors s; allVisitors := allVisitors s;
     connections := connections s; shared := shared s; effects := effects s;
     pending := f (pending s) |}.

(** Run a function of [shared-visitors.ts] on its part of the state. *)
Definition in_shared {A} (m : M SharedVisitors A) : M Server A :=
  fun s =>
    let '(o, sh) := m (shared s) in
    (o, {| localVisitors := localVisitors s; allVisitors := allVisitors s;
           connections := connections s; shared := sh; effects := effects s;
           pending := pending s |}).

(** The object that [localVisitors] holds under [key] is written to: a
    call that was given that object finds [visitor] when it reads it. *)
Definition written (key : string) (visitor : VisitorInfo) (c : Call) : Call :=
  if decide (held_as c = Some key)
  then {| todo := todo c; about := visitor; held_as := held_as c |}
  else c.

(** [localVisitors] gives up the object it holds under [key] (the entry
    is deleted, or set to another object): a call that was given that
    object keeps it, and nobody writes to it any more. *)
Definition released (key : string) (c : Call) : Call :=
  if decide (held_as c = Some key)
  then {| todo := todo c; about := about c; held_as := None |}
  else c.

(** The sockets [broadcast] writes to. *)
Definition recipients (excludeId : option string)
    (connections : gmap string WebSocket) : list string :=
  map fst
    (filter (fun entry => Some (fst entry) ≠ excludeId
                          ∧ readyState (snd entry) = OPEN)
            (map_to_list connections)).

(** [broadcast] *)
Definition broadcast (message : WSMessage) (excludeId : option string)
    : M Server unit :=
  modify (fun s =>
    emit (map (fun to => Send to message) (recipients excludeId (connections s))) s).

Definition setClient (visitor : VisitorInfo) (c : option ClientInfo) : VisitorInfo :=
  {| id := id visitor; server := server visitor; client := c;
     connectedAt := connectedAt visitor |}.

(** Client to server messages.  [JSON.parse] throws on [Unparsable];
    the payload of a [client_info] message may lack its property. *)
Record ClientInfoPayload : Type := {
  clientInfo : option ClientInfo;
}.

Inductive ClientMessage : Type :=
| Unparsable (raw : string)
| OtherType (type : string)
| client_info (payload : option ClientInfoPayload).

Definition JSON_parse_message (message : ClientMessage) : Outcome ClientMessage :=
  match message with
  | Unparsable _ => Thrown "SyntaxError"
  | data => Returned data
  end.

Section Controller.
Variable INSTANCE_ID : string.

(** A publishing function called without [await], as the three handlers
    call them.  The body runs up to its first [await]: the check of the
    connection and the first command, which is the write to the
    directory.  The rest of the body waits for the reply.  A rejection
    ends the call: its [catch] only logs. *)
Definition unawaited (type : VisitorEventType) (visitor : VisitorInfo)
    (held_as : option string) : M Server unit :=
  connected ← gets (fun s => pubClient (shared s) && isConnected (shared s));
  if negb connected then mret tt
  else
    match steps_of type with
    | [] => mret tt
    | first :: rest =>
        try_catch
          (in_shared (send_command (command_of INSTANCE_ID first visitor));;
           modify (on_pending (fun calls =>
                     calls ++ [{| todo := rest; about := visitor;
                                  held_as := held_as |}])))
          (fun _ => mret tt)
    end.

(** The reply to the command of the [n]-th call arrives and the call goes
    on: it issues its next command, from [visitor] as it is now, or it
    has come to its end. *)
Definition resume (n : nat) : M Server unit :=
  call ← gets (fun s => pending s !! n);
  match call with
  | Some c =>
      match todo c with
      | step :: rest =>
          try_catch
            (in_shared (send_command (command_of INSTANCE_ID step (about c)));;
             modify (on_pending (<[n := {| todo := rest; about := about c;
                                           held_as := held_as c |}]>)))
            (fun _ => modify (on_pending (delete n)))
      | [] => modify (on_pending (delete n))
      end
  | None => mret tt
  end.

(** The callback given to [onVisitorEvent]. *)
Definition onRemoteEvent (event : VisitorEvent) : M Server unit :=
  match type event with
  | Joined =>
      modify (on_allVisitors (insert (id (visitor event)) (visitor event)));;
      broadcast (visitor_joined (redactVisitorInfo (visitor event))) None
  | Left =>
      modify (on_allVisitors (delete (id (visitor event))));;
      broadcast (visitor_left (redactVisitorInfo (visitor event))) None
  | Updated =>
      modify (on_allVisitors (insert (id (visitor event)) (visitor event)));;
      broadcast (visitor_updated (redactVisitorInfo (visitor event))) None
  end.

(** [websocket.open].  [newId] is the result of [generateId()],
    [serverInfo] that of [buildServerInfo], [now] that of [Date.now()].
    [ws] is stored as it is once [visitorId] has been attached.  The two
    awaits of the handler come before the first write to the maps and
    after the last one, so the writes are one uninterrupted stretch.
    [localVisitors.set(id, visitor)] puts a new object under [id]. *)
Definition open (ws : WebSocket) (newId : string) (serverInfo : ServerInfo)
    (now : Z) : M Server unit :=
  let visitor := {| id := newId; server := serverInfo; client := None;
                    connectedAt := now |} in
  let ws := {| visitorId := Some newId; readyState := readyState ws |} in
  modify (on_pending (map (released newId)));;
  modify (on_localVisitors (insert newId visitor));;
  modify (on_allVisitors (insert newId visitor));;
  modify (on_connections (insert newId ws));;
  unawaited Joined visitor (Some newId);;
  connected ← gets (fun s => isSharedVisitorsConnected (shared s));
  allVisitorsList ←
    (if connected : bool then in_shared getAllSharedVisitors
     else gets (fun s => map snd (map_to_list (allVisitors s))));
  modify (emit [Send newId (welcome visitor
                              (redactVisitorsExcept allVisitorsList newId))]);;
  broadcast (visitor_joined (redactVisitorInfo visitor)) (Some newId).

(** [websocket.message].  [visitor.client = payload.clientInfo] writes to
    the object that [localVisitors] holds under [visitorId]. *)
Definition message (ws : WebSocket) (message : ClientMessage) : M Server unit :=
  try_catch
    (data ← await (JSON_parse_message message);
     match data with
     | client_info payload =>
         found ← gets (fun s => visitorId ws ≫= fun v => localVisitors s !! v);
         match visitorId ws, found with
         | Some visitorId, Some visitor =>
             payload ← await (match payload with
                              | Some p => Returned p
                              | None => Thrown "TypeError"
                              end);
             let visitor := setClient visitor (clientInfo payload) in
             modify (on_pending (map (written visitorId visitor)));;
             modify (on_localVisitors (insert visitorId visitor));;
             modify (on_allVisitors (insert visitorId visitor));;
             unawaited Updated visitor (Some visitorId);;
             info ← await (match clientInfo payload with
                           | Some c => Returned c
                           | None => Thrown "TypeError"
                           end);
             (if truthy (fingerprintId info) && truthy (crossBrowserId info)
              then modify (emit [TrackUniqueVisitor
                                   (default "" (fingerprintId info))
                                   (default "" (crossBrowserId info))])
              else mret tt);;
             currentWs ← gets (fun s => connections s !! visitorId);
             (match currentWs with
              | Some w => if decide (readyState w = OPEN)
                          then modify (emit [Send visitorId (visitor_updated visitor)])
                          else mret tt
              | None => mret tt
              end);;
             broadcast (visitor_updated (redactVisitorInfo visitor)) (Some visitorId)
         | _, _ => mret tt
         end
     | _ => mret tt
     end)
    (fun _ => mret tt).

(** [websocket.close] *)
Definition close (ws : WebSocket) : M Server unit :=
  if truthy (visitorId ws) then
    let visitorId := default "" (visitorId ws) in
    found ← gets (fun s => localVisitors s !! visitorId);
    modify (on_pending (map (released visitorId)));;
    modify (on_localVisitors (delete visitorId));;
    modify (on_allVisitors (delete visitorId));;
    modify (on_connections (delete visitorId));;
    match found with
    | Some visitor =>
        unawaited Left visitor None;;
        broadcast (visitor_left (redactVisitorInfo visitor)) None
    | None => mret tt
    end
  else mret tt.

(** What can happen to the process: a socket opens, a message arrives on
    a socket, a socket closes, a message arrives on the channel (the
    callback is the only one registered). *)
Inductive Action : Type :=
| SocketOpen (ws : WebSocket) (newId : string) (serverInfo : ServerInfo) (now : Z)
| SocketMessage (ws : WebSocket) (message : ClientMessage)
| SocketClose (ws : WebSocket)
| ChannelReceive (message : ChannelMessage).

Definition handle (a : Action) : M Server unit :=
  match a with
  | SocketOpen ws newId serverInfo now => open ws newId serverInfo now
  | SocketMessage ws m => message ws m
  | SocketClose ws => close ws
  | ChannelReceive m =>
      onChannelMessage INSTANCE_ID (onVisitorEvent onRemoteEvent []) m
  end.

Fixpoint run (actions : list Action) (s : Server) : Server :=
  match actions with
  | [] => s
  | a :: rest => run rest (snd (handle a s))
  end.

(** The turns of the event loop: a handler runs, or the reply to the
    command of one of the calls that wait arrives.  The replies of one
    connection arrive in the order of the commands; [n] is left to the
    environment. *)
Inductive Turn : Type :=
| Handler (a : Action)
| StoreReply (n : nat).

Definition turn (t : Turn) : M Server unit :=
  match t with
  | Handler a => handle a
  | StoreReply n => resume n
  end.

Fixpoint run_turns (turns : list Turn) (s : Server) : Server :=
  match turns with
  | [] => s
  | t :: rest => run_turns rest (snd (turn t s))
  end.
End Controller.

(** ** Enrichment ([server/ai-profiler.ts]) *)

Definition RATE_LIMIT_WINDOW : Z := 60 * 1000.
Definition RATE_LIMIT_MAX : Z := 2.

Record RateLimit : Type := {
  count : Z;
  resetTime : Z;
}.

(** What a key of the cache holds, by what [JSON.parse] makes of it: a
    profile, a falsy value ([null], [false], [0], the empty string; the
    empty text itself is falsy before parsing), or text on which
    [JSON.parse] throws. *)
Inductive Stored : Type :=
| StoredProfile (profile : UserProfile)
| StoredFalsy
| StoredGarbage.

(** The module's state: the keys [yourinfo:profile:*] of the cache and the
    in-process limiter. *)
Record Profiler : Type := {
  cacheStore : gmap string Stored;
  userRateLimits : gmap string RateLimit;
}.

Definition on_cacheStore (f : gmap string Stored → gmap string Stored)
    (s : Profiler) : Profiler :=
  {| cacheStore := f (cacheStore s); userRateLimits := userRateLimits s |}.

Definition on_userRateLimits (f : gmap string RateLimit → gmap string RateLimit)
    (s : Profiler) : Profiler :=
  {| cacheStore := cacheStore s; userRateLimits := f (userRateLimits s) |}.

(** What [getRedis()] and the command that follows it do in one call:
    [getRedis] returns [null] (no connection, or still backing off), the
    command rejects, or the command is served. *)
Inductive Link : Type :=
| NoClient
| Rejecting (err : string)
| Serving.

(** The answer of the inference service.  [text] is [response.text()];
    [content] is [(await response.json()).choices?.[0]?.message?.content],
    which throws when the body is not JSON or is [null], and is [None]
    when the path ends in [undefined] or [null]. *)
Record Response : Type := {
  ok : bool;
  status : Z;
  text : Outcome string;
  content : Outcome (option string);
}.

(** What the outside decides during one call of [generateAIProfile]. *)
Record Env : Type := {
  now : Z;
  linkOnGet : Link;
  linkOnSet : Link;
  fetch : string → Outcome Response;
}.

Record GeoData : Type := {
  gd_city : option string;
  gd_region : option string;
  gd_country : option string;
  gd_isp : option string;
  gd_timezone : option string;
}.

Inductive Source : Type := ai | cache | fallback.

(** The wire form of [source]. *)
Definition source_tag (s : Source) : string :=
  match s with
  | ai => "ai"
  | cache => "cache"
  | fallback => "fallback"
  end.

Record ProfileResult : Type := {
  profile : option UserProfile;
  source : Source;
  error : option string;
}.

(** The periodic sweep of the limiter ([setInterval], every five minutes). *)
Definition sweep (now : Z) (s : Profiler) : Profiler :=
  on_userRateLimits (filter (fun entry => ¬ (now > resetTime (snd entry)))) s.

(** [checkRateLimit] *)
Definition checkRateLimit (now : Z) (userId : string) : M Profiler bool :=
  userLimit ← gets (fun s => userRateLimits s !! userId);
  match userLimit with
  | Some l =>
      if decide (now > resetTime l) then
        modify (on_userRateLimits
                  (insert userId {| count := 1;
                                    resetTime := now + RATE_LIMIT_WINDOW |}));;
        mret true
      else if decide (count l >= RATE_LIMIT_MAX) then mret false
      else
        modify (on_userRateLimits
                  (insert userId {| count := count l + 1;
                                    resetTime := resetTime l |}));;
        mret true
  | None =>
      modify (on_userRateLimits
                (insert userId {| count := 1;
                                  resetTime := now + RATE_LIMIT_WINDOW |}));;
      mret true
  end.

(** [getCacheKey] *)
Definition getCacheKey (fingerprintId crossBrowserId : string) : string :=
  "yourinfo:profile:" +:+ fingerprintId +:+ ":" +:+ crossBrowserId.

(** [getCachedProfile] *)
Definition getCachedProfile (env : Env) (cacheKey : string)
    : M Profiler (option UserProfile) :=
  try_catch
    (match linkOnGet env with
     | NoClient => mret None
     | Rejecting err => throw err
     | Serving =>
         cached ← gets (fun s => cacheStore s !! cacheKey);
         match cached with
         | Some (StoredProfile p) => mret (Some p)
         | Some StoredFalsy => mret None
         | Some StoredGarbage => throw "SyntaxError"
         | None => mret None
         end
     end)
    (fun _ => mret None).

(** [cacheProfile] *)
Definition cacheProfile (env : Env) (cacheKey : string) (profile : UserProfile)
    : M Profiler unit :=
  try_catch
    (match linkOnSet env with
     | NoClient => mret tt
     | Rejecting err => throw err
     | Serving => modify (on_cacheStore (insert cacheKey (StoredProfile profile)))
     end)
    (fun _ => mret tt).

Definition fallback_with (err : string) : ProfileResult :=
  {| profile := None; source := fallback; error := Some err |}.

Section AiProfiler.
(** [process.env.GROK_API_KEY] *)
Variable GROK_API_KEY : option string.
(** [buildPrompt] at the time of the call; it stringifies the facts and
    may throw. *)
Variable buildPrompt : Z → ClientInfo → option GeoData → Outcome string.
(** [parseAIResponse]: its body is one [try] whose [catch] returns
    [null]. *)
Variable parseAIResponse : string → option UserProfile.

(** The [try] block of [generateAIProfile], with its [catch]. *)
Definition infer (env : Env) (clientInfo : ClientInfo) (geo : option GeoData)
    (cacheKey : string) : M Profiler ProfileResult :=
  try_catch
    (prompt ← await (buildPrompt (now env) clientInfo geo);
     response ← await (fetch env prompt);
     if negb (ok response) then
       errorText ← await (text response);
       mret (fallback_with ("Grok API error: " +:+ pretty (status response)))
     else
       text ← await (content response);
       if negb (truthy text) then mret (fallback_with "Empty AI response")
       else
         match parseAIResponse (default "" text) with
         | None => mret (fallback_with "Failed to parse AI response")
         | Some profile =>
             let profile := <["aiGenerated" := "true"]> profile in
             cacheProfile env cacheKey profile;;
             mret {| profile := Some profile; source := ai; error := None |}
         end)
    (fun err => mret (fallback_with err)).

(** [generateAIProfile] *)
Definition generateAIProfile (env : Env) (clientInfo : ClientInfo)
    (geo : option GeoData) : M Profiler ProfileResult :=
  let fingerprintId := or_else (fingerprintId clientInfo) "unknown" in
  let crossBrowserId := or_else (crossBrowserId clientInfo) "unknown" in
  let cacheKey := getCacheKey fingerprintId crossBrowserId in
  cached ← getCachedProfile env cacheKey;
  match cached with
  | Some p => mret {| profile := Some p; source := cache; error := None |}
  | None =>
      if negb (truthy GROK_API_KEY) then mret (fallback_with "AI not configured")
      else
        let userId := fingerprintId +:+ ":" +:+ crossBrowserId in
        allowed ← checkRateLimit (now env) userId;
        if negb allowed then mret (fallback_with "Rate limited")
        else infer env clientInfo geo cacheKey
  end.
End AiProfiler.

(** ** The HTTP routes of [server/index.ts] that read the registries *)

(** [GET /api/visitor/:id]: the record, or [None] for the 404. *)
Definition getVisitorById (s : Server) (visitorId : string) : option VisitorInfo :=
  match localVisitors s !! visitorId with
  | Some visitor => Some visitor
  | None => allVisitors s !! visitorId
  end.

(** [GET /api/visitors] *)
Definition getVisitors : M Server (list VisitorInfo) :=
  connected ← gets (fun s => isSharedVisitorsConnected (shared s));
  if connected : bool then in_shared getAllSharedVisitors
  else gets (fun s => map snd (map_to_list (allVisitors s))).

(** [getSharedOnlineCount] of [server/shared-visitors.ts]: [hLen] rejects
    like any other command. *)
Definition getSharedOnlineCount : M SharedVisitors Z :=
  connected ← gets (fun s => pubClient s && isConnected s);
  if negb connected then mret 0
  else
    try_catch
      (fun s =>
         match rejections (redis s) with
         | true :: _ =>
             (Thrown "redis: command rejected", with_redis next_rejection s)
         | _ => (Returned (Z.of_nat (size (visitors (redis s)))),
                 with_redis next_rejection s)
         end)
      (fun _ => mret 0).

(** The field [online] of [GET /api/stats] ([totalOnline] of
    [GET /health] is the same expression): [online || allVisitors.size]. *)
Definition statsOnline : M Server Z :=
  online ← in_shared getSharedOnlineCount;
  known ← gets (fun s => Z.of_nat (size (allVisitors s)));
  mret (if decide (online = 0) then known else online).

(** ** Start of the shared state ([server/shared-visitors.ts]) *)

(** What the outside decides during [initSharedVisitors]: whether the two
    calls of [createClient], the two calls of [connect] and [subscribe]
    succeed. *)
Record InitEnv : Type := {
  createPub : Outcome unit;
  createSub : Outcome unit;
  connectPub : Outcome unit;
  connectSub : Outcome unit;
  subscribeSub : Outcome unit;
}.

(** [initSharedVisitors].  [subClient] is only used here and is not part
    of the state. *)
Definition initSharedVisitors (env : InitEnv) : M SharedVisitors bool :=
  try_catch
    (await (createPub env);;
     modify (fun s => {| pubClient := true; isConnected := isConnected s;
                         redis := redis s |});;
     await (createSub env);;
     await (connectPub env);;
     await (connectSub env);;
     await (subscribeSub env);;
     modify (fun s => {| pubClient := pubClient s; isConnected := true;
                         redis := redis s |});;
     mret true)
    (fun _ => mret false).

(** ** Connections of [server/ai-profiler.ts] *)

(** [reconnectStrategy] of [createRedisClient]: the delay before the next
    reconnection, or [None] for the error that ends reconnecting. *)
Definition reconnectStrategy (retries : Z) : option Z :=
  if decide (retries > 5) then None
  else Some (Z.min (retries * 200) 2000).

Definition REDIS_BACKOFF_MS : Z := 5000.

(** The variables [redis], [redisConnecting] and [redisLastError]:
    [redisClient] is [None] for [null], and otherwise tells whether the
    client [isOpen]. *)
Record RedisHandle : Type := {
  redisClient : option bool;
  redisConnecting : bool;
  redisLastError : Z;
}.

(** What the outside decides during one call of [getRedis]: the clock at
    entry, whether [createRedisClient] and [connect] succeed, and the
    clock in the [catch]. *)
Record ConnectEnv : Type := {
  clock : Z;
  created : Outcome unit;
  connected : Outcome unit;
  clockOnFailure : Z;
}.

(** [getRedis]; the result tells whether a client is returned. *)
Definition getRedis (env : ConnectEnv) (h : RedisHandle) : bool * RedisHandle :=
  if decide (redisLastError h > 0
             ∧ clock env - redisLastError h < REDIS_BACKOFF_MS)
  then (false, h)
  else if decide (redisClient h = Some true) then (true, h)
  else if redisConnecting h then (false, h)
  else
    match created env, connected env with
    | Returned _, Returned _ =>
        (true, {| redisClient := Some true; redisConnecting := false;
                  redisLastError := 0 |})
    | _, _ =>
        (false, {| redisClient := None; redisConnecting := false;
                   redisLastError := clockOnFailure env |})
    end.

(** The listener [redis.on('error', ...)]. *)
Definition onRedisError (now : Z) (h : RedisHandle) : RedisHandle :=
  {| redisClient := redisClient h; redisConnecting := redisConnecting h;
     redisLastError := now |}.

(** ** Unique visitors ([server/ai-profiler.ts]) *)

(** The Redis set [yourinfo:unique_visitors], and the delays the two
    functions have slept (oldest first). *)
Record Tracker : Type := {
  uniqueVisitors : gset string;
  slept : list Z;
}.

Definition sleep (ms : Z) (t : Tracker) : Tracker :=
  {| uniqueVisitors := uniqueVisitors t; slept := slept t ++ [ms] |}.

(** The loop of [trackUniqueVisitor] from [attempt] on, [fuel] attempts
    being left.  [link attempt] tells what [getTrackingRedis] and [sAdd]
    do at that attempt; a rejected [sAdd] adds nothing. *)
Fixpoint trackFrom (fuel : nat) (attempt maxRetries : Z) (link : Z → Link)
    (visitorKey : string) (t : Tracker) : bool * Tracker :=
  match fuel with
  | O => (false, t)
  | S fuel' =>
      match link attempt with
      | NoClient =>
          if decide (attempt < maxRetries)
          then trackFrom fuel' (attempt + 1) maxRetries link visitorKey
                 (sleep (100 * attempt) t)
          else (false, t)
      | Rejecting _ =>
          trackFrom fuel' (attempt + 1) maxRetries link visitorKey
            (if decide (attempt < maxRetries) then sleep (100 * attempt) t
             else t)
      | Serving =>
          (bool_decide (visitorKey ∉ uniqueVisitors t),
           {| uniqueVisitors := {[ visitorKey ]} ∪ uniqueVisitors t;
              slept := slept t |})
      end
  end.

(** [trackUniqueVisitor] *)
Definition trackUniqueVisitor (link : Z → Link)
    (fingerprintId crossBrowserId : string) (t : Tracker) : bool * Tracker :=
  trackFrom 3 1 3 link (fingerprintId +:+ ":" +:+ crossBrowserId) t.

(** The loop of [getTotalUniqueVisitors]. *)
Fixpoint totalFrom (fuel : nat) (attempt maxRetries : Z) (link : Z → Link)
    (t : Tracker) : Z * Tracker :=
  match fuel with
  | O => (0, t)
  | S fuel' =>
      match link attempt with
      | NoClient =>
          if decide (attempt < maxRetries)
          then totalFrom fuel' (attempt + 1) maxRetries link (sleep 100 t)
          else (0, t)
      | Rejecting _ =>
          totalFrom fuel' (attempt + 1) maxRetries link
            (if decide (attempt < maxRetries) then sleep 100 t else t)
      | Serving => (Z.of_nat (size (uniqueVisitors t)), t)
      end
  end.

(** [getTotalUniqueVisitors] *)
Definition getTotalUniqueVisitors (link : Z → Link) (t : Tracker) : Z * Tracker :=
  totalFrom 2 1 2 link t.

(** ** Geolocation ([server/geolocation.ts]) *)

(** [s.startsWith(p)] *)
Definition startsWith (s p : string) : bool := String.prefix p s.

(** [isPrivateIP] *)
Definition isPrivateIP (ip : string) : bool :=
  (String.eqb ip "127.0.0.1" || String.eqb ip "localhost"
   || String.eqb ip "unknown"
   || startsWith ip "10."
   || startsWith ip "172.16." || startsWith ip "172.17."
   || startsWith ip "172.18." || startsWith ip "172.19."
   || startsWith ip "172.20." || startsWith ip "172.21."
   || startsWith ip "172.22." || startsWith ip "172.23."
   || startsWith ip "172.24." || startsWith ip "172.25."
   || startsWith ip "172.26." || startsWith ip "172.27."
   || startsWith ip "172.28." || startsWith ip "172.29."
   || startsWith ip "172.30." || startsWith ip "172.31."
   || startsWith ip "192.168." || startsWith ip "169.254.")
  || (String.eqb ip "::1" || String.eqb ip "::ffff:127.0.0.1").

(** What [db.city(ip)] returns, as far as [getGeolocation] reads it; a
    path that ends in [undefined] is [None]. *)
Record CityResponse : Type := {
  location_latitude : option Q;
  location_longitude : option Q;
  location_timeZone : option string;
  city_names_en : option string;
  subdivisions_0_names_en : option string;
  country_names_en : option string;
  country_isoCode : option string;
  traits_isp : option string;
  traits_organization : option string;
  traits_autonomousSystemOrganization : option string;
}.

(** The database once loaded: [db.city] throws on an address it does not
    hold. *)
Definition Reader : Type := string → Outcome (option CityResponse).

(** [x || 0] on an optional number. *)
Definition number_or_zero (x : option Q) : Q :=
  match x with
  | Some q => if Qeq_bool q 0 then 0%Q else q
  | None => 0%Q
  end.

(** [a || b] on optional strings, the result still optional. *)
Definition first_truthy (a b : option string) : option string :=
  if truthy a then a else b.

(** [getGeolocation]; [reader] is the result of [initReader()], [None]
    when the database could not be opened. *)
Definition getGeolocation (reader : option Reader) (ip : string)
    : option GeoLocation :=
  if isPrivateIP ip then None
  else
    match reader with
    | None => None
    | Some db =>
        match db ip with
        | Thrown _ => None
        | Returned None => None
        | Returned (Some result) =>
            Some {| lat := number_or_zero (location_latitude result);
                    lng := number_or_zero (location_longitude result);
                    city := or_else (city_names_en result) "Unknown";
                    region := or_else (subdivisions_0_names_en result) "Unknown";
                    country := or_else (country_names_en result) "Unknown";
                    countryCode := or_else (country_isoCode result) "XX";
                    geo_timezone := or_else (location_timeZone result) "UTC";
                    isp := or_else (first_truthy (traits_isp result)
                                      (traits_organization result)) "Unknown";
                    org := or_else (traits_organization result) "Unknown";
                    as_ := or_else (traits_autonomousSystemOrganization result)
                             "Unknown" |}
        end
    end.

(** ** Requests ([server/index.ts]) *)

(** The headers of a request, by lower-case name ([Headers.get] ignores
    case and returns [null] for a header that is not there). *)
Record Request : Type := {
  request_headers : gmap string string;
}.

(** The [server] argument of [getRealIP]: [requestIP] may be missing, and
    may return [null]; otherwise it returns an object with an [address]. *)
Record BunServer : Type := {
  requestIP : option (Request → option string);
}.

(** [s.split(',')[0]] *)
Fixpoint before_comma (s : string) : string :=
  match s with
  | EmptyString => EmptyString
  | String c rest =>
      if Ascii.eqb c ","%char then EmptyString else String c (before_comma rest)
  end.

Definition headerWhitelist : list string :=
  ["accept"; "accept-encoding"; "accept-language"; "cache-control";
   "connection"; "dnt"; "sec-ch-ua"; "sec-ch-ua-mobile"; "sec-ch-ua-platform";
   "sec-fetch-dest"; "sec-fetch-mode"; "sec-fetch-site";
   "upgrade-insecure-requests"].

Section Requests.
(** [String.prototype.trim] *)
Variable trim : string → string.

(** [getRealIP] *)
Definition getRealIP (req : Request) (server : BunServer) : string :=
  let cfIP := request_headers req !! "cf-connecting-ip" in
  if truthy cfIP then default "" cfIP
  else
    let xff := request_headers req !! "x-forwarded-for" in
    let firstIP := trim (before_comma (default "" xff)) in
    if truthy xff && negb (String.eqb firstIP "") then firstIP
    else
      let realIP := request_headers req !! "x-real-ip" in
      if truthy realIP then default "" realIP
      else
        match requestIP server with
        | Some f =>
            match f req with
            | Some address => address
            | None => "127.0.0.1"
            end
        | None => "127.0.0.1"
        end.
End Requests.

(** The loop of [buildServerInfo] over the whitelist. *)
Definition copyHeaders (req : Request) (names : list string)
    : gmap string string :=
  foldl (fun headers name =>
           let value := request_headers req !! name in
           if truthy value then <[name := default "" value]> headers
           else headers)
        ∅ names.

(** [buildServerInfo]; [reader] as for [getGeolocation]. *)
Definition buildServerInfo (reader : option Reader) (req : Request)
    (ip : string) : ServerInfo :=
  {| ip := ip;
     geo := getGeolocation reader ip;
     userAgent := or_else (request_headers req !! "user-agent") "Unknown";
     acceptLanguage := or_else (request_headers req !! "accept-language") "Unknown";
     referer := or_else (request_headers req !! "referer") "Direct";
     headers := copyHeaders req headerWhitelist |}.

(** ** The browser's hook ([src/hooks/useWebSocket.ts]) *)

Module useWebSocket.

(** The two pieces of state that [handleMessage] writes. *)
Record State : Type := {
  visitors : list VisitorInfo;
  currentVisitor : option VisitorInfo;
}.

(** [useState([])] and [useState(null)]. *)
Definition mounted : State := {| visitors := []; currentVisitor := None |}.

(** [handleMessage]; the server sends no message of another type. *)
Definition handleMessage (message : WSMessage) (prev : State) : State :=
  match message with
  | welcome visitor all =>
      {| visitors := all; currentVisitor := Some visitor |}
  | visitor_joined visitor =>
      {| visitors := visitors prev ++ [visitor];
         currentVisitor := currentVisitor prev |}
  | visitor_left visitor =>
      {| visitors := filter (fun v => id v ≠ id visitor) (visitors prev);
         currentVisitor := currentVisitor prev |}
  | visitor_updated visitor =>
      {| visitors := map (fun v => if decide (id v = id visitor) then visitor
                                   else v) (visitors prev);
         currentVisitor :=
           match currentVisitor prev with
           | Some own => if decide (id own = id visitor) then Some visitor
                         else Some own
           | None => None
           end |}
  end.

End useWebSocket.

(* ===================================================================== *)
(** * Part II: vocabulary of the properties                               *)
(* ===================================================================== *)

(** What redaction does to a geolocation: [g'] is [g] with the city, the
    provider and the organisation masked and each coordinate replaced by
    an integer that no other integer beats in distance. *)
Definition coarsened (g g' : GeoLocation) : Prop :=
  city g' = MASK ∧ isp g' = MASK ∧ org g' = MASK
  ∧ region g' = region g ∧ country g' = country g
  ∧ countryCode g' = countryCode g ∧ geo_timezone g' = geo_timezone g
  ∧ as_ g' = as_ g
  ∧ (∃ n : Z, lat g' = inject_Z n
              ∧ ∀ m : Z, (Qabs (lat g - lat g') <= Qabs (lat g - inject_Z m))%Q)
  ∧ (∃ n : Z, lng g' = inject_Z n
              ∧ ∀ m : Z, (Qabs (lng g - lng g') <= Qabs (lng g - inject_Z m))%Q).

(** What redaction does to a record. *)
Definition redacted (r r' : VisitorInfo) : Prop :=
  id r' = id r ∧ connectedAt r' = connectedAt r ∧ client r' = client r
  ∧ ip (server r') = MASKED_IP
  ∧ userAgent (server r') = userAgent (server r)
  ∧ acceptLanguage (server r') = acceptLanguage (server r)
  ∧ referer (server r') = referer (server r)
  ∧ headers (server r') = headers (server r)
  ∧ match geo (server r), geo (server r') with
    | None, None => True
    | Some g, Some g' => coarsened g g'
    | _, _ => False
    end.

(** A callback made observable: it notes its position in the list of
    callbacks when it is entered, then runs. *)
Definition observed {St} (i : nat) (cb : @EventCallback St)
    : @EventCallback (St * list nat) :=
  fun event s =>
    let '(o, s') := cb event (fst s) in (o, (s', snd s ++ [i])).

(** The callbacks of a list made observable, numbered from [i]. *)
Fixpoint observe_from {St} (i : nat) (cbs : list (@EventCallback St))
    : list (@EventCallback (St * list nat)) :=
  match cbs with
  | [] => []
  | cb :: rest => observed i cb :: observe_from (S i) rest
  end.

(** The positions of the callbacks that one channel message enters, in
    the order they are entered. *)
Definition invoked {St} (INSTANCE_ID : string) (cbs : list (@EventCallback St))
    (message : ChannelMessage) (s : St) : list nat :=
  snd (snd (onChannelMessage INSTANCE_ID (observe_from 0 cbs) message (s, []))).

(** A callback that returns on this event whatever the state. *)
Definition returns {St} (event : VisitorEvent) (cb : @EventCallback St) : Prop :=
  ∀ s, fst (cb event s) = Returned tt.

(** ** Enrichment *)

(** The cache key and the limiter key of a client. *)
Definition cacheKeyOf (clientInfo : ClientInfo) : string :=
  getCacheKey (or_else (fingerprintId clientInfo) "unknown")
              (or_else (crossBrowserId clientInfo) "unknown").

Definition userIdOf (clientInfo : ClientInfo) : string :=
  or_else (fingerprintId clientInfo) "unknown" +:+ ":"
  +:+ or_else (crossBrowserId clientInfo) "unknown".

(** The identity of a client, in the words of the specification: its
    fingerprint and its cross-device id, each of them [unknown] when the
    client does not give it or gives the empty text. *)
Definition identity_part (given : option string) : string :=
  match given with
  | Some text => if decide (text = "") then "unknown" else text
  | None => "unknown"
  end.

(** The key under which the cache keeps the entry of an identity, and the
    key of the window of an identity in the limiter. *)
Definition entry_key (fingerprint crossDevice : string) : string :=
  "yourinfo:profile:" +:+ fingerprint +:+ ":" +:+ crossDevice.

Definition window_key (fingerprint crossDevice : string) : string :=
  fingerprint +:+ ":" +:+ crossDevice.

(** The cache answers with the profile [p]: the store is reached and
    holds [p] under the key. *)
Definition cache_hit (env : Env) (key : string) (p : UserProfile)
    (s : Profiler) : Prop :=
  linkOnGet env = Serving ∧ cacheStore s !! key = Some (StoredProfile p).

(** The lookup comes back empty. *)
Definition cache_miss (env : Env) (key : string) (s : Profiler) : Prop :=
  getCachedProfile env key s = (Returned None, s).

(** The identity has a window that is still open at [now]. *)
Definition open_window (now : Z) (userId : string) (s : Profiler)
    (l : RateLimit) : Prop :=
  userRateLimits s !! userId = Some l ∧ ¬ now > resetTime l.

Definition no_open_window (now : Z) (userId : string) (s : Profiler) : Prop :=
  match userRateLimits s !! userId with
  | Some l => now > resetTime l
  | None => True
  end.

(** The window of the identity is open and used up. *)
Definition window_exceeded (now : Z) (userId : string) (s : Profiler) : Prop :=
  ∃ l, open_window now userId s l ∧ count l >= RATE_LIMIT_MAX.

(** A result has the shape [{profile, source, error?}] of its source: a
    profile and no error for [ai] and [cache], no profile and an error
    for [fallback]. *)
Definition well_formed (r : ProfileResult) : Prop :=
  match source r with
  | fallback => profile r = None ∧ is_Some (error r)
  | _ => is_Some (profile r) ∧ error r = None
  end.

Definition is_fallback (r : ProfileResult) : bool :=
  match source r with
  | fallback => true
  | _ => false
  end.


Section EnrichmentVocabulary.
Variable GROK_API_KEY : option string.
Variable buildPrompt : Z → ClientInfo → option GeoData → Outcome string.
Variable parseAIResponse : string → option UserProfile.

(** The ways the inference call fails: the prompt cannot be built, the
    request fails, the status is not a success, the body cannot be read,
    the answer is empty, the answer does not parse. *)
Inductive inference_failure (env : Env) (clientInfo : ClientInfo)
    (geo : option GeoData) : Prop :=
| prompt_failure e :
    buildPrompt (now env) clientInfo geo = Thrown e →
    inference_failure env clientInfo geo
| network_failure prompt e :
    buildPrompt (now env) clientInfo geo = Returned prompt →
    fetch env prompt = Thrown e →
    inference_failure env clientInfo geo
| non_success_status prompt response :
    buildPrompt (now env) clientInfo geo = Returned prompt →
    fetch env prompt = Returned response →
    ok response = false →
    inference_failure env clientInfo geo
| unreadable_body prompt response e :
    buildPrompt (now env) clientInfo geo = Returned prompt →
    fetch env prompt = Returned response →
    ok response = true →
    content response = Thrown e →
    inference_failure env clientInfo geo
| empty_answer prompt response t :
    buildPrompt (now env) clientInfo geo = Returned prompt →
    fetch env prompt = Returned response →
    ok response = true →
    content response = Returned t →
    truthy t = false →
    inference_failure env clientInfo geo
| parse_failure prompt response t :
    buildPrompt (now env) clientInfo geo = Returned prompt →
    fetch env prompt = Returned response →
    ok response = true →
    content response = Returned (Some t) →
    parseAIResponse t = None →
    inference_failure env clientInfo geo.

(** The request passes the limiter and its result is that of the
    inference call. *)
Definition reaches_inference (env : Env) (clientInfo : ClientInfo)
    (geo : option GeoData) (s : Profiler) : Prop :=
  ∃ s_lim,
    checkRateLimit (now env) (userIdOf clientInfo) s = (Returned true, s_lim)
    ∧ generateAIProfile GROK_API_KEY buildPrompt parseAIResponse env clientInfo geo s
      = infer buildPrompt parseAIResponse env clientInfo geo
          (cacheKeyOf clientInfo) s_lim.

(** The request is turned away by the limiter. *)
Definition refused_by_limiter (env : Env) (clientInfo : ClientInfo)
    (geo : option GeoData) (s : Profiler) : Prop :=
  generateAIProfile GROK_API_KEY buildPrompt parseAIResponse env clientInfo geo s
  = (Returned (fallback_with "Rate limited"), s).

(** Successive requests of one client, each in the state the previous one
    left; the results in order. *)
Fixpoint enrich (envs : list Env) (clientInfo : ClientInfo)
    (geo : option GeoData) (s : Profiler) : list (Outcome ProfileResult) :=
  match envs with
  | [] => []
  | env :: rest =>
      let '(o, s') := generateAIProfile GROK_API_KEY buildPrompt parseAIResponse
                        env clientInfo geo s in
      o :: enrich rest clientInfo geo s'
  end.
End EnrichmentVocabulary.

Definition sources (results : list (Outcome ProfileResult)) : list (option Source) :=
  map (fun o => match o with
                | Returned r => Some (source r)
                | Thrown _ => None
                end) results.

(** How many of the results are fallbacks, and how many carry a profile
    from the service or from the cache. *)
Definition fallbacks (results : list (Outcome ProfileResult)) : nat :=
  length (List.filter (fun o => match o with
                                | Returned r => is_fallback r
                                | Thrown _ => false
                                end) results).

Definition served (results : list (Outcome ProfileResult)) : nat :=
  length (List.filter (fun o => match o with
                                | Returned r => negb (is_fallback r)
                                | Thrown _ => false
                                end) results).

(** ** Sample data for the concrete instances *)

Definition turin : GeoLocation :=
  {| lat := 4507 # 100; lng := 769 # 100; city := "Turin";
     region := "Piedmont"; country := "Italy"; countryCode := "IT";
     geo_timezone := "Europe/Rome"; isp := "Fastweb"; org := "Fastweb SpA";
     as_ := "AS12874" |}.

Definition sample_server (address : string) (g : option GeoLocation) : ServerInfo :=
  {| ip := address; geo := g; userAgent := "Mozilla/5.0";
     acceptLanguage := "it-IT"; referer := "Direct"; headers := ∅ |}.

Definition alice : VisitorInfo :=
  {| id := "v_a"; server := sample_server "127.0.0.1" None; client := None;
     connectedAt := 1000 |}.

Definition bob : VisitorInfo :=
  {| id := "v_b"; server := sample_server "93.34.1.7" (Some turin);
     client := None; connectedAt := 2000 |}.

Definition sample_instance : string := "instance_3020_abc".

(** Device facts with and without an enrichment profile. *)
Definition with_profile : ClientInfo :=
  {| fingerprintId := Some "fp1"; crossBrowserId := Some "cb1";
     timezone := Some "Europe/Rome";
     userProfile := Some {[ "likelyDeveloper" := "true" ]};
     facts := {[ "hardwareConcurrency" := "8" ]} |}.

Definition without_profile : ClientInfo :=
  {| fingerprintId := Some "fp1"; crossBrowserId := Some "cb1";
     timezone := Some "Europe/Rome"; userProfile := None;
     facts := {[ "hardwareConcurrency" := "8" ]} |}.

Definition alice_socket : WebSocket :=
  {| visitorId := Some "v_a"; readyState := OPEN |}.

(** A connected store whose directory holds [bob] and expires in ten
    seconds. *)
Definition expiring_directory : SharedVisitors :=
  {| pubClient := true; isConnected := true;
     redis := {| visitors := {[ "v_b" := bob ]}; expiry := Some 10;
                 channel := []; rejections := [] |} |}.

(** ** Registries *)

(** The sockets registered are those of the local visitors, and every
    local visitor is among all the visitors. *)
Definition registries_consistent (s : Server) : Prop :=
  dom (connections s) = dom (localVisitors s)
  ∧ dom (localVisitors s) ⊆ dom (allVisitors s).

(** An action that is not a remote event about a local visitor. *)
Definition carries_no_local_id (a : Action) (s : Server) : Prop :=
  match a with
  | ChannelReceive (Encoded event) => id (visitor event) ∉ dom (localVisitors s)
  | _ => True
  end.

Fixpoint no_local_id_throughout (INSTANCE_ID : string) (actions : list Action)
    (s : Server) : Prop :=
  match actions with
  | [] => True
  | a :: rest =>
      carries_no_local_id a s
      ∧ no_local_id_throughout INSTANCE_ID rest (snd (handle INSTANCE_ID a s))
  end.

(** The process at start: empty maps, the store as [initSharedVisitors]
    left it. *)
Definition initial (sh : SharedVisitors) : Server :=
  {| localVisitors := ∅; allVisitors := ∅; connections := ∅; shared := sh;
     effects := []; pending := [] |}.

(** ** Counting what was published *)

Definition is_left_event (vid : string) (event : VisitorEvent) : bool :=
  match type event with
  | Left => String.eqb (id (visitor event)) vid
  | _ => false
  end.

(** How many [left] events about [vid] are on the channel. *)
Definition left_published (vid : string) (s : Server) : nat :=
  length (List.filter (is_left_event vid) (channel (redis (shared s)))).

(** How many [left] events about [vid] a call that waits has still to
    publish, and how many all of them have. *)
Definition is_left_step (step : Step) : bool :=
  match step with
  | IssuePublish Left => true
  | _ => false
  end.

Definition left_steps (vid : string) (c : Call) : nat :=
  if String.eqb (id (about c)) vid
  then length (List.filter is_left_step (todo c))
  else 0%nat.

Definition left_to_publish (vid : string) (s : Server) : nat :=
  sum_list_with (left_steps vid) (pending s).

Definition is_left_notice (to vid : string) (e : Effect) : bool :=
  match e with
  | Send recipient (visitor_left v) =>
      String.eqb recipient to && String.eqb (id v) vid
  | _ => false
  end.

(** How many [visitor_left] messages about [vid] were sent to [to]. *)
Definition left_sent (to vid : string) (s : Server) : nat :=
  length (List.filter (is_left_notice to vid) (effects s)).

(** ** Known fields of a client *)

(** No property that [before] has is missing from [after]. *)
Definition keeps_known_fields (before after : option ClientInfo) : Prop :=
  ∀ c, before = Some c →
    ∃ c', after = Some c'
      ∧ (is_Some (fingerprintId c) → is_Some (fingerprintId c'))
      ∧ (is_Some (crossBrowserId c) → is_Some (crossBrowserId c'))
      ∧ (is_Some (timezone c) → is_Some (timezone c'))
      ∧ (is_Some (userProfile c) → is_Some (userProfile c'))
      ∧ (∀ k, is_Some (facts c !! k) → is_Some (facts c' !! k)).

(** The [client_info] messages that carry the given payloads, in order. *)
Definition client_info_messages (ws : WebSocket) (payloads : list ClientInfo)
    : list Action :=
  map (fun c => SocketMessage ws (client_info (Some {| clientInfo := Some c |})))
      payloads.

(** An inference service that is configured and answers, and a parser
    that accepts its answer. *)
Definition sample_key : option string := Some "xai-key".

Definition sample_prompt : Z → ClientInfo → option GeoData → Outcome string :=
  fun _ _ _ => Returned "DATA".

Definition sample_parse : string → option UserProfile :=
  fun t => if String.eqb t "answer" then Some {[ "likelyDeveloper" := "true" ]}
           else None.

Definition answering : Response :=
  {| ok := true; status := 200; text := Returned "body";
     content := Returned (Some "answer") |}.

Definition env_at (t : Z) (onGet onSet : Link) (answer : Outcome Response) : Env :=
  {| now := t; linkOnGet := onGet; linkOnSet := onSet;
     fetch := fun _ => answer |}.

Definition failing : Response :=
  {| ok := false; status := 500; text := Returned "Internal Server Error";
     content := Thrown "SyntaxError" |}.

Definition fresh_profiler : Profiler :=
  {| cacheStore := ∅; userRateLimits := ∅ |}.

(** Three requests, one second apart.  [cache_up]: the cache is reached
    and the service answers.  [cache_down]: the cache is not reached and
    the service answers.  [service_down]: the cache is not reached and the
    service answers with status 500. *)
Definition cache_up : list Env :=
  [env_at 0 Serving Serving (Returned answering);
   env_at 1000 Serving Serving (Returned answering);
   env_at 2000 Serving Serving (Returned answering)].

Definition cache_down : list Env :=
  [env_at 0 NoClient NoClient (Returned answering);
   env_at 1000 NoClient NoClient (Returned answering);
   env_at 2000 NoClient NoClient (Returned answering)].

Definition service_down : list Env :=
  [env_at 0 NoClient NoClient (Returned failing);
   env_at 1000 NoClient NoClient (Returned failing);
   env_at 2000 NoClient NoClient (Returned failing)].


(** A limiter whose window for [with_profile] is open until 60000 and
    used up. *)
Definition limited_profiler : Profiler :=
  {| cacheStore := ∅;
     userRateLimits := {[ "fp1:cb1" := {| count := 2; resetTime := 60000 |} ]} |}.

(** A cache that holds a profile for [with_profile]. *)
Definition cached_profiler : Profiler :=
  {| cacheStore := {[ "yourinfo:profile:fp1:cb1"
                       := StoredProfile {[ "likelyGamer" := "false" ]} ]};
     userRateLimits := ∅ |}.

(** A store that was never connected. *)
Definition local_only : SharedVisitors :=
  {| pubClient := false; isConnected := false;
     redis := {| visitors := ∅; expiry := None; channel := [];
                 rejections := [] |} |}.

Definition new_socket : WebSocket := {| visitorId := None; readyState := OPEN |}.

Definition bob_socket : WebSocket :=
  {| visitorId := Some "v_b"; readyState := OPEN |}.

(** [alice] connects, [bob] connects, reports device facts and leaves. *)
Definition scenario : list Action :=
  [SocketOpen new_socket "v_a" (sample_server "127.0.0.1" None) 1000;
   SocketOpen new_socket "v_b" (sample_server "93.34.1.7" (Some turin)) 2000;
   SocketMessage bob_socket
     (client_info (Some {| clientInfo := Some without_profile |}));
   SocketClose bob_socket].

(** What [alice] is sent, without the welcome. *)
Definition sent_to_alice (s : Server) : list WSMessage :=
  omap (fun e => match e with
                 | Send "v_a" (welcome _ _) => None
                 | Send "v_a" m => Some m
                 | _ => None
                 end) (effects s).

(** [alice] connected to an instance that runs without the shared store. *)
Definition alice_online : Server :=
  {| localVisitors := {[ "v_a" := alice ]}; allVisitors := {[ "v_a" := alice ]};
     connections := {[ "v_a" := alice_socket ]};
     shared := local_only;
     effects := []; pending := [] |}.

(** [alice] connected to an instance whose store is connected, empty, and
    serves its commands. *)
Definition alice_shared : Server :=
  {| localVisitors := {[ "v_a" := alice ]}; allVisitors := {[ "v_a" := alice ]};
     connections := {[ "v_a" := alice_socket ]};
     shared := {| pubClient := true; isConnected := true;
                  redis := {| visitors := ∅; expiry := None; channel := [];
                              rejections := [] |} |};
     effects := []; pending := [] |}.

(** ** Records, messages and their owners *)

(** Every record of the map is stored under its own id. *)
Definition keyed_by_id (m : gmap string VisitorInfo) : Prop :=
  ∀ k v, m !! k = Some v → id v = k.

(** The records a message carries. *)
Definition carried (m : WSMessage) : list VisitorInfo :=
  match m with
  | welcome v vs => v :: vs
  | visitor_joined v | visitor_updated v | visitor_left v => [v]
  end.

(** A message that may go to the socket of [to]: every record it carries
    is the record of [to] or a redacted record. *)
Definition discreet (to : string) (m : WSMessage) : Prop :=
  ∀ v, v ∈ carried m → id v = to ∨ ∃ r, v = redactVisitorInfo r.

(** Effects that respect the owners of the records. *)
Definition discreet_effect (e : Effect) : Prop :=
  match e with
  | Send to m => discreet to m
  | TrackUniqueVisitor _ _ => True
  end.

(** A client message that the handler has nothing to do with: it does not
    parse, has another type, has no payload, or arrives on a socket whose
    visitor is not registered. *)
Definition ignored (ws : WebSocket) (m : ClientMessage) (s : Server) : Prop :=
  match m with
  | Unparsable _ | OtherType _ | client_info None => True
  | client_info (Some _) =>
      (visitorId ws ≫= fun v => localVisitors s !! v) = None
  end.

(** The actions that come from a socket. *)
Definition is_socket_action (a : Action) : Prop :=
  match a with
  | ChannelReceive _ => False
  | _ => True
  end.

(** ** The shared directory *)

(** The start succeeds at every step. *)
Definition all_succeed (env : InitEnv) : Prop :=
  createPub env = Returned tt ∧ createSub env = Returned tt
  ∧ connectPub env = Returned tt ∧ connectSub env = Returned tt
  ∧ subscribeSub env = Returned tt.

(** The event that a publishing function puts on the channel. *)
Definition event_of (INSTANCE_ID : string) (t : VisitorEventType)
    (v : VisitorInfo) : VisitorEvent :=
  {| type := t; visitor := v; instanceId := INSTANCE_ID |}.







(** The socket of [alice] closes twice; then the replies to the [hDel]
    and to the [publish] arrive. *)
Definition double_close : list Turn :=
  [Handler (SocketClose alice_socket); Handler (SocketClose alice_socket);
   StoreReply 0; StoreReply 0].

(** A store that refuses to connect, and one that accepts. *)
Definition refusing : InitEnv :=
  {| createPub := Returned tt; createSub := Returned tt;
     connectPub := Thrown "ECONNREFUSED"; connectSub := Returned tt;
     subscribeSub := Returned tt |}.

Definition accepting : InitEnv :=
  {| createPub := Returned tt; createSub := Returned tt;
     connectPub := Returned tt; connectSub := Returned tt;
     subscribeSub := Returned tt |}.

(** The module before [initSharedVisitors]. *)
Definition not_started : SharedVisitors :=
  {| pubClient := false; isConnected := false;
     redis := {| visitors := ∅; expiry := None; channel := [];
                 rejections := [] |} |}.

(** A connected store whose second command will be rejected. *)
Definition flaky_directory : SharedVisitors :=
  {| pubClient := true; isConnected := true;
     redis := {| visitors := ∅; expiry := None; channel := [];
                 rejections := [false; true] |} |}.

(** A connected, empty store that serves its commands. *)
Definition empty_directory : SharedVisitors :=
  {| pubClient := true; isConnected := true;
     redis := {| visitors := ∅; expiry := None; channel := [];
                 rejections := [] |} |}.

(** ** The limiter and the cache *)

(** No window counts fewer than one request or more than the limit. *)
Definition limiter_bounded (s : Profiler) : Prop :=
  ∀ k l, userRateLimits s !! k = Some l → 1 ≤ count l ≤ RATE_LIMIT_MAX.

(** The answers of the limiter to successive requests of one identity. *)
Fixpoint admissions (times : list Z) (userId : string) (s : Profiler)
    : list bool :=
  match times with
  | [] => []
  | t :: rest =>
      let '(o, s') := checkRateLimit t userId s in
      match o with
      | Returned b => b :: admissions rest userId s'
      | Thrown _ => []
      end
  end.

(** A string without a colon. *)
Fixpoint colon_free (s : string) : Prop :=
  match s with
  | EmptyString => True
  | String c rest => c ≠ ":"%char ∧ colon_free rest
  end.

(** A limiter with one open window, one request counted. *)
Definition one_counted : Profiler :=
  {| cacheStore := ∅;
     userRateLimits := {[ "fp1:cb1" := {| count := 1; resetTime := 60000 |} ]} |}.

(** A closed, failed connection that is still backing off at 1000, and
    the environment of an attempt that fails at 1200. *)
Definition never_connected : RedisHandle :=
  {| redisClient := None; redisConnecting := false; redisLastError := 0 |}.

Definition failing_connect : ConnectEnv :=
  {| clock := 1000; created := Returned tt; connected := Thrown "ECONNREFUSED";
     clockOnFailure := 1200 |}.

Definition working_connect (at_ : Z) : ConnectEnv :=
  {| clock := at_; created := Returned tt; connected := Returned tt;
     clockOnFailure := at_ |}.

(** A tracking store that is out of reach at the first attempt and serves
    the second. *)
Definition second_attempt_serves : Z → Link :=
  fun attempt => if decide (attempt = 1) then NoClient else Serving.

Definition always_serving : Z → Link := fun _ => Serving.

Definition empty_tracker : Tracker := {| uniqueVisitors := ∅; slept := [] |}.

(** A call of [getRedis] that gets as far as trying to connect: it is not
    held back by the back-off, has no open client, and no other attempt is
    under way. *)
Definition tries_to_connect (env : ConnectEnv) (h : RedisHandle) : Prop :=
  ¬ (redisLastError h > 0 ∧ clock env - redisLastError h < REDIS_BACKOFF_MS)
  ∧ redisClient h ≠ Some true
  ∧ redisConnecting h = false.

(** ** What a browser has been sent *)

(** The messages written to the socket of [me], oldest first. *)
Definition inbox (me : string) (es : list Effect) : list WSMessage :=
  omap (fun e => match e with
                 | Send to m => if decide (to = me) then Some m else None
                 | TrackUniqueVisitor _ _ => None
                 end) es.

(** The state of the hook behind the socket of [me] once it has handled
    them in that order. *)
Definition browser (me : string) (s : Server) : useWebSocket.State :=
  foldl (fun st m => useWebSocket.handleMessage m st) useWebSocket.mounted
        (inbox me (effects s)).

(** The ids of the visitors a hook lists. *)
Definition shown (st : useWebSocket.State) : gset string :=
  list_to_set (map id (useWebSocket.visitors st)).

(** The id of the visitor a hook takes for its own. *)
Definition own_id (st : useWebSocket.State) : option string :=
  id <$> useWebSocket.currentVisitor st.

(** An instance that has no visitor yet and runs without the shared
    store. *)
Definition freshly_started (s : Server) : Prop :=
  localVisitors s = ∅ ∧ allVisitors s = ∅ ∧ connections s = ∅
  ∧ isConnected (shared s) = false.

(** The hooks behind the open sockets list the visitors of [allVisitors]
    and know their own id. *)
Definition browsers_follow (s : Server) : Prop :=
  ∀ me ws, connections s !! me = Some ws → readyState ws = OPEN →
    shown (browser me s) = dom (allVisitors s)
    ∧ own_id (browser me s) = Some me.

(** The effects of the [message] handler: updates and reports. *)
Definition is_update (e : Effect) : Prop :=
  match e with
  | Send _ (visitor_updated _) => True
  | TrackUniqueVisitor _ _ => True
  | _ => False
  end.

(** A visitor of another instance that has reported device facts. *)
Definition carol : VisitorInfo :=
  {| id := "v_c"; server := sample_server "93.34.1.9" (Some turin);
     client := Some without_profile; connectedAt := 3000 |}.

(** ** Sample requests *)

(** A request that came through a proxy chain, with a cookie. *)
Definition proxied_request : Request :=
  {| request_headers :=
       {[ "x-forwarded-for" := "93.34.1.7, 10.0.0.2";
          "user-agent" := "Mozilla/5.0";
          "accept-language" := "it-IT";
          "cookie" := "session=abc";
          "dnt" := "1" ]} |}.

(** A request without any header, on a server that knows no peer. *)
Definition bare_request : Request := {| request_headers := ∅ |}.

Definition no_peer : BunServer := {| requestIP := None |}.

Definition peer_at (address : string) : BunServer :=
  {| requestIP := Some (fun _ => Some address) |}.

(** A database that holds one address, with a city and nothing else. *)
Definition sample_reader : Reader :=
  fun ip =>
    if String.eqb ip "93.34.1.7"
    then Returned (Some {| location_latitude := Some (4507 # 100);
                           location_longitude := Some (769 # 100);
                           location_timeZone := None;
                           city_names_en := Some "Turin";
                           subdivisions_0_names_en := None;
                           country_names_en := None;
                           country_isoCode := None;
                           traits_isp := None;
                           traits_organization := Some "Fastweb SpA";
                           traits_autonomousSystemOrganization := None |})
    else Thrown "AddressNotFoundError".

(* ===================================================================== *)
(** * Part III: properties                                                *)
(* ===================================================================== *)

(** ** Rounding *)

Lemma Math_round_bounds (x : Q) :
  (Math_round x - (1 # 2) <= x)%Q ∧ (x < Math_round x + (1 # 2))%Q.
Proof.
  unfold Math_round.
  pose proof (Qfloor_le (x + (1 # 2))) as Hlo.
  pose proof (Qlt_floor (x + (1 # 2))) as Hhi.
  rewrite inject_Z_plus in Hhi.
  change (inject_Z 1) with 1%Q in Hhi.
  generalize dependent (inject_Z (Qfloor (x + (1 # 2)))). intros q Hlo Hhi.
  split; lra.
Qed.

Lemma Math_round_inject_Z (n : Z) : Math_round (inject_Z n) = inject_Z n.
Proof.
  unfold Math_round. f_equal.
  unfold Qfloor, inject_Z, Qplus; simpl.
  rewrite Z.mul_1_r.
  replace (n * 2 + 1) with (1 + n * 2) by lia.
  rewrite Z.div_add by lia. reflexivity.
Qed.

Lemma Math_round_idempotent (x : Q) : Math_round (Math_round x) = Math_round x.
Proof. unfold Math_round at 2 3. apply Math_round_inject_Z. Qed.

Lemma inject_Z_succ_le (m n : Z) : m < n → (inject_Z m + 1 <= inject_Z n)%Q.
Proof.
  intros H. change 1%Q with (inject_Z 1). rewrite <- inject_Z_plus.
  rewrite <- Zle_Qle. lia.
Qed.

(** No integer is nearer to [x] than [Math_round x]. *)
Lemma Math_round_nearest (x : Q) (m : Z) :
  (Qabs (x - Math_round x) <= Qabs (x - inject_Z m))%Q.
Proof.
  destruct (Math_round_bounds x) as [Hlo Hhi].
  unfold Math_round in *.
  set (n := Qfloor (x + (1 # 2))) in *. clearbody n.
  destruct (Z.lt_trichotomy m n) as [Hlt | [-> | Hgt]].
  - pose proof (inject_Z_succ_le _ _ Hlt) as Hm.
    generalize dependent (inject_Z n). generalize dependent (inject_Z m).
    intros qm qn Hlo Hhi Hm.
    apply Qabs_case; intros; apply Qabs_case; intros; lra.
  - apply Qle_refl.
  - pose proof (inject_Z_succ_le _ _ Hgt) as Hm.
    generalize dependent (inject_Z n). generalize dependent (inject_Z m).
    intros qm qn Hlo Hhi Hm.
    apply Qabs_case; intros; apply Qabs_case; intros; lra.
Qed.

Example Math_round_half : Math_round (5 # 2) = 3%Q ∧ Math_round (-5 # 2) = (-2)%Q.
Proof. split; reflexivity. Qed.

(** ** Redaction *)

Lemma redactVisitorsExcept_lookup (l : list VisitorInfo) (viewer : string)
    (i : nat) :
  redactVisitorsExcept l viewer !! i
  = (fun r => if String.eqb (id r) viewer then r else redactVisitorInfo r)
      <$> l !! i.
Proof. unfold redactVisitorsExcept. apply list_lookup_fmap. Qed.

Lemma redactVisitorInfo_redacted (r : VisitorInfo) : redacted r (redactVisitorInfo r).
Proof.
  unfold redacted; simpl. repeat split.
  destruct (geo (server r)) as [g|]; [|exact I].
  unfold coarsened; simpl. repeat split.
  - exists (Qfloor (lat g + (1 # 2))). split; [reflexivity|].
    intros m. apply Math_round_nearest.
  - exists (Qfloor (lng g + (1 # 2))). split; [reflexivity|].
    intros m. apply Math_round_nearest.
Qed.

(** C1.  The redaction layer, record by record: in the list that
    [redactVisitorsExcept] returns for a viewer, the viewer's own record is
    the record itself, and every other record is a copy in which
    [server.ip] is the fixed placeholder, [server.geo.city], [isp] and
    [org] are masks, [server.geo.lat] and [lng] are the nearest integers
    (a null [geo] stays null), and every other field ([id],
    [connectedAt], [client] with its profile, the other fields of
    [server] and of [geo]) is the original one. *)
Theorem redaction_layer (l : list VisitorInfo) (viewer : string) (i : nat)
    (r : VisitorInfo) :
  l !! i = Some r →
  length (redactVisitorsExcept l viewer) = length l
  ∧ ∃ r', redactVisitorsExcept l viewer !! i = Some r'
          ∧ (id r = viewer → r' = r)
          ∧ (id r ≠ viewer → r' = redactVisitorInfo r ∧ redacted r r').
Proof.
  intros Hi. split.
  { unfold redactVisitorsExcept. apply length_map. }
  rewrite redactVisitorsExcept_lookup, Hi. simpl.
  eexists; split; [reflexivity|].
  destruct (String.eqb_spec (id r) viewer) as [Heq | Hne].
  - split; [reflexivity | intros H; contradiction].
  - split; [intros H; contradiction|].
    intros _. split; [reflexivity | apply redactVisitorInfo_redacted].
Qed.

Lemma redactVisitorInfo_twice (r : VisitorInfo) :
  redactVisitorInfo (redactVisitorInfo r) = redactVisitorInfo r.
Proof.
  unfold redactVisitorInfo; simpl.
  destruct (geo (server r)) as [g|]; simpl; [|reflexivity].
  rewrite !Math_round_idempotent. reflexivity.
Qed.

(** C9.  Redacting a redacted record changes nothing: the masks are
    constants and an integer rounds to itself. *)
Theorem redactVisitorInfo_idempotent (r : VisitorInfo) :
  redactVisitorInfo (redactVisitorInfo r) = redactVisitorInfo r.
Proof. apply redactVisitorInfo_twice. Qed.

(** The same for a whole list and a viewer. *)
Lemma redactVisitorsExcept_twice (l : list VisitorInfo) (viewer : string) :
  redactVisitorsExcept (redactVisitorsExcept l viewer) viewer
  = redactVisitorsExcept l viewer.
Proof.
  unfold redactVisitorsExcept. rewrite map_map. apply map_ext. intros r.
  destruct (String.eqb (id r) viewer) eqn:Hid; simpl.
  - by rewrite Hid.
  - rewrite Hid. apply redactVisitorInfo_twice.
Qed.

Lemma redaction_layer_witness :
  [alice; bob] !! 1%nat = Some bob
  ∧ length (redactVisitorsExcept [alice; bob] "v_a") = length [alice; bob]
  ∧ ∃ r', redactVisitorsExcept [alice; bob] "v_a" !! 1%nat = Some r'
          ∧ (id bob = "v_a" → r' = bob)
          ∧ (id bob ≠ "v_a" → r' = redactVisitorInfo bob ∧ redacted bob r').
Proof.
  split; [reflexivity|].
  apply (redaction_layer [alice; bob] "v_a" 1 bob). reflexivity.
Defined.

Example redact_bob :
  redactVisitorsExcept [alice; bob] "v_a"
  = [alice;
     {| id := "v_b";
        server :=
          {| ip := MASKED_IP;
             geo := Some {| lat := 45; lng := 8; city := MASK;
                            region := "Piedmont"; country := "Italy";
                            countryCode := "IT"; geo_timezone := "Europe/Rome";
                            isp := MASK; org := MASK; as_ := "AS12874" |};
             userAgent := "Mozilla/5.0"; acceptLanguage := "it-IT";
             referer := "Direct"; headers := ∅ |};
        client := None; connectedAt := 2000 |}].
Proof. reflexivity. Qed.

(** ** The shared directory *)

Lemma send_command_served (c : Command) (s : SharedVisitors) :
  rejections (redis s) = [] →
  send_command c s
  = (Returned tt, with_redis (fun r => next_rejection (execute c r)) s).
Proof. intros H. unfold send_command. rewrite H. reflexivity. Qed.

Lemma served_again (c : Command) (s : SharedVisitors) :
  rejections (redis s) = [] →
  rejections (redis (with_redis (fun r => next_rejection (execute c r)) s)) = [].
Proof. intros H. destruct c; simpl; rewrite H; reflexivity. Qed.

(** [publishVisitorJoined] on a connected store that serves its commands:
    the record is written under its id, the expiry of the directory is set
    to [VISITOR_TTL], and the event is published last. *)
Lemma publishVisitorJoined_served (INSTANCE_ID : string) (v : VisitorInfo)
    (s : SharedVisitors) :
  pubClient s = true → isConnected s = true → rejections (redis s) = [] →
  let s' := snd (publishVisitorJoined INSTANCE_ID v s) in
  visitors (redis s') = <[id v := v]> (visitors (redis s))
  ∧ expiry (redis s') = Some VISITOR_TTL
  ∧ channel (redis s')
    = channel (redis s)
      ++ [{| type := Joined; visitor := v; instanceId := INSTANCE_ID |}].
Proof.
  intros Hp Hc Hr.
  unfold publishVisitorJoined, mbind, M_bind, gets, try_catch; simpl.
  rewrite Hp, Hc; simpl.
  rewrite (send_command_served _ _ Hr).
  pose proof (served_again (HSet (id v) v) s Hr) as Hr1.
  rewrite (send_command_served _ _ Hr1).
  pose proof (served_again (Expire VISITOR_TTL) _ Hr1) as Hr2.
  rewrite (send_command_served _ _ Hr2). simpl.
  repeat split.
  destruct (decide (<[id v:=v]> (visitors (redis s)) = ∅)) as [He|]; [|reflexivity].
  exfalso. by apply (insert_non_empty (visitors (redis s)) (id v) v).
Qed.

(** [publishVisitorUpdated] under the same conditions: the record is
    written and the event published, but the expiry of the directory is
    the one it had. *)
Lemma publishVisitorUpdated_served (INSTANCE_ID : string) (v : VisitorInfo)
    (s : SharedVisitors) :
  pubClient s = true → isConnected s = true → rejections (redis s) = [] →
  let s' := snd (publishVisitorUpdated INSTANCE_ID v s) in
  visitors (redis s') = <[id v := v]> (visitors (redis s))
  ∧ expiry (redis s') = expiry (redis s)
  ∧ channel (redis s')
    = channel (redis s)
      ++ [{| type := Updated; visitor := v; instanceId := INSTANCE_ID |}].
Proof.
  intros Hp Hc Hr.
  unfold publishVisitorUpdated, mbind, M_bind, gets, try_catch; simpl.
  rewrite Hp, Hc; simpl.
  rewrite (send_command_served _ _ Hr).
  pose proof (served_again (HSet (id v) v) s Hr) as Hr1.
  rewrite (send_command_served _ _ Hr1). simpl.
  repeat split.
Qed.

(** C4.  On a connected store whose directory expires in ten seconds,
    [publishVisitorJoined] writes the record, renews the expiry to 300
    seconds and publishes; [publishVisitorUpdated] writes the record and
    publishes, and leaves the ten seconds as they are. *)
Theorem publishVisitorUpdated_keeps_old_expiry :
  let joined := snd (publishVisitorJoined sample_instance bob expiring_directory) in
  let updated := snd (publishVisitorUpdated sample_instance bob expiring_directory) in
  (visitors (redis joined) !! "v_b" = Some bob
   ∧ expiry (redis joined) = Some 300
   ∧ channel (redis joined)
     = [{| type := Joined; visitor := bob; instanceId := sample_instance |}])
  ∧ (visitors (redis updated) !! "v_b" = Some bob
     ∧ expiry (redis updated) = Some 10
     ∧ channel (redis updated)
       = [{| type := Updated; visitor := bob; instanceId := sample_instance |}]).
Proof.
  intros joined updated.
  destruct (publishVisitorJoined_served sample_instance bob expiring_directory
              eq_refl eq_refl eq_refl) as (Hv & He & Hc).
  destruct (publishVisitorUpdated_served sample_instance bob expiring_directory
              eq_refl eq_refl eq_refl) as (Hv' & He' & Hc').
  fold joined in Hv, He, Hc. fold updated in Hv', He', Hc'.
  rewrite Hv, He, Hc, Hv', He', Hc'. simpl.
  rewrite lookup_insert_eq. repeat split.
Qed.

(** ** The subscription *)

Lemma onChannelMessage_returns {St} (INSTANCE_ID : string)
    (cbs : list (@EventCallback St)) (message : ChannelMessage) (s : St) :
  fst (onChannelMessage INSTANCE_ID cbs message s) = Returned tt.
Proof.
  unfold onChannelMessage, try_catch, mbind, M_bind, await.
  destruct message as [raw|event]; simpl; [reflexivity|].
  destruct (String.eqb (instanceId event) INSTANCE_ID); simpl; [reflexivity|].
  destruct (forEach cbs event s) as [[[]|e] s']; reflexivity.
Qed.

Lemma onChannelMessage_own {St} (INSTANCE_ID : string)
    (cbs : list (@EventCallback St)) (event : VisitorEvent) (s : St) :
  instanceId event = INSTANCE_ID →
  onChannelMessage INSTANCE_ID cbs (Encoded event) s = (Returned tt, s).
Proof.
  intros Heq. unfold onChannelMessage, try_catch, mbind, M_bind, await; simpl.
  apply String.eqb_eq in Heq. rewrite Heq. reflexivity.
Qed.

Lemma onChannelMessage_foreign {St} (INSTANCE_ID : string)
    (cbs : list (@EventCallback St)) (event : VisitorEvent) (s : St) :
  instanceId event ≠ INSTANCE_ID →
  snd (onChannelMessage INSTANCE_ID cbs (Encoded event) s)
  = snd (forEach cbs event s).
Proof.
  intros Hne. unfold onChannelMessage, try_catch, mbind, M_bind, await; simpl.
  apply String.eqb_neq in Hne. rewrite Hne. simpl.
  destruct (forEach cbs event s) as [[[]|e] s']; reflexivity.
Qed.

Section Subscription.
Context {St : Type}.
Implicit Types (cbs : list (@EventCallback St)) (event : VisitorEvent).

(** Observation changes nothing but the log, and the log is an initial
    segment of the positions. *)
Lemma forEach_observe_from cbs event (i : nat) (s : St) (log : list nat) :
  ∃ k : nat,
    forEach (observe_from i cbs) event (s, log)
    = (fst (forEach cbs event s), (snd (forEach cbs event s), log ++ seq i k))
    ∧ (k ≤ length cbs)%nat
    ∧ (cbs ≠ [] → (0 < k)%nat)
    ∧ ((∀ cb, cb ∈ cbs → returns event cb) → k = length cbs).
Proof.
  revert i s log. induction cbs as [|cb rest IH]; intros i s log.
  - exists 0%nat. simpl. rewrite app_nil_r. repeat split; [lia | congruence].
  - simpl. unfold mbind, M_bind, observed. simpl.
    destruct (cb event s) as [o s1] eqn:Hcb. destruct o as [[]|e].
    + destruct (IH (S i) s1 (log ++ [i])) as (k & Hrun & Hle & _ & Hall).
      exists (S k). rewrite Hrun. simpl. rewrite <- app_assoc. simpl.
      repeat split; [lia | lia |].
      intros Hret. f_equal. apply Hall. intros cb' Hin. apply Hret. by right.
    + exists 1%nat. simpl. repeat split; [lia | lia |].
      intros Hret. specialize (Hret cb (list_elem_of_here _ _) s).
      rewrite Hcb in Hret. discriminate.
Qed.

(** Observing the callbacks does not change what the listener does to
    the state. *)
Lemma observation_is_faithful (INSTANCE_ID : string) cbs
    (message : ChannelMessage) (s : St) :
  fst (snd (onChannelMessage INSTANCE_ID (observe_from 0 cbs) message (s, [])))
  = snd (onChannelMessage INSTANCE_ID cbs message s).
Proof.
  destruct message as [raw|event]; [reflexivity|].
  destruct (decide (instanceId event = INSTANCE_ID)) as [Heq|Hne].
  - by rewrite !onChannelMessage_own.
  - rewrite !onChannelMessage_foreign by done.
    destruct (forEach_observe_from cbs event 0 s []) as (k & -> & _). done.
Qed.

Lemma invoked_own (INSTANCE_ID : string) cbs event (s : St) :
  instanceId event = INSTANCE_ID →
  invoked INSTANCE_ID cbs (Encoded event) s = [].
Proof.
  intros Heq. unfold invoked. by rewrite onChannelMessage_own.
Qed.

Lemma invoked_foreign (INSTANCE_ID : string) cbs event (s : St) :
  instanceId event ≠ INSTANCE_ID →
  ∃ k : nat,
    invoked INSTANCE_ID cbs (Encoded event) s = seq 0 k
    ∧ (k ≤ length cbs)%nat
    ∧ (cbs ≠ [] → (0 < k)%nat)
    ∧ ((∀ cb, cb ∈ cbs → returns event cb) → k = length cbs).
Proof.
  intros Hne. unfold invoked. rewrite onChannelMessage_foreign by done.
  destruct (forEach_observe_from cbs event 0 s []) as (k & Hrun & Hk).
  exists k. rewrite Hrun. simpl. by split.
Qed.

(** C8.  For every event received on the channel: the listener returns;
    when the event's origin is this instance, no callback is entered and
    the state is untouched; when it is another instance, the callbacks are
    entered in order from the first one, all of them unless one throws;
    so, with a callback registered, callbacks are entered exactly when the
    origin differs from this instance. *)
Theorem self_suppression (INSTANCE_ID : string) cbs event (s : St) :
  fst (onChannelMessage INSTANCE_ID cbs (Encoded event) s) = Returned tt
  ∧ (instanceId event = INSTANCE_ID →
       invoked INSTANCE_ID cbs (Encoded event) s = []
       ∧ snd (onChannelMessage INSTANCE_ID cbs (Encoded event) s) = s)
  ∧ (instanceId event ≠ INSTANCE_ID →
       snd (onChannelMessage INSTANCE_ID cbs (Encoded event) s)
       = snd (forEach cbs event s)
       ∧ ∃ k : nat,
           invoked INSTANCE_ID cbs (Encoded event) s = seq 0 k
           ∧ (k ≤ length cbs)%nat
           ∧ (cbs ≠ [] → (0 < k)%nat)
           ∧ ((∀ cb, cb ∈ cbs → returns event cb) → k = length cbs))
  ∧ (cbs ≠ [] →
       (invoked INSTANCE_ID cbs (Encoded event) s ≠ []
        ↔ instanceId event ≠ INSTANCE_ID)).
Proof.
  split; [apply onChannelMessage_returns|].
  split.
  { intros Heq. split; [by apply invoked_own|].
    by rewrite onChannelMessage_own. }
  split.
  { intros Hne. split; [by apply onChannelMessage_foreign|].
    by apply invoked_foreign. }
  intros Hcbs. split.
  - intros Hinv Heq. apply Hinv. by apply invoked_own.
  - intros Hne. destruct (invoked_foreign INSTANCE_ID cbs event s Hne)
      as (k & -> & _ & Hpos & _).
    specialize (Hpos Hcbs). destruct k; [lia | discriminate].
Qed.
End Subscription.

(** The callback that [index.ts] registers, observed: a [joined] event
    from another instance enters it, the same event from this instance
    does not. *)
Example self_suppression_on_controller :
  invoked sample_instance [onRemoteEvent]
    (Encoded {| type := Joined; visitor := bob;
                instanceId := "instance_3021_xyz" |}) alice_online = [0%nat]
  ∧ invoked sample_instance [onRemoteEvent]
      (Encoded {| type := Joined; visitor := bob;
                  instanceId := sample_instance |}) alice_online = []
  ∧ invoked sample_instance [onRemoteEvent] (Malformed "{") alice_online = [].
Proof. repeat split; vm_compute; reflexivity. Qed.

(** ** The registries *)

Ltac run_handler :=
  unfold open, message, close, onRemoteEvent, onChannelMessage, unawaited,
    in_shared,
    broadcast, try_catch, modify, gets, await, mbind, M_bind, mret, M_ret;
  simpl.

Lemma open_registries (INSTANCE_ID : string) (ws : WebSocket) (newId : string)
    (serverInfo : ServerInfo) (now : Z) (s : Server) :
  let v := {| id := newId; server := serverInfo; client := None;
              connectedAt := now |} in
  let s' := snd (open INSTANCE_ID ws newId serverInfo now s) in
  localVisitors s' = <[newId := v]> (localVisitors s)
  ∧ allVisitors s' = <[newId := v]> (allVisitors s)
  ∧ connections s'
    = <[newId := {| visitorId := Some newId; readyState := readyState ws |}]>
        (connections s).
Proof.
  run_handler. repeat case_match; simplify_eq/=; done.
Qed.

Lemma close_registries (INSTANCE_ID : string) (ws : WebSocket) (s : Server) :
  let s' := snd (close INSTANCE_ID ws s) in
  (truthy (visitorId ws) = false ∧ s' = s)
  ∨ (truthy (visitorId ws) = true
     ∧ localVisitors s' = delete (default "" (visitorId ws)) (localVisitors s)
     ∧ allVisitors s' = delete (default "" (visitorId ws)) (allVisitors s)
     ∧ connections s' = delete (default "" (visitorId ws)) (connections s)).
Proof.
  run_handler. destruct (truthy (visitorId ws)); [right|left; done].
  repeat case_match; simplify_eq/=; done.
Qed.

(** A [client_info] message either leaves the registries alone or stores
    one record under the id of a local visitor, the same in both maps. *)
Lemma message_registries (INSTANCE_ID : string) (ws : WebSocket)
    (m : ClientMessage) (s : Server) :
  let s' := snd (message INSTANCE_ID ws m s) in
  connections s' = connections s
  ∧ ((localVisitors s' = localVisitors s ∧ allVisitors s' = allVisitors s)
     ∨ ∃ vid v, is_Some (localVisitors s !! vid)
                ∧ localVisitors s' = <[vid := v]> (localVisitors s)
                ∧ allVisitors s' = <[vid := v]> (allVisitors s)).
Proof.
  run_handler. destruct m as [raw|t|[payload|]]; simpl.
  - split; [done | by left].
  - split; [done | by left].
  - destruct (visitorId ws) as [vid|]; simpl; [|split; [done | by left]].
    destruct (localVisitors s !! vid) as [v|] eqn:Hv; simpl;
      [|split; [done | by left]].
    repeat case_match; simplify_eq/=;
      (split; [done | right; eexists _, _; by eauto]).
  - destruct (visitorId ws) as [vid|]; simpl; [|split; [done | by left]].
    destruct (localVisitors s !! vid) as [v|] eqn:Hv; simpl;
      split; done || by left.
Qed.

Lemma onRemoteEvent_registries (event : VisitorEvent) (s : Server) :
  let s' := snd (onRemoteEvent event s) in
  fst (onRemoteEvent event s) = Returned tt
  ∧ localVisitors s' = localVisitors s
  ∧ connections s' = connections s
  ∧ allVisitors s'
    = match type event with
      | Left => delete (id (visitor event)) (allVisitors s)
      | _ => <[id (visitor event) := visitor event]> (allVisitors s)
      end.
Proof. run_handler. destruct (type event); done. Qed.

Lemma onRemoteEvent_returns (event : VisitorEvent) : returns event onRemoteEvent.
Proof. intros s. apply onRemoteEvent_registries. Qed.

Lemma channel_registries (INSTANCE_ID : string) (m : ChannelMessage) (s : Server) :
  let s' := snd (onChannelMessage INSTANCE_ID [onRemoteEvent] m s) in
  localVisitors s' = localVisitors s
  ∧ connections s' = connections s
  ∧ (allVisitors s' = allVisitors s
     ∨ ∃ event, m = Encoded event
         ∧ allVisitors s'
           = match type event with
             | Left => delete (id (visitor event)) (allVisitors s)
             | _ => <[id (visitor event) := visitor event]> (allVisitors s)
             end).
Proof.
  destruct m as [raw|event]; [by (repeat split; try left)|].
  destruct (decide (instanceId event = INSTANCE_ID)) as [Heq|Hne].
  - rewrite onChannelMessage_own by done. by (repeat split; try left).
  - simpl. rewrite onChannelMessage_foreign by done.
    destruct (onRemoteEvent_registries event s) as (Hret & Hl & Hc & Ha).
    simpl. unfold mbind, M_bind.
    destruct (onRemoteEvent event s) as [o s1]. simpl in *. subst o.
    simpl. repeat split; [done | done |]. right. by exists event.
Qed.

Lemma handle_keeps_registries (INSTANCE_ID : string) (a : Action) (s : Server) :
  registries_consistent s →
  carries_no_local_id a s →
  registries_consistent (snd (handle INSTANCE_ID a s)).
Proof.
  unfold registries_consistent. intros [Hcl Hla] Hforeign.
  destruct a as [ws newId serverInfo now | ws m | ws | m]; simpl handle;
    change (onVisitorEvent onRemoteEvent []) with [onRemoteEvent].
  - destruct (open_registries INSTANCE_ID ws newId serverInfo now s)
      as (-> & -> & ->).
    rewrite !dom_insert_L. set_solver.
  - destruct (message_registries INSTANCE_ID ws m s)
      as (-> & [[-> ->] | (vid & v & Hin & -> & ->)]); [done|].
    apply elem_of_dom in Hin. rewrite !dom_insert_L. set_solver.
  - destruct (close_registries INSTANCE_ID ws s)
      as [[_ ->] | (_ & -> & -> & ->)]; [done|].
    rewrite !dom_delete_L. set_solver.
  - destruct (channel_registries INSTANCE_ID m s)
      as (-> & -> & [-> | (event & -> & ->)]); [done|].
    simpl in Hforeign. split; [done|].
    destruct (type event); rewrite ?dom_insert_L, ?dom_delete_L; set_solver.
Qed.

(** C10.  Every handler keeps the registries consistent: if the keys of
    [connections] are those of [localVisitors] and are among those of
    [allVisitors] before [open], [message], [close] or the callback for a
    remote event runs, they are so afterwards, as long as a remote event
    does not carry the id of a local visitor. *)
Theorem registry_consistency (INSTANCE_ID : string) (a : Action) (s : Server) :
  registries_consistent s →
  carries_no_local_id a s →
  registries_consistent (snd (handle INSTANCE_ID a s)).
Proof. apply handle_keeps_registries. Qed.

(** From the start of the process the registries are consistent after
    every run of handlers in which no remote event carries a local id. *)
Corollary registry_consistency_run (INSTANCE_ID : string) (actions : list Action)
    (s : Server) :
  registries_consistent s →
  no_local_id_throughout INSTANCE_ID actions s →
  registries_consistent (run INSTANCE_ID actions s).
Proof.
  revert s. induction actions as [|a rest IH]; intros s Hs Hall; [done|].
  destruct Hall as [Ha Hrest]. simpl. apply IH; [|done].
  by apply handle_keeps_registries.
Qed.

Lemma initial_consistent (sh : SharedVisitors) : registries_consistent (initial sh).
Proof. unfold registries_consistent, initial; simpl. set_solver. Qed.

Lemma registry_consistency_witness :
  registries_consistent alice_online
  ∧ carries_no_local_id
      (ChannelReceive (Encoded {| type := Left; visitor := bob;
                                  instanceId := "instance_3021_xyz" |}))
      alice_online
  ∧ registries_consistent
      (snd (handle sample_instance
              (ChannelReceive (Encoded {| type := Left; visitor := bob;
                                          instanceId := "instance_3021_xyz" |}))
              alice_online)).
Proof.
  assert (H1 : registries_consistent alice_online).
  { split; [vm_compute; reflexivity | intros x Hx; exact Hx]. }
  assert (H2 : carries_no_local_id
                 (ChannelReceive (Encoded {| type := Left; visitor := bob;
                                             instanceId := "instance_3021_xyz" |}))
                 alice_online).
  { simpl. apply not_elem_of_dom. vm_compute. reflexivity. }
  split; [exact H1|]. split; [exact H2|].
  apply (registry_consistency sample_instance
           (ChannelReceive (Encoded {| type := Left; visitor := bob;
                                       instanceId := "instance_3021_xyz" |}))
           alice_online H1 H2).
Defined.

(** The condition on remote events is needed: a [left] event from another
    instance that carries the id of a local visitor takes the visitor out
    of [allVisitors] only. *)
Example remote_left_with_local_id :
  let s' := snd (handle sample_instance
                   (ChannelReceive
                      (Encoded {| type := Left; visitor := alice;
                                  instanceId := "instance_3021_xyz" |}))
                   alice_online) in
  registries_consistent alice_online ∧ ¬ registries_consistent s'.
Proof.
  intros s'. split.
  - unfold registries_consistent, alice_online; simpl.
    rewrite !dom_singleton_L. set_solver.
  - intros [_ Hsub]. specialize (Hsub "v_a").
    assert (Hlocal : localVisitors s' !! "v_a" = Some alice)
      by (vm_compute; reflexivity).
    assert (Hall : allVisitors s' !! "v_a" = None)
      by (vm_compute; reflexivity).
    destruct (proj1 (elem_of_dom _ _) (Hsub (proj2 (elem_of_dom _ _)
                                               (mk_is_Some _ _ Hlocal))))
      as [v Hv].
    congruence.
Qed.

(** The scenario of the specification, on an instance without the shared
    store: [alice] sees [bob] join, change and leave, each time with the
    address masked and the coordinates rounded; in the end only [alice]
    is registered. *)
Example end_to_end :
  let s := run sample_instance scenario (initial local_only) in
  let masked_bob := redactVisitorInfo bob in
  sent_to_alice s
  = [visitor_joined masked_bob;
     visitor_updated (setClient masked_bob (Some without_profile));
     visitor_left (setClient masked_bob (Some without_profile))]
  ∧ ip (server masked_bob) = MASKED_IP
  ∧ (lat <$> geo (server masked_bob)) = Some 45%Q
  ∧ localVisitors s = {[ "v_a" := alice ]}
  ∧ allVisitors s !! "v_b" = None.
Proof. repeat split; vm_compute; reflexivity. Qed.

(** ** Closing a connection *)

Lemma recipients_NoDup (excludeId : option string)
    (conns : gmap string WebSocket) :
  NoDup (recipients excludeId conns).
Proof.
  unfold recipients.
  eapply sublist_NoDup; [apply (NoDup_fst_map_to_list conns)|].
  apply fmap_sublist, sublist_filter.
Qed.

Lemma notices_absent (to vid : string) (msg : WSMessage) (l : list string) :
  to ∉ l →
  List.filter (is_left_notice to vid) (map (fun r => Send r msg) l) = [].
Proof.
  induction l as [|r l IH]; intros Hnot; [done|].
  apply not_elem_of_cons in Hnot as [Hne Hnot].
  cbn [map List.filter]. rewrite (IH Hnot).
  destruct msg; simpl; try done.
  destruct (String.eqb_spec r to); [congruence | done].
Qed.

Lemma notices_at_most_one (to vid : string) (msg : WSMessage) (l : list string) :
  NoDup l →
  (length (List.filter (is_left_notice to vid) (map (fun r => Send r msg) l)) ≤ 1)%nat.
Proof.
  induction 1 as [|r l Hnot Hdup IH]; [simpl; lia|].
  cbn [map List.filter].
  destruct (is_left_notice to vid (Send r msg)) eqn:Hr; [|exact IH].
  assert (r = to) as ->.
  { destruct msg; simpl in Hr; try done.
    apply andb_true_iff in Hr as [Hr _]. by apply String.eqb_eq in Hr. }
  rewrite notices_absent by done. simpl; lia.
Qed.

(** Once [localVisitors] has given up the object under a key, no call
    holds an object under that key, and giving it up again changes
    nothing. *)
Lemma released_frees (key : string) (calls : list Call) :
  Forall (fun c => held_as c ≠ Some key) (map (released key) calls).
Proof.
  apply Forall_forall. intros c Hc.
  apply list_elem_of_fmap in Hc as (c0 & -> & _).
  unfold released. case_decide; simpl; done.
Qed.

Lemma released_free (key : string) (calls : list Call) :
  Forall (fun c => held_as c ≠ Some key) calls →
  map (released key) calls = calls.
Proof.
  induction 1 as [|c calls Hc _ IH]; [done|].
  simpl. rewrite IH. unfold released. by rewrite decide_False.
Qed.

(** A socket whose visitor is in none of the maps, and whose object no
    call holds, closes without a trace. *)
Lemma close_unregistered (INSTANCE_ID : string) (ws : WebSocket) (s : Server) :
  localVisitors s !! default "" (visitorId ws) = None →
  allVisitors s !! default "" (visitorId ws) = None →
  connections s !! default "" (visitorId ws) = None →
  Forall (fun c => held_as c ≠ Some (default "" (visitorId ws))) (pending s) →
  close INSTANCE_ID ws s = (Returned tt, s).
Proof.
  intros Hl Ha Hc Hfree. run_handler.
  destruct (truthy (visitorId ws)); [|done].
  unfold on_connections, on_allVisitors, on_localVisitors, on_pending; simpl.
  rewrite Hl, !delete_id, released_free by done. by destruct s.
Qed.

Lemma close_returns (INSTANCE_ID : string) (ws : WebSocket) (s : Server) :
  fst (close INSTANCE_ID ws s) = Returned tt.
Proof. run_handler. repeat case_match; simplify_eq/=; done. Qed.

(** What [close] does to the store and to the calls that wait: it
    publishes nothing itself; when it finds the visitor and the store is
    connected and serves the [hDel], one call of [publishVisitorLeft] is
    left waiting with its event to publish. *)
Lemma close_calls (INSTANCE_ID : string) (ws : WebSocket) (s : Server) :
  let vid := default "" (visitorId ws) in
  let s' := snd (close INSTANCE_ID ws s) in
  channel (redis (shared s')) = channel (redis (shared s))
  ∧ ((truthy (visitorId ws) = false ∧ pending s' = pending s)
     ∨ (truthy (visitorId ws) = true
        ∧ ∃ new, pending s' = map (released vid) (pending s) ++ new
                 ∧ (new = []
                    ∨ ∃ v, new = [{| todo := [IssuePublish Left]; about := v;
                                     held_as := None |}]))).
Proof.
  run_handler. destruct (truthy (visitorId ws)); [|by split; [|left]].
  destruct (localVisitors s !! default "" (visitorId ws)) as [v|]; simpl;
    [|split; [done|]; right; split; [done|]; exists [];
      rewrite app_nil_r; by split; [|left]].
  destruct (pubClient (shared s) && isConnected (shared s)); simpl;
    [|split; [done|]; right; split; [done|]; exists [];
      rewrite app_nil_r; by split; [|left]].
  unfold send_command.
  destruct (rejections (redis (shared s))) as [|[] rest]; simpl;
    (split; [done|]); right; (split; [done|]);
    first [ by eexists; split; [|right; eexists]
          | exists []; rewrite app_nil_r; by split; [|left] ].
Qed.

Lemma left_steps_released (vid key : string) (calls : list Call) :
  sum_list_with (left_steps vid) (map (released key) calls)
  = sum_list_with (left_steps vid) calls.
Proof.
  induction calls as [|c calls IH]; [done|].
  simpl. rewrite IH. f_equal. unfold released, left_steps.
  by case_decide.
Qed.

(** What one run of [close] adds to the channel, to the events that wait
    to be published, and to the messages sent. *)
Lemma close_publishes_once (INSTANCE_ID : string) (ws : WebSocket) (s : Server)
    (to vid : string) :
  let s' := snd (close INSTANCE_ID ws s) in
  (left_published vid s' ≤ left_published vid s + 1)%nat
  ∧ (left_published vid s' + left_to_publish vid s'
     ≤ left_published vid s + left_to_publish vid s + 1)%nat
  ∧ (left_sent to vid s' ≤ left_sent to vid s + 1)%nat.
Proof.
  intros s'.
  destruct (close_calls INSTANCE_ID ws s) as [Hchannel Hcalls].
  fold s' in Hchannel, Hcalls.
  assert (Hpublished : left_published vid s' = left_published vid s).
  { unfold left_published. by rewrite Hchannel. }
  assert (Hwaiting : (left_to_publish vid s' ≤ left_to_publish vid s + 1)%nat).
  { unfold left_to_publish.
    destruct Hcalls as [[_ ->] | (_ & new & -> & [-> | [v ->]])];
      rewrite ?sum_list_with_app, ?left_steps_released; simpl; [lia | lia |].
    unfold left_steps; simpl. destruct (String.eqb (id v) vid); simpl; lia. }
  split; [lia|]. split; [lia|].
  subst s'. unfold left_sent. run_handler.
  destruct (truthy (visitorId ws)); [|simpl; lia].
  destruct (localVisitors s !! default "" (visitorId ws)) as [v|]; [|simpl; lia].
  simpl.
  pose proof (notices_at_most_one to vid
                (visitor_left (redactVisitorInfo v)) _
                (recipients_NoDup None
                   (delete (default "" (visitorId ws)) (connections s))))
    as Hsent.
  repeat case_match; simplify_eq/=;
    rewrite !List.filter_app, !length_app; lia.
Qed.

(** What a reply does: nothing when no call waits at that place; the
    end of the call when it has no step left; otherwise one command, the
    next of the call, from the object as it is now, after which the call
    waits again, or is gone when the command was rejected. *)
Lemma resume_cases (INSTANCE_ID : string) (n : nat) (s : Server) :
  let s' := snd (resume INSTANCE_ID n s) in
  fst (resume INSTANCE_ID n s) = Returned tt
  ∧ localVisitors s' = localVisitors s
  ∧ allVisitors s' = allVisitors s
  ∧ connections s' = connections s
  ∧ effects s' = effects s
  ∧ match pending s !! n with
    | None => shared s' = shared s ∧ pending s' = pending s
    | Some c =>
        match todo c with
        | [] => shared s' = shared s ∧ pending s' = delete n (pending s)
        | step :: rest =>
            match rejections (redis (shared s)) with
            | true :: _ =>
                shared s' = with_redis next_rejection (shared s)
                ∧ pending s' = delete n (pending s)
            | _ =>
                shared s'
                = with_redis
                    (fun r => next_rejection
                                (execute (command_of INSTANCE_ID step (about c)) r))
                    (shared s)
                ∧ pending s'
                  = <[n := {| todo := rest; about := about c;
                              held_as := held_as c |}]> (pending s)
            end
        end
    end.
Proof.
  unfold resume, in_shared, send_command, try_catch, modify, gets, mbind,
    M_bind, mret, M_ret. simpl.
  destruct (pending s !! n) as [c|]; simpl; [|done].
  destruct (todo c) as [|step rest]; simpl; [done|].
  destruct (rejections (redis (shared s))) as [|[] script]; simpl; done.
Qed.

(** A reply publishes what was waiting to be published, and nothing
    else: the [left] events about a visitor that are on the channel or
    wait to be published do not become more. *)
Lemma reply_publishes_what_waits (INSTANCE_ID : string) (n : nat) (s : Server)
    (vid : string) :
  let s' := snd (resume INSTANCE_ID n s) in
  (left_published vid s' + left_to_publish vid s'
   ≤ left_published vid s + left_to_publish vid s)%nat.
Proof.
  intros s'.
  destruct (resume_cases INSTANCE_ID n s) as (_ & _ & _ & _ & _ & Hcases).
  fold s' in Hcases. unfold left_published, left_to_publish.
  destruct (pending s !! n) as [c|] eqn:Hc.
  2:{ destruct Hcases as [-> ->]. lia. }
  pose proof (lookup_lt_Some _ _ _ Hc) as Hlt.
  assert (Hsplit : sum_list_with (left_steps vid) (pending s)
                   = (sum_list_with (left_steps vid) (take n (pending s))
                      + (left_steps vid c
                         + sum_list_with (left_steps vid)
                             (drop (S n) (pending s))))%nat).
  { rewrite <- (take_drop_middle _ _ _ Hc) at 1.
    by rewrite sum_list_with_app. }
  rewrite Hsplit.
  destruct (todo c) as [|step rest] eqn:Htodo.
  { destruct Hcases as [-> ->].
    rewrite delete_take_drop, sum_list_with_app. lia. }
  assert (Hstep : left_steps vid c
                  = ((if String.eqb (id (about c)) vid
                      then if is_left_step step then 1 else 0 else 0)
                     + left_steps vid {| todo := rest; about := about c;
                                         held_as := held_as c |})%nat).
  { unfold left_steps. rewrite Htodo. simpl.
    destruct (String.eqb (id (about c)) vid); [|done].
    destruct (is_left_step step); simpl; lia. }
  destruct (rejections (redis (shared s))) as [|[] script];
    destruct Hcases as [-> ->];
    rewrite ?delete_take_drop, ?insert_take_drop, ?sum_list_with_app by done;
    simpl; try lia; rewrite Hstep;
    destruct step as [| | |[]]; simpl;
    rewrite ?List.filter_app, ?length_app; simpl;
    unfold is_left_event; simpl;
    destruct (String.eqb (id (about c)) vid); simpl; lia.
Qed.

Lemma replies_publish_what_waits (INSTANCE_ID : string) (replies : list nat)
    (s : Server) (vid : string) :
  (left_published vid (run_turns INSTANCE_ID (map StoreReply replies) s)
   ≤ left_published vid s + left_to_publish vid s)%nat.
Proof.
  revert s. induction replies as [|n replies IH]; intros s; [simpl; lia|].
  simpl. etrans; [apply IH|]. apply reply_publishes_what_waits.
Qed.

(** C7.  Closing twice: both runs return; the second run changes nothing
    at all, so the registries are as the first run left them and nothing
    more is published or sent; and over the two runs at most one [left]
    event about any visitor reaches the channel and any local peer.  The
    handler does not await [publishVisitorLeft]: the event reaches the
    channel when the reply to the [hDel] arrives, so the count is also
    taken after any replies that follow the two runs. *)
Theorem close_idempotent (INSTANCE_ID : string) (ws : WebSocket) (s : Server) :
  let once := snd (close INSTANCE_ID ws s) in
  let twice := snd (close INSTANCE_ID ws once) in
  fst (close INSTANCE_ID ws s) = Returned tt
  ∧ fst (close INSTANCE_ID ws once) = Returned tt
  ∧ twice = once
  ∧ (localVisitors twice = localVisitors once
     ∧ allVisitors twice = allVisitors once
     ∧ connections twice = connections once)
  ∧ (∀ to vid,
      (left_published vid twice ≤ left_published vid s + 1)%nat
      ∧ (left_sent to vid twice ≤ left_sent to vid s + 1)%nat)
  ∧ ∀ replies vid,
      (left_published vid
         (run_turns INSTANCE_ID (map StoreReply replies) twice)
       ≤ left_published vid s + left_to_publish vid s + 1)%nat.
Proof.
  intros once twice.
  assert (Htwice : twice = once).
  { subst once twice.
    destruct (close_registries INSTANCE_ID ws s)
      as [[Hf Hs] | (Ht & Hl & Ha & Hc)].
    - rewrite Hs. exact Hs.
    - rewrite close_unregistered; [done | | | |].
      + rewrite Hl. apply lookup_delete_eq.
      + rewrite Ha. apply lookup_delete_eq.
      + rewrite Hc. apply lookup_delete_eq.
      + destruct (close_calls INSTANCE_ID ws s)
          as [_ [[Hf _] | (_ & new & -> & Hnew)]]; [congruence|].
        apply Forall_app. split; [apply released_frees|].
        destruct Hnew as [-> | [v ->]]; [done|].
        by apply Forall_singleton. }
  split; [apply close_returns|]. split; [apply close_returns|].
  split; [done|]. rewrite Htwice. split; [done|].
  split.
  - intros to vid.
    destruct (close_publishes_once INSTANCE_ID ws s to vid) as (H1 & _ & H3).
    done.
  - intros replies vid.
    destruct (close_publishes_once INSTANCE_ID ws s "" vid) as (_ & H2 & _).
    pose proof (replies_publish_what_waits INSTANCE_ID replies once vid).
    fold once in H2. lia.
Qed.

(** On a connected store the first run issues the [hDel] and leaves the
    event waiting; the second run adds nothing; the reply to the [hDel]
    puts the one event on the channel. *)
Example double_close_publishes_once :
  let closed := run sample_instance
                  [SocketClose alice_socket; SocketClose alice_socket]
                  alice_shared in
  let settled := run_turns sample_instance double_close alice_shared in
  channel (redis (shared closed)) = []
  ∧ pending closed
    = [{| todo := [IssuePublish Left]; about := alice; held_as := None |}]
  ∧ channel (redis (shared settled)) = [event_of sample_instance Left alice]
  ∧ pending settled = [].
Proof. repeat split; vm_compute; reflexivity. Qed.

(** ** Device facts *)

(** One [client_info] message with its payload, on the socket of a local
    visitor: the record is stored with the payload as its [client]. *)
Lemma message_client_info (INSTANCE_ID : string) (ws : WebSocket) (vid : string)
    (v : VisitorInfo) (c : ClientInfo) (s : Server) :
  visitorId ws = Some vid →
  localVisitors s !! vid = Some v →
  let s' := snd (message INSTANCE_ID ws
                   (client_info (Some {| clientInfo := Some c |})) s) in
  localVisitors s' = <[vid := setClient v (Some c)]> (localVisitors s)
  ∧ allVisitors s' = <[vid := setClient v (Some c)]> (allVisitors s)
  ∧ connections s' = connections s.
Proof.
  intros Hws Hv. run_handler. rewrite Hws; simpl. rewrite Hv; simpl.
  repeat case_match; simplify_eq/=; done.
Qed.

(** C3.  What a [client_info] message does to the record of its visitor:
    after any sequence of such messages the record has the device facts
    of the last payload as its [client], in both maps, and the [id],
    [server] and [connectedAt] it had before. *)
Theorem client_info_replaces_client (INSTANCE_ID : string) (ws : WebSocket)
    (vid : string) (v : VisitorInfo) (payloads : list ClientInfo)
    (c : ClientInfo) (s : Server) :
  visitorId ws = Some vid →
  localVisitors s !! vid = Some v →
  let s' := run INSTANCE_ID (client_info_messages ws (payloads ++ [c])) s in
  ∃ v', localVisitors s' !! vid = Some v'
        ∧ allVisitors s' !! vid = Some v'
        ∧ client v' = Some c
        ∧ id v' = id v ∧ server v' = server v ∧ connectedAt v' = connectedAt v.
Proof.
  intros Hws. revert v s.
  induction payloads as [|p rest IH]; intros v s Hv; simpl.
  - destruct (message_client_info INSTANCE_ID ws vid v c s Hws Hv)
      as (Hl & Ha & _).
    exists (setClient v (Some c)). rewrite Hl, Ha, !lookup_insert_eq. done.
  - destruct (message_client_info INSTANCE_ID ws vid v p s Hws Hv)
      as (Hl & _ & _).
    destruct (IH (setClient v (Some p))
                (snd (message INSTANCE_ID ws
                        (client_info (Some {| clientInfo := Some p |})) s)))
      as (v' & H1 & H2 & H3 & H4 & H5 & H6).
    { rewrite Hl. apply lookup_insert_eq. }
    exists v'. done.
Qed.

Lemma client_info_replaces_client_witness :
  visitorId alice_socket = Some "v_a"
  ∧ localVisitors alice_online !! "v_a" = Some alice
  ∧ ∃ v', localVisitors
            (run sample_instance
               (client_info_messages alice_socket ([with_profile] ++ [without_profile]))
               alice_online) !! "v_a" = Some v'
          ∧ allVisitors
              (run sample_instance
                 (client_info_messages alice_socket ([with_profile] ++ [without_profile]))
                 alice_online) !! "v_a" = Some v'
          ∧ client v' = Some without_profile
          ∧ id v' = id alice ∧ server v' = server alice
          ∧ connectedAt v' = connectedAt alice.
Proof.
  split; [reflexivity|]. split; [vm_compute; reflexivity|].
  apply (client_info_replaces_client sample_instance alice_socket "v_a" alice
           [with_profile] without_profile alice_online).
  - reflexivity.
  - vm_compute; reflexivity.
Defined.

(** C3, as stated, fails: [alice] reports device facts with a profile,
    then device facts without one; the profile known after the first
    message is gone after the second. *)
Lemma client_info_forgets_profile :
  let s1 := run sample_instance
              (client_info_messages alice_socket [with_profile]) alice_online in
  let s2 := run sample_instance
              (client_info_messages alice_socket [without_profile]) s1 in
  ∃ v1 v2, localVisitors s1 !! "v_a" = Some v1
           ∧ localVisitors s2 !! "v_a" = Some v2
           ∧ ¬ keeps_known_fields (client v1) (client v2).
Proof.
  intros s1 s2.
  destruct (message_client_info sample_instance alice_socket "v_a" alice
              with_profile alice_online eq_refl (lookup_singleton_eq _ _))
    as (Hl1 & _ & _).
  assert (H1 : localVisitors s1 !! "v_a" = Some (setClient alice (Some with_profile))).
  { subst s1. simpl. rewrite Hl1. apply lookup_insert_eq. }
  destruct (message_client_info sample_instance alice_socket "v_a"
              (setClient alice (Some with_profile)) without_profile s1 eq_refl H1)
    as (Hl2 & _ & _).
  exists (setClient alice (Some with_profile)),
         (setClient (setClient alice (Some with_profile)) (Some without_profile)).
  split; [exact H1|]. split.
  { subst s2. simpl. rewrite Hl2. apply lookup_insert_eq. }
  intros Hkeeps. destruct (Hkeeps with_profile eq_refl)
    as (c' & Hc' & _ & _ & _ & Hprofile & _).
  simpl in Hc'. injection Hc' as <-.
  destruct Hprofile as [p Hp]; [by eexists|]. discriminate.
Qed.

(** ** The limiter *)

Lemma checkRateLimit_new_window (now : Z) (userId : string) (s : Profiler) :
  no_open_window now userId s →
  checkRateLimit now userId s
  = (Returned true,
     on_userRateLimits
       (insert userId {| count := 1; resetTime := now + RATE_LIMIT_WINDOW |}) s).
Proof.
  unfold no_open_window, checkRateLimit, gets, modify, mbind, M_bind, mret, M_ret.
  destruct (userRateLimits s !! userId) as [l|]; [|done].
  intros Hnow. by rewrite decide_True.
Qed.

Lemma checkRateLimit_counts (now : Z) (userId : string) (s : Profiler)
    (l : RateLimit) :
  open_window now userId s l →
  count l < RATE_LIMIT_MAX →
  checkRateLimit now userId s
  = (Returned true,
     on_userRateLimits
       (insert userId {| count := count l + 1; resetTime := resetTime l |}) s).
Proof.
  unfold open_window, checkRateLimit, gets, modify, mbind, M_bind, mret, M_ret.
  intros [-> Hopen] Hcount.
  rewrite decide_False by done. rewrite decide_False by lia. done.
Qed.

Lemma checkRateLimit_refuses (now : Z) (userId : string) (s : Profiler) :
  window_exceeded now userId s →
  checkRateLimit now userId s = (Returned false, s).
Proof.
  unfold window_exceeded, open_window, checkRateLimit, gets, modify, mbind,
    M_bind, mret, M_ret.
  intros (l & [-> Hopen] & Hcount).
  rewrite decide_False by done. by rewrite decide_True.
Qed.


(** X19.  The sweep removes the windows whose reset time has passed and
    no other, and nothing of the cache; so to a request that arrives
    after the sweep the limiter gives the same answer and leaves the
    same window for the identity, whether the sweep has run or not. *)
Lemma sweep_keeps_open_windows (t now : Z) (userId : string) (s : Profiler) :
  t ≤ now →
  (∀ k, userRateLimits (sweep t s) !! k
        = match userRateLimits s !! k with
          | Some l => if decide (t > resetTime l) then None else Some l
          | None => None
          end)
  ∧ cacheStore (sweep t s) = cacheStore s
  ∧ fst (checkRateLimit now userId (sweep t s))
    = fst (checkRateLimit now userId s)
  ∧ userRateLimits (snd (checkRateLimit now userId (sweep t s))) !! userId
    = userRateLimits (snd (checkRateLimit now userId s)) !! userId.
Proof.
  intros Hle.
  assert (Hswept : ∀ k, userRateLimits (sweep t s) !! k
            = match userRateLimits s !! k with
              | Some l => if decide (t > resetTime l) then None else Some l
              | None => None
              end).
  { intros k. unfold sweep; simpl. rewrite map_lookup_filter.
    destruct (userRateLimits s !! k) as [l|]; simpl; [|done].
    case_guard as Hkeep; simpl in *; case_decide; done. }
  split; [exact Hswept|]. split; [reflexivity|].
  unfold checkRateLimit, gets, modify, mbind, M_bind, mret, M_ret.
  rewrite (Hswept userId).
  destruct (userRateLimits s !! userId) as [l|] eqn:Hl; simpl.
  - destruct (decide (t > resetTime l)) as [Hclosed|Hopen].
    + rewrite decide_True by lia. simpl. by rewrite !lookup_insert_eq.
    + repeat case_decide; simpl; rewrite ?lookup_insert_eq, ?Hswept, ?Hl;
        try done.
      by rewrite decide_False.
  - by rewrite !lookup_insert_eq.
Qed.

(** ** The cache *)

Lemma getCachedProfile_returns (env : Env) (key : string) (s : Profiler) :
  ∃ o, getCachedProfile env key s = (Returned o, s).
Proof.
  unfold getCachedProfile, try_catch, throw, gets, mbind, M_bind, mret, M_ret.
  destruct (linkOnGet env); simpl; eauto.
  destruct (cacheStore s !! key) as [[p| |]|]; simpl; eauto.
Qed.

Lemma getCachedProfile_hit (env : Env) (key : string) (p : UserProfile)
    (s : Profiler) :
  cache_hit env key p s →
  getCachedProfile env key s = (Returned (Some p), s).
Proof.
  intros [Hlink Hkey].
  unfold getCachedProfile, try_catch, throw, gets, mbind, M_bind, mret, M_ret.
  rewrite Hlink; simpl. by rewrite Hkey.
Qed.


Lemma cacheProfile_returns (env : Env) (key : string) (p : UserProfile)
    (s : Profiler) :
  ∃ s', cacheProfile env key p s = (Returned tt, s')
        ∧ userRateLimits s' = userRateLimits s.
Proof.
  unfold cacheProfile, try_catch, throw, modify, mret, M_ret.
  destruct (linkOnSet env); simpl; eauto.
Qed.

(** ** Enrichment *)

Section Enrichment.
Variable GROK_API_KEY : option string.
Variable buildPrompt : Z → ClientInfo → option GeoData → Outcome string.
Variable parseAIResponse : string → option UserProfile.

#[local] Abbreviation generate :=
  (generateAIProfile GROK_API_KEY buildPrompt parseAIResponse).
#[local] Abbreviation infer_ := (infer buildPrompt parseAIResponse).

(** The inference call returns; its result is well formed; it leaves the
    limiter alone. *)
Lemma infer_returns (env : Env) (clientInfo : ClientInfo) (geo : option GeoData)
    (key : string) (s : Profiler) :
  ∃ r s', infer_ env clientInfo geo key s = (Returned r, s')
          ∧ well_formed r ∧ source r ≠ cache
          ∧ userRateLimits s' = userRateLimits s.
Proof.
  unfold infer, try_catch, await, mbind, M_bind, mret, M_ret.
  destruct (buildPrompt (now env) clientInfo geo) as [prompt|e];
    [|by eexists _, _; repeat split; eauto].
  destruct (fetch env prompt) as [response|e];
    [|by eexists _, _; repeat split; eauto].
  destruct (ok response); simpl.
  - destruct (content response) as [t|e];
      [|by eexists _, _; repeat split; eauto].
    destruct (truthy t); simpl; [|by eexists _, _; repeat split; eauto].
    destruct (parseAIResponse (default "" t)) as [p|];
      [|by eexists _, _; repeat split; eauto].
    destruct (cacheProfile_returns env key (<["aiGenerated":="true"]> p) s)
      as (s' & -> & Hlim).
    eexists _, _; repeat split; eauto.
  - destruct (text response) as [body|e];
      by eexists _, _; repeat split; eauto.
Qed.

Lemma infer_failure (env : Env) (clientInfo : ClientInfo) (geo : option GeoData)
    (key : string) (s : Profiler) :
  inference_failure buildPrompt parseAIResponse env clientInfo geo →
  ∃ err, infer_ env clientInfo geo key s = (Returned (fallback_with err), s).
Proof.
  unfold infer, try_catch, await, mbind, M_bind, mret, M_ret.
  intros [e Hp | prompt e Hp Hf | prompt response Hp Hf Hok
          | prompt response e Hp Hf Hok Hc | prompt response t Hp Hf Hok Hc Ht
          | prompt response t Hp Hf Hok Hc Hparse];
    rewrite Hp; try rewrite Hf; try rewrite Hok; simpl; try rewrite Hc; simpl;
    eauto.
  - destruct (text response); eauto.
  - rewrite Ht; simpl. eauto.
  - destruct (String.eqb t ""); simpl; eauto.
    rewrite Hparse. eauto.
Qed.

Lemma generate_hit (env : Env) (clientInfo : ClientInfo) (geo : option GeoData)
    (p : UserProfile) (s : Profiler) :
  cache_hit env (cacheKeyOf clientInfo) p s →
  generate env clientInfo geo s
  = (Returned {| profile := Some p; source := cache; error := None |}, s).
Proof.
  intros Hhit. unfold generateAIProfile, mbind, M_bind.
  fold (cacheKeyOf clientInfo). by rewrite (getCachedProfile_hit _ _ _ _ Hhit).
Qed.

Lemma generate_unconfigured (env : Env) (clientInfo : ClientInfo)
    (geo : option GeoData) (s : Profiler) :
  cache_miss env (cacheKeyOf clientInfo) s →
  truthy GROK_API_KEY = false →
  generate env clientInfo geo s
  = (Returned (fallback_with "AI not configured"), s).
Proof.
  intros Hmiss Hkey. unfold generateAIProfile, mbind, M_bind.
  fold (cacheKeyOf clientInfo). rewrite Hmiss, Hkey. done.
Qed.

Lemma generate_limited (env : Env) (clientInfo : ClientInfo)
    (geo : option GeoData) (s : Profiler) :
  cache_miss env (cacheKeyOf clientInfo) s →
  truthy GROK_API_KEY = true →
  generate env clientInfo geo s
  = match checkRateLimit (now env) (userIdOf clientInfo) s with
    | (Returned true, s_lim) => infer_ env clientInfo geo (cacheKeyOf clientInfo) s_lim
    | (Returned false, s_lim) => (Returned (fallback_with "Rate limited"), s_lim)
    | (Thrown e, s_lim) => (Thrown e, s_lim)
    end.
Proof.
  intros Hmiss Hkey. unfold generateAIProfile, mbind, M_bind.
  fold (cacheKeyOf clientInfo) (userIdOf clientInfo). rewrite Hmiss, Hkey. simpl.
  destruct (checkRateLimit (now env) (userIdOf clientInfo) s) as [[[]|e] s_lim];
    done.
Qed.

(** The keys that the code builds are those of the identity. *)
Lemma keys_of_identity (clientInfo : ClientInfo) :
  cacheKeyOf clientInfo
  = entry_key (identity_part (fingerprintId clientInfo))
              (identity_part (crossBrowserId clientInfo))
  ∧ userIdOf clientInfo
    = window_key (identity_part (fingerprintId clientInfo))
                 (identity_part (crossBrowserId clientInfo)).
Proof.
  assert (Hpart : ∀ o, or_else o "unknown" = identity_part o).
  { intros [text|]; simpl; [|done].
    destruct (String.eqb_spec text ""); by case_decide. }
  unfold cacheKeyOf, userIdOf, getCacheKey, entry_key, window_key.
  by rewrite !Hpart.
Qed.

(** The lookup comes back empty exactly when the store is not reached or
    does not hold a profile under the key. *)
Lemma cache_miss_iff (env : Env) (key : string) (s : Profiler) :
  cache_miss env key s
  ↔ ¬ (linkOnGet env = Serving
       ∧ ∃ p, cacheStore s !! key = Some (StoredProfile p)).
Proof.
  unfold cache_miss, getCachedProfile, try_catch, throw, gets, mbind, M_bind,
    mret, M_ret.
  destruct (linkOnGet env) as [|e|]; simpl.
  - split; [intros _ [? _]; done | done].
  - split; [intros _ [? _]; done | done].
  - destruct (cacheStore s !! key) as [[p| |]|]; simpl.
    + split; [done|]. intros Hnot. exfalso. apply Hnot. by eauto.
    + split; [intros _ [_ [p Hp]]; done | done].
    + split; [intros _ [_ [p Hp]]; done | done].
    + split; [intros _ [_ [p Hp]]; done | done].
Qed.

(** C2.  The order of the lookups in [generateAIProfile].  The identity
    of the client is its fingerprint and its cross-device id, [unknown]
    standing for a part that is missing or empty; its entry in the cache
    is the one under [yourinfo:profile:<fingerprint>:<cross-device id>].
    When the store is reached and holds a profile there, that profile is
    returned as it is, with source [cache] (whose tag on the wire is the
    text [cache]), and nothing else is done.  The lookup comes back empty
    exactly when the store is not reached or holds no profile there; then,
    without an API key the result is a [fallback] with a null profile, and
    with a key, when the window of the identity is used up, the result is
    a [fallback] with a null profile. *)
Theorem lookup_order (env : Env) (clientInfo : ClientInfo) (geo : option GeoData)
    (s : Profiler) :
  let fingerprint := identity_part (fingerprintId clientInfo) in
  let crossDevice := identity_part (crossBrowserId clientInfo) in
  let key := entry_key fingerprint crossDevice in
  (∀ p, linkOnGet env = Serving →
        cacheStore s !! key = Some (StoredProfile p) →
        generate env clientInfo geo s
        = (Returned {| profile := Some p; source := cache; error := None |}, s))
  ∧ source_tag cache = "cache"
  ∧ (cache_miss env key s
     ↔ ¬ (linkOnGet env = Serving
          ∧ ∃ p, cacheStore s !! key = Some (StoredProfile p)))
  ∧ (cache_miss env key s →
     truthy GROK_API_KEY = false →
     ∃ r, generate env clientInfo geo s = (Returned r, s)
          ∧ profile r = None ∧ source r = fallback)
  ∧ (cache_miss env key s →
     truthy GROK_API_KEY = true →
     window_exceeded (now env) (window_key fingerprint crossDevice) s →
     ∃ r, generate env clientInfo geo s = (Returned r, s)
          ∧ profile r = None ∧ source r = fallback).
Proof.
  intros fingerprint crossDevice key.
  destruct (keys_of_identity clientInfo) as [Hkey Huser].
  fold fingerprint crossDevice in Hkey, Huser. fold key in Hkey.
  rewrite <- Hkey, <- Huser.
  split; [intros p Hlink Hp; by apply generate_hit|].
  split; [reflexivity|]. split; [apply cache_miss_iff|]. split.
  - intros Hmiss Hconf. eexists. by rewrite generate_unconfigured.
  - intros Hmiss Hconf Hexc. eexists.
    rewrite generate_limited, checkRateLimit_refuses by done. done.
Qed.

Lemma generate_let_through (env : Env) (clientInfo : ClientInfo)
    (geo : option GeoData) (s s_lim : Profiler) :
  cache_miss env (cacheKeyOf clientInfo) s →
  truthy GROK_API_KEY = true →
  checkRateLimit (now env) (userIdOf clientInfo) s = (Returned true, s_lim) →
  reaches_inference GROK_API_KEY buildPrompt parseAIResponse env clientInfo geo s
  ∧ userRateLimits (snd (generate env clientInfo geo s)) = userRateLimits s_lim.
Proof.
  intros Hmiss Hkey Hlim. split.
  - exists s_lim. split; [done|]. by rewrite generate_limited, Hlim.
  - rewrite generate_limited, Hlim by done.
    destruct (infer_returns env clientInfo geo (cacheKeyOf clientInfo) s_lim)
      as (r & s' & -> & _ & _ & Hsame). done.
Qed.

(** C5.  The window of the limiter, K = 2 per 60 seconds.  Take three
    requests of one identity that all get as far as the limiter (each
    misses the cache, the service is configured), the first one finding
    no open window of the identity, so that it opens one, and the other
    two arriving before the reset time of that window has passed.  The
    first two pass the limiter and return what the inference call
    returns; the third is turned away with a [fallback].  The window then
    holds a count of 2.  A request that arrives once the reset time has
    passed is let through and starts a new window with a count of 1.  A
    request that the cache answers does not get as far as the limiter:
    it returns with source [cache] and leaves every window as it is. *)
Theorem rate_limit_window (env1 env2 env3 : Env) (clientInfo : ClientInfo)
    (geo : option GeoData) (s : Profiler) :
  let s1 := snd (generate env1 clientInfo geo s) in
  let s2 := snd (generate env2 clientInfo geo s1) in
  let s3 := snd (generate env3 clientInfo geo s2) in
  truthy GROK_API_KEY = true →
  no_open_window (now env1) (userIdOf clientInfo) s →
  now env1 ≤ now env2 ∧ now env2 ≤ now env3
  ∧ now env3 ≤ now env1 + RATE_LIMIT_WINDOW →
  cache_miss env1 (cacheKeyOf clientInfo) s →
  cache_miss env2 (cacheKeyOf clientInfo) s1 →
  cache_miss env3 (cacheKeyOf clientInfo) s2 →
  reaches_inference GROK_API_KEY buildPrompt parseAIResponse env1 clientInfo geo s
  ∧ reaches_inference GROK_API_KEY buildPrompt parseAIResponse env2 clientInfo geo s1
  ∧ refused_by_limiter GROK_API_KEY buildPrompt parseAIResponse env3 clientInfo geo s2
  ∧ userRateLimits s3 !! userIdOf clientInfo
    = Some {| count := 2; resetTime := now env1 + RATE_LIMIT_WINDOW |}
  ∧ (∀ env4,
      now env4 > now env1 + RATE_LIMIT_WINDOW →
      cache_miss env4 (cacheKeyOf clientInfo) s3 →
      reaches_inference GROK_API_KEY buildPrompt parseAIResponse env4 clientInfo geo s3
      ∧ userRateLimits (snd (generate env4 clientInfo geo s3)) !! userIdOf clientInfo
        = Some {| count := 1; resetTime := now env4 + RATE_LIMIT_WINDOW |})
  ∧ ∀ env0 s0 p,
      cache_hit env0 (cacheKeyOf clientInfo) p s0 →
      ∃ r, generate env0 clientInfo geo s0 = (Returned r, s0)
           ∧ source r = cache
           ∧ userRateLimits (snd (generate env0 clientInfo geo s0))
             = userRateLimits s0.
Proof.
  intros s1 s2 s3 Hkey Hnew (H12 & H23 & H31) Hmiss1 Hmiss2 Hmiss3.
  assert (Hcached : ∀ env0 s0 p,
            cache_hit env0 (cacheKeyOf clientInfo) p s0 →
            ∃ r, generate env0 clientInfo geo s0 = (Returned r, s0)
                 ∧ source r = cache
                 ∧ userRateLimits (snd (generate env0 clientInfo geo s0))
                   = userRateLimits s0).
  { intros env0 s0 p Hhit. eexists.
    rewrite (generate_hit env0 clientInfo geo p s0 Hhit). done. }
  destruct (generate_let_through env1 clientInfo geo s _ Hmiss1 Hkey
              (checkRateLimit_new_window _ _ _ Hnew)) as [Hreach1 Hlim1].
  fold s1 in Hlim1. simpl in Hlim1.
  assert (Hw1 : open_window (now env2) (userIdOf clientInfo) s1
                  {| count := 1; resetTime := now env1 + RATE_LIMIT_WINDOW |}).
  { split; [rewrite Hlim1; apply lookup_insert_eq | simpl; lia]. }
  destruct (generate_let_through env2 clientInfo geo s1 _ Hmiss2 Hkey
              (checkRateLimit_counts _ _ _ _ Hw1 ltac:(simpl; unfold RATE_LIMIT_MAX; lia)))
    as [Hreach2 Hlim2].
  fold s2 in Hlim2. simpl in Hlim2.
  assert (Hw2 : window_exceeded (now env3) (userIdOf clientInfo) s2).
  { exists {| count := 2; resetTime := now env1 + RATE_LIMIT_WINDOW |}.
    split; [split|]; [rewrite Hlim2; apply lookup_insert_eq | simpl; lia
                     | simpl; unfold RATE_LIMIT_MAX; lia]. }
  assert (Hrefused : generate env3 clientInfo geo s2
                     = (Returned (fallback_with "Rate limited"), s2)).
  { rewrite generate_limited, checkRateLimit_refuses by done. done. }
  assert (Hs3 : s3 = s2) by (subst s3; by rewrite Hrefused).
  split; [done|]. split; [done|]. split; [done|].
  rewrite Hs3. split; [rewrite Hlim2; apply lookup_insert_eq|].
  split; [|exact Hcached].
  intros env4 Hlate Hmiss4.
  assert (Hnew4 : no_open_window (now env4) (userIdOf clientInfo) s2).
  { unfold no_open_window. rewrite Hlim2, lookup_insert_eq. simpl. lia. }
  destruct (generate_let_through env4 clientInfo geo s2 _ Hmiss4 Hkey
              (checkRateLimit_new_window _ _ _ Hnew4)) as [Hreach4 Hlim4].
  split; [done|]. rewrite Hlim4. apply lookup_insert_eq.
Qed.

End Enrichment.

(** The three branches of C2 on concrete requests. *)
Example lookup_order_examples :
  generateAIProfile sample_key sample_prompt sample_parse
    (env_at 0 Serving Serving (Returned answering)) with_profile None cached_profiler
  = (Returned {| profile := Some {[ "likelyGamer" := "false" ]};
                 source := cache; error := None |}, cached_profiler)
  ∧ generateAIProfile None sample_prompt sample_parse
      (env_at 0 Serving Serving (Returned answering)) with_profile None fresh_profiler
    = (Returned {| profile := None; source := fallback;
                   error := Some "AI not configured" |}, fresh_profiler)
  ∧ generateAIProfile sample_key sample_prompt sample_parse
      (env_at 30000 Serving Serving (Returned answering)) with_profile None
      limited_profiler
    = (Returned {| profile := None; source := fallback;
                   error := Some "Rate limited" |}, limited_profiler)
  ∧ source_tag cache = "cache".
Proof. repeat split; vm_compute; reflexivity. Qed.

(** C2, as stated, fails.  The cache holds a profile for the identity of
    the client, but the store is not reached ([getRedis] returns [null]):
    the service is asked, and its answer is returned with source [ai],
    not the profile of the cache.  And a profile that does come from the
    cache carries the tag [cache], not [cached]. *)
Lemma held_entry_is_not_returned :
  let held : UserProfile := {[ "likelyGamer" := "false" ]} in
  let unreached := env_at 0 NoClient NoClient (Returned answering) in
  let reached := env_at 0 Serving Serving (Returned answering) in
  cacheStore cached_profiler
    !! entry_key (identity_part (fingerprintId with_profile))
                 (identity_part (crossBrowserId with_profile))
  = Some (StoredProfile held)
  ∧ (∃ r s',
       generateAIProfile sample_key sample_prompt sample_parse unreached
         with_profile None cached_profiler = (Returned r, s')
       ∧ source r = ai ∧ profile r ≠ Some held)
  ∧ (∃ r,
       generateAIProfile sample_key sample_prompt sample_parse reached
         with_profile None cached_profiler = (Returned r, cached_profiler)
       ∧ profile r = Some held
       ∧ source_tag (source r) = "cache"
       ∧ source_tag (source r) ≠ "cached").
Proof.
  intros held unreached reached.
  split; [vm_compute; reflexivity|]. split.
  - eexists _, _. split; [vm_compute; reflexivity|]. split; [reflexivity|].
    simpl. intros Heq.
    apply (f_equal (fun o : option UserProfile =>
                      o ≫= fun m => m !! "likelyGamer")) in Heq.
    vm_compute in Heq. discriminate.
  - eexists. split; [vm_compute; reflexivity|]. split; [reflexivity|].
    split; [reflexivity | discriminate].
Qed.

Lemma rate_limit_window_witness :
  let e1 := env_at 0 NoClient NoClient (Returned answering) in
  let e2 := env_at 1000 NoClient NoClient (Returned answering) in
  let e3 := env_at 2000 NoClient NoClient (Returned answering) in
  let s := fresh_profiler in
  let generate := generateAIProfile sample_key sample_prompt sample_parse in
  let s1 := snd (generate e1 with_profile None s) in
  let s2 := snd (generate e2 with_profile None s1) in
  let s3 := snd (generate e3 with_profile None s2) in
  truthy sample_key = true
  ∧ no_open_window (now e1) (userIdOf with_profile) s
  ∧ (now e1 ≤ now e2 ∧ now e2 ≤ now e3 ∧ now e3 ≤ now e1 + RATE_LIMIT_WINDOW)
  ∧ cache_miss e1 (cacheKeyOf with_profile) s
  ∧ cache_miss e2 (cacheKeyOf with_profile) s1
  ∧ cache_miss e3 (cacheKeyOf with_profile) s2
  ∧ reaches_inference sample_key sample_prompt sample_parse e1 with_profile None s
  ∧ reaches_inference sample_key sample_prompt sample_parse e2 with_profile None s1
  ∧ refused_by_limiter sample_key sample_prompt sample_parse e3 with_profile None s2
  ∧ userRateLimits s3 !! userIdOf with_profile
    = Some {| count := 2; resetTime := now e1 + RATE_LIMIT_WINDOW |}.
Proof.
  intros e1 e2 e3 s generate s1 s2 s3.
  assert (H0 : truthy sample_key = true) by reflexivity.
  assert (H1 : no_open_window (now e1) (userIdOf with_profile) s)
    by (vm_compute; exact I).
  assert (H2 : now e1 ≤ now e2 ∧ now e2 ≤ now e3
               ∧ now e3 ≤ now e1 + RATE_LIMIT_WINDOW)
    by (simpl; unfold RATE_LIMIT_WINDOW; lia).
  assert (H3 : cache_miss e1 (cacheKeyOf with_profile) s) by reflexivity.
  assert (H4 : cache_miss e2 (cacheKeyOf with_profile) s1) by reflexivity.
  assert (H5 : cache_miss e3 (cacheKeyOf with_profile) s2) by reflexivity.
  destruct (rate_limit_window sample_key sample_prompt sample_parse e1 e2 e3
              with_profile None s H0 H1 H2 H3 H4 H5)
    as (R1 & R2 & R3 & R4 & _).
  exact (conj H0 (conj H1 (conj H2 (conj H3 (conj H4 (conj H5
           (conj R1 (conj R2 (conj R3 R4))))))))).
Defined.

(** C5, as stated, fails.  With the cache reached, the first of three
    requests in one window is answered by the service and stored; the
    other two are answered by the cache and never meet the limiter: three
    results carry a profile, none is a fallback.  With the service down,
    the first two requests pass the limiter and fail, the third is turned
    away: three fallbacks. *)
Lemma cache_hits_bypass_limiter :
  let hits := enrich sample_key sample_prompt sample_parse cache_up
                with_profile None fresh_profiler in
  let failures := enrich sample_key sample_prompt sample_parse service_down
                    with_profile None fresh_profiler in
  sources hits = [Some ai; Some cache; Some cache]
  ∧ ¬ (served hits = 2%nat ∧ fallbacks hits = 1%nat)
  ∧ sources failures = [Some fallback; Some fallback; Some fallback]
  ∧ ¬ (served failures = 2%nat ∧ fallbacks failures = 1%nat).
Proof.
  intros hits failures.
  assert (Hh : served hits = 3%nat) by (vm_compute; reflexivity).
  assert (Hf : served failures = 0%nat) by (vm_compute; reflexivity).
  split; [vm_compute; reflexivity|]. split; [intros [H _]; congruence|].
  split; [vm_compute; reflexivity|]. intros [H _]; congruence.
Qed.

(** With the cache out of reach, the same three requests are two answers
    of the service and one refusal. *)
Example cache_down_two_and_one :
  sources (enrich sample_key sample_prompt sample_parse cache_down
             with_profile None fresh_profiler)
  = [Some ai; Some ai; Some fallback].
Proof. vm_compute. reflexivity. Qed.


(** The failures of the inference call on a concrete request: the service
    answers with status 500, and the result is a fallback that carries the
    status. *)
Example inference_failure_example :
  let env := env_at 0 NoClient NoClient (Returned failing) in
  cache_miss env (cacheKeyOf with_profile) fresh_profiler
  ∧ inference_failure sample_prompt sample_parse env with_profile None
  ∧ fst (generateAIProfile sample_key sample_prompt sample_parse env
           with_profile None fresh_profiler)
    = Returned {| profile := None; source := fallback;
                  error := Some "Grok API error: 500" |}.
Proof.
  intros env. split; [reflexivity|]. split.
  - by eapply (non_success_status _ _ _ _ _ "DATA" failing).
  - vm_compute. reflexivity.
Qed.

(* --------------------------------------------------------------------- *)
(** * Further properties of the code                                      *)
(* --------------------------------------------------------------------- *)

(** ** Addresses and server-side facts *)

Lemma truthy_nonempty (o : option string) :
  truthy o = true → default "" o ≠ "".
Proof.
  destruct o as [s|]; simpl; [|discriminate].
  destruct (String.eqb_spec s ""); [discriminate | done].
Qed.

Lemma or_else_nonempty (o : option string) (dflt : string) :
  dflt ≠ "" → or_else o dflt ≠ "".
Proof.
  intros Hd. destruct o as [s|]; simpl; [|done].
  destruct (String.eqb_spec s ""); done.
Qed.

(** X1.  [getRealIP] never returns the empty string, whatever the headers
    are and whatever [trim] does, as long as the transport does not report
    an empty peer address. *)
Theorem getRealIP_nonempty (trim : string → string) (req : Request)
    (server : BunServer) :
  (∀ f, requestIP server = Some f → f req ≠ Some "") →
  getRealIP trim req server ≠ "".
Proof.
  intros Hpeer. unfold getRealIP.
  destruct (truthy (request_headers req !! "cf-connecting-ip")) eqn:Hcf;
    [by apply truthy_nonempty|].
  destruct (truthy (request_headers req !! "x-forwarded-for")) eqn:Hxff; simpl.
  - destruct (String.eqb_spec
                (trim (before_comma (default "" (request_headers req !! "x-forwarded-for"))))
                ""); simpl; [|done].
    destruct (truthy (request_headers req !! "x-real-ip")) eqn:Hreal;
      [by apply truthy_nonempty|].
    destruct (requestIP server) as [f|] eqn:Hf; [|done].
    specialize (Hpeer f eq_refl). destruct (f req) as [a|]; [congruence | done].
  - destruct (truthy (request_headers req !! "x-real-ip")) eqn:Hreal;
      [by apply truthy_nonempty|].
    destruct (requestIP server) as [f|] eqn:Hf; [|done].
    specialize (Hpeer f eq_refl). destruct (f req) as [a|]; [congruence | done].
Qed.

Lemma getRealIP_nonempty_witness :
  (∀ f, requestIP (peer_at "203.0.113.9") = Some f → f proxied_request ≠ Some "")
  ∧ getRealIP (fun s => s) proxied_request (peer_at "203.0.113.9") ≠ "".
Proof.
  assert (H : ∀ f, requestIP (peer_at "203.0.113.9") = Some f
                   → f proxied_request ≠ Some "").
  { intros f Hf. simpl in Hf. injection Hf as <-. discriminate. }
  split; [exact H|].
  apply (getRealIP_nonempty (fun s => s) proxied_request (peer_at "203.0.113.9") H).
Defined.

Example getRealIP_first_hop :
  getRealIP (fun s => s) proxied_request (peer_at "203.0.113.9") = "93.34.1.7".
Proof. vm_compute. reflexivity. Qed.

(** X2.  A request with none of the three proxy headers, on a transport
    that reports no peer, is given the loopback address, and its
    geolocation is null whatever the database holds. *)
Theorem unproxied_request_has_no_geo (trim : string → string)
    (reader : option Reader) (req : Request) (server : BunServer) :
  request_headers req !! "cf-connecting-ip" = None →
  request_headers req !! "x-forwarded-for" = None →
  request_headers req !! "x-real-ip" = None →
  (∀ f, requestIP server = Some f → f req = None) →
  getRealIP trim req server = "127.0.0.1"
  ∧ geo (buildServerInfo reader req (getRealIP trim req server)) = None.
Proof.
  intros Hcf Hxff Hreal Hpeer.
  assert (Hip : getRealIP trim req server = "127.0.0.1").
  { unfold getRealIP. rewrite Hcf, Hxff, Hreal. simpl.
    destruct (requestIP server) as [f|]; [|done].
    by rewrite (Hpeer f eq_refl). }
  split; [done|]. rewrite Hip. reflexivity.
Qed.

Lemma unproxied_request_has_no_geo_witness :
  request_headers bare_request !! "cf-connecting-ip" = None
  ∧ request_headers bare_request !! "x-forwarded-for" = None
  ∧ request_headers bare_request !! "x-real-ip" = None
  ∧ (∀ f, requestIP no_peer = Some f → f bare_request = None)
  ∧ getRealIP (fun s => s) bare_request no_peer = "127.0.0.1"
  ∧ geo (buildServerInfo (Some sample_reader) bare_request
           (getRealIP (fun s => s) bare_request no_peer)) = None.
Proof.
  assert (H : ∀ f, requestIP no_peer = Some f → f bare_request = None)
    by (intros f Hf; discriminate).
  split; [reflexivity|]. split; [reflexivity|]. split; [reflexivity|].
  split; [exact H|].
  apply (unproxied_request_has_no_geo (fun s => s) (Some sample_reader)
           bare_request no_peer eq_refl eq_refl eq_refl H).
Defined.

(** X3.  A geolocation that [getGeolocation] returns has no empty text
    field: what the database leaves out or leaves empty is replaced by a
    default; and no address that [isPrivateIP] accepts is ever looked up. *)
Theorem getGeolocation_defaults (reader : option Reader) (ip : string)
    (g : GeoLocation) :
  getGeolocation reader ip = Some g →
  isPrivateIP ip = false
  ∧ city g ≠ "" ∧ region g ≠ "" ∧ country g ≠ "" ∧ countryCode g ≠ ""
  ∧ geo_timezone g ≠ "" ∧ isp g ≠ "" ∧ org g ≠ "" ∧ as_ g ≠ "".
Proof.
  unfold getGeolocation. destruct (isPrivateIP ip); [discriminate|].
  destruct reader as [db|]; [|discriminate].
  destruct (db ip) as [[result|]|e]; try discriminate.
  intros [= <-]. simpl.
  repeat split; by apply or_else_nonempty.
Qed.

Lemma getGeolocation_defaults_witness :
  ∃ g, getGeolocation (Some sample_reader) "93.34.1.7" = Some g
       ∧ isPrivateIP "93.34.1.7" = false
       ∧ city g ≠ "" ∧ region g ≠ "" ∧ country g ≠ "" ∧ countryCode g ≠ ""
       ∧ geo_timezone g ≠ "" ∧ isp g ≠ "" ∧ org g ≠ "" ∧ as_ g ≠ "".
Proof.
  eexists. split; [reflexivity|].
  apply (getGeolocation_defaults (Some sample_reader) "93.34.1.7"). reflexivity.
Defined.

Example getGeolocation_sample :
  getGeolocation (Some sample_reader) "93.34.1.7"
  = Some {| lat := 4507 # 100; lng := 769 # 100; city := "Turin";
            region := "Unknown"; country := "Unknown"; countryCode := "XX";
            geo_timezone := "UTC"; isp := "Fastweb SpA"; org := "Fastweb SpA";
            as_ := "Unknown" |}
  ∧ getGeolocation (Some sample_reader) "8.8.8.8" = None
  ∧ getGeolocation (Some sample_reader) "192.168.1.20" = None.
Proof. repeat split; reflexivity. Qed.

Lemma copyHeaders_from (req : Request) (names : list string)
    (acc : gmap string string) (name : string) :
  foldl (fun headers name =>
           let value := request_headers req !! name in
           if truthy value then <[name := default "" value]> headers
           else headers) acc names !! name
  = if bool_decide (name ∈ names) && truthy (request_headers req !! name)
    then request_headers req !! name
    else acc !! name.
Proof.
  revert acc. induction names as [|n rest IH]; intros acc; simpl; [done|].
  rewrite IH. destruct (decide (name = n)) as [->|Hne].
  - rewrite (bool_decide_eq_true_2 (n ∈ n :: rest)) by left. simpl.
    destruct (truthy (request_headers req !! n)) eqn:Ht.
    + rewrite andb_true_r. destruct (bool_decide (n ∈ rest)); simpl; [done|].
      rewrite lookup_insert_eq. destruct (request_headers req !! n); done.
    + by rewrite andb_false_r.
  - assert (bool_decide (name ∈ n :: rest) = bool_decide (name ∈ rest)) as ->.
    { apply bool_decide_ext. rewrite elem_of_cons. naive_solver. }
    destruct (bool_decide (name ∈ rest) && truthy (request_headers req !! name));
      [done|].
    destruct (truthy (request_headers req !! n)); [|done].
    by rewrite lookup_insert_ne.
Qed.

(** X4.  The headers that [buildServerInfo] keeps are exactly the
    non-empty ones of the request whose name is on the whitelist, with
    their values; a header such as [cookie] or [authorization] is never
    copied. *)
Theorem buildServerInfo_whitelist (reader : option Reader) (req : Request)
    (address name : string) :
  (∀ v, headers (buildServerInfo reader req address) !! name = Some v
        ↔ name ∈ headerWhitelist ∧ request_headers req !! name = Some v
          ∧ v ≠ "")
  ∧ (name ∉ headerWhitelist →
     headers (buildServerInfo reader req address) !! name = None).
Proof.
  simpl. unfold copyHeaders. rewrite copyHeaders_from, lookup_empty.
  split.
  - intros v. destruct (bool_decide_reflect (name ∈ headerWhitelist)) as [Hin|Hout];
      simpl.
    + destruct (request_headers req !! name) as [w|] eqn:Hw; simpl.
      * destruct (String.eqb_spec w ""); simpl; naive_solver.
      * naive_solver.
    + naive_solver.
  - intros Hout. by rewrite (bool_decide_eq_false_2 _ Hout).
Qed.

Example buildServerInfo_sample :
  headers (buildServerInfo None proxied_request "93.34.1.7")
  = {[ "accept-language" := "it-IT"; "dnt" := "1" ]}
  ∧ userAgent (buildServerInfo None proxied_request "93.34.1.7") = "Mozilla/5.0"
  ∧ referer (buildServerInfo None proxied_request "93.34.1.7") = "Direct".
Proof. repeat split; vm_compute; reflexivity. Qed.

(** ** Broadcast and the handlers *)

Lemma recipients_spec (excludeId : option string)
    (conns : gmap string WebSocket) (to : string) :
  to ∈ recipients excludeId conns
  ↔ ∃ ws, conns !! to = Some ws ∧ Some to ≠ excludeId ∧ readyState ws = OPEN.
Proof.
  unfold recipients. rewrite list_elem_of_fmap. split.
  - intros ([k ws] & -> & Hin). apply list_elem_of_filter in Hin as [[H1 H2] Hin].
    apply elem_of_map_to_list in Hin. by exists ws.
  - intros (ws & Hin & H1 & H2). exists (to, ws). split; [done|].
    apply list_elem_of_filter. split; [done|]. by apply elem_of_map_to_list.
Qed.

(** X5.  [broadcast] writes the message once to every registered socket
    that is open and is not the excluded one, to no other socket, and
    changes nothing else. *)
Theorem broadcast_reaches_open_sockets (message : WSMessage)
    (excludeId : option string) (s : Server) :
  ∃ rs : list string,
    broadcast message excludeId s
    = (Returned tt, emit (map (fun to => Send to message) rs) s)
    ∧ NoDup rs
    ∧ ∀ to, to ∈ rs
            ↔ ∃ ws, connections s !! to = Some ws ∧ Some to ≠ excludeId
                    ∧ readyState ws = OPEN.
Proof.
  exists (recipients excludeId (connections s)).
  split; [reflexivity|]. split; [apply recipients_NoDup|].
  intros to. apply recipients_spec.
Qed.

Lemma keyed_insert (m : gmap string VisitorInfo) (k : string) (v : VisitorInfo) :
  keyed_by_id m → id v = k → keyed_by_id (<[k := v]> m).
Proof.
  intros Hm Hv k' v' Hl. destruct (decide (k = k')) as [->|Hne].
  - rewrite lookup_insert_eq in Hl. by simplify_eq.
  - rewrite lookup_insert_ne in Hl by done. by apply Hm.
Qed.

Lemma keyed_delete (m : gmap string VisitorInfo) (k : string) :
  keyed_by_id m → keyed_by_id (delete k m).
Proof.
  intros Hm k' v' Hl. apply lookup_delete_Some in Hl as [_ Hl]. by apply Hm.
Qed.

(** What [message] stores when it stores something: the record found
    under the id of the socket, with another [client]. *)
Lemma message_stores (INSTANCE_ID : string) (ws : WebSocket)
    (m : ClientMessage) (s : Server) :
  let s' := snd (message INSTANCE_ID ws m s) in
  (localVisitors s' = localVisitors s ∧ allVisitors s' = allVisitors s)
  ∨ ∃ vid v c, localVisitors s !! vid = Some v
               ∧ localVisitors s' = <[vid := setClient v c]> (localVisitors s)
               ∧ allVisitors s' = <[vid := setClient v c]> (allVisitors s).
Proof.
  run_handler. destruct m as [raw|t|[payload|]]; simpl; try by left.
  - destruct (visitorId ws) as [vid|]; simpl; [|by left].
    destruct (localVisitors s !! vid) as [v|] eqn:Hv; simpl; [|by left].
    repeat case_match; simplify_eq/=; right; eexists _, _, _; by eauto.
  - destruct (visitorId ws) as [vid|]; simpl; [|by left].
    destruct (localVisitors s !! vid) as [v|] eqn:Hv; simpl; by left.
Qed.

(** X6.  Every handler keeps the records of both registries stored under
    their own ids. *)
Theorem records_stay_keyed_by_id (INSTANCE_ID : string) (a : Action) (s : Server) :
  keyed_by_id (localVisitors s) →
  keyed_by_id (allVisitors s) →
  keyed_by_id (localVisitors (snd (handle INSTANCE_ID a s)))
  ∧ keyed_by_id (allVisitors (snd (handle INSTANCE_ID a s))).
Proof.
  intros Hl Ha.
  destruct a as [ws newId serverInfo now | ws m | ws | m]; simpl handle;
    change (onVisitorEvent onRemoteEvent []) with [onRemoteEvent].
  - destruct (open_registries INSTANCE_ID ws newId serverInfo now s)
      as (-> & -> & _).
    split; by apply keyed_insert.
  - destruct (message_stores INSTANCE_ID ws m s)
      as [[-> ->] | (vid & v & c & Hv & -> & ->)]; [done|].
    split; apply keyed_insert; try done; simpl; by apply Hl.
  - destruct (close_registries INSTANCE_ID ws s)
      as [[_ ->] | (_ & -> & -> & _)]; [done|].
    split; by apply keyed_delete.
  - destruct (channel_registries INSTANCE_ID m s)
      as (-> & _ & [-> | (event & -> & ->)]); [done|].
    split; [done|].
    destruct (type event); by (apply keyed_insert || apply keyed_delete).
Qed.

Lemma records_stay_keyed_by_id_witness :
  keyed_by_id (localVisitors alice_online)
  ∧ keyed_by_id (allVisitors alice_online)
  ∧ keyed_by_id
      (localVisitors
         (snd (handle sample_instance
                 (SocketOpen new_socket "v_b"
                    (sample_server "93.34.1.7" (Some turin)) 2000)
                 alice_online)))
  ∧ keyed_by_id
      (allVisitors
         (snd (handle sample_instance
                 (SocketOpen new_socket "v_b"
                    (sample_server "93.34.1.7" (Some turin)) 2000)
                 alice_online))).
Proof.
  assert (H : keyed_by_id ({[ "v_a" := alice ]} : gmap string VisitorInfo)).
  { intros k v Hkv. apply lookup_singleton_Some in Hkv as [<- <-]. reflexivity. }
  split; [exact H|]. split; [exact H|].
  apply (records_stay_keyed_by_id sample_instance
           (SocketOpen new_socket "v_b" (sample_server "93.34.1.7" (Some turin)) 2000)
           alice_online H H).
Defined.

Lemma discreet_redacted (to : string) (m : WSMessage) (v : VisitorInfo) :
  carried m = [redactVisitorInfo v] → discreet to m.
Proof.
  intros Hm w Hw. rewrite Hm in Hw. apply list_elem_of_singleton in Hw as ->.
  right. by eexists.
Qed.

Lemma discreet_welcome (to : string) (v : VisitorInfo) (l : list VisitorInfo) :
  id v = to → discreet to (welcome v (redactVisitorsExcept l to)).
Proof.
  intros Hv w Hw. simpl in Hw. apply elem_of_cons in Hw as [->|Hw]; [by left|].
  unfold redactVisitorsExcept in Hw.
  apply list_elem_of_fmap in Hw as (r & -> & _).
  destruct (String.eqb_spec (id r) to); [by left | right; by eexists].
Qed.

Lemma discreet_broadcast (m : WSMessage) (v : VisitorInfo) (rs : list string) :
  carried m = [redactVisitorInfo v] →
  Forall discreet_effect (map (fun to => Send to m) rs).
Proof.
  intros Hm. apply Forall_forall. intros e He.
  apply list_elem_of_fmap in He as (to & -> & _). simpl.
  by eapply discreet_redacted.
Qed.

Ltac discreet_effects :=
  repeat first
    [ apply Forall_nil_2
    | apply Forall_app_2
    | apply Forall_cons_2
    | by eapply discreet_broadcast
    | exact I ].

Ltac nothing_sent :=
  exists []; rewrite app_nil_r; split; [reflexivity | apply Forall_nil_2].

Ltac something_sent :=
  eexists; split; [rewrite <- ?app_assoc; reflexivity|]; discreet_effects.

(** X7.  No handler sends the unredacted record of a visitor to the socket
    of another visitor: whatever a handler adds to the messages sent, a
    record in a message to a socket is the record of that socket's visitor
    or a redacted record. *)
Theorem handlers_send_discreetly (INSTANCE_ID : string) (a : Action) (s : Server) :
  keyed_by_id (localVisitors s) →
  ∃ new, effects (snd (handle INSTANCE_ID a s)) = effects s ++ new
         ∧ Forall discreet_effect new.
Proof.
  intros Hkeyed.
  destruct a as [ws newId serverInfo now | ws m | ws | m]; simpl handle;
    change (onVisitorEvent onRemoteEvent []) with [onRemoteEvent].
  - run_handler.
    repeat case_match; simplify_eq/=;
      first [ nothing_sent | something_sent; by apply discreet_welcome ].
  - run_handler. destruct m as [raw|t|[payload|]]; simpl; try nothing_sent.
    + destruct (visitorId ws) as [vid|]; simpl; [|nothing_sent].
      destruct (localVisitors s !! vid) as [v|] eqn:Hv; simpl; [|nothing_sent].
      pose proof (Hkeyed _ _ Hv) as Hid.
      repeat case_match; simplify_eq/=;
        first [ nothing_sent
              | something_sent;
                intros r Hr; apply list_elem_of_singleton in Hr as ->; by left ].
    + destruct (visitorId ws) as [vid|]; simpl; [|nothing_sent].
      destruct (localVisitors s !! vid) as [v|] eqn:Hv; simpl; nothing_sent.
  - run_handler.
    repeat case_match; simplify_eq/=; first [ nothing_sent | something_sent ].
  - destruct m as [raw|event]; [nothing_sent|].
    destruct (decide (instanceId event = INSTANCE_ID)) as [Heq|Hne].
    + rewrite onChannelMessage_own by done. nothing_sent.
    + rewrite onChannelMessage_foreign by done. run_handler.
      destruct (type event); simpl; something_sent.
Qed.

Lemma handlers_send_discreetly_witness :
  keyed_by_id (localVisitors alice_online)
  ∧ ∃ new,
      effects (snd (handle sample_instance
                      (SocketOpen new_socket "v_b"
                         (sample_server "93.34.1.7" (Some turin)) 2000)
                      alice_online))
      = effects alice_online ++ new
      ∧ Forall discreet_effect new.
Proof.
  assert (H : keyed_by_id (localVisitors alice_online)).
  { intros k v Hkv. simpl in Hkv.
    apply lookup_singleton_Some in Hkv as [<- <-]. reflexivity. }
  split; [exact H|].
  apply (handlers_send_discreetly sample_instance
           (SocketOpen new_socket "v_b" (sample_server "93.34.1.7" (Some turin)) 2000)
           alice_online H).
Defined.

(** X8.  A client message that does not parse, has another type, has no
    payload, or arrives on a socket whose visitor is not registered is
    dropped: the handler returns, and nothing is stored, published or
    sent. *)
Theorem malformed_message_is_dropped (INSTANCE_ID : string) (ws : WebSocket)
    (m : ClientMessage) (s : Server) :
  ignored ws m s →
  message INSTANCE_ID ws m s = (Returned tt, s).
Proof.
  unfold ignored. run_handler.
  destruct m as [raw|t|[payload|]]; simpl; try done.
  - intros Hnone. destruct (visitorId ws) as [vid|]; simpl in *; [|done].
    by rewrite Hnone.
  - intros _. destruct (visitorId ws) as [vid|]; simpl; [|done].
    by destruct (localVisitors s !! vid).
Qed.

Lemma malformed_message_is_dropped_witness :
  ignored alice_socket (Unparsable "{type:") alice_online
  ∧ message sample_instance alice_socket (Unparsable "{type:") alice_online
    = (Returned tt, alice_online).
Proof.
  split; [exact I|].
  apply (malformed_message_is_dropped sample_instance alice_socket
           (Unparsable "{type:") alice_online). exact I.
Defined.

(** X9.  A [client_info] message whose payload has no [clientInfo], on the
    socket of a local visitor: the handler returns; the record loses its
    [client] in both registries, and so it does for the calls that hold
    the object; nothing is sent to any socket.  Of
    [publishVisitorUpdated], which is not awaited, the handler has issued
    the [hSet] of the record without [client] and nothing else: the event
    waits for the reply, and there is nothing left of the call when the
    store is not connected or rejects the [hSet]. *)
Theorem client_info_without_facts (INSTANCE_ID : string) (ws : WebSocket)
    (vid : string) (v : VisitorInfo) (s : Server) :
  visitorId ws = Some vid →
  localVisitors s !! vid = Some v →
  let v' := setClient v None in
  let s' := snd (message INSTANCE_ID ws
                   (client_info (Some {| clientInfo := None |})) s) in
  let calls := map (written vid v') (pending s) in
  fst (message INSTANCE_ID ws (client_info (Some {| clientInfo := None |})) s)
  = Returned tt
  ∧ localVisitors s' = <[vid := v']> (localVisitors s)
  ∧ allVisitors s' = <[vid := v']> (allVisitors s)
  ∧ effects s' = effects s
  ∧ if pubClient (shared s) && isConnected (shared s)
    then match rejections (redis (shared s)) with
         | true :: _ =>
             shared s' = with_redis next_rejection (shared s)
             ∧ pending s' = calls
         | _ =>
             shared s'
             = with_redis (fun r => next_rejection (execute (HSet (id v) v') r))
                 (shared s)
             ∧ pending s'
               = calls ++ [{| todo := [IssuePublish Updated]; about := v';
                              held_as := Some vid |}]
         end
    else shared s' = shared s ∧ pending s' = calls.
Proof.
  intros Hws Hv. run_handler. rewrite Hws; simpl. rewrite Hv; simpl.
  destruct (pubClient (shared s) && isConnected (shared s)); simpl; [|done].
  unfold send_command.
  destruct (rejections (redis (shared s))) as [|[] script]; simpl; done.
Qed.

Lemma client_info_without_facts_witness :
  let s := snd (message sample_instance alice_socket
                  (client_info (Some {| clientInfo := Some with_profile |}))
                  alice_shared) in
  let s' := snd (message sample_instance alice_socket
                   (client_info (Some {| clientInfo := None |})) s) in
  let cleared := setClient (setClient alice (Some with_profile)) None in
  visitorId alice_socket = Some "v_a"
  ∧ localVisitors s !! "v_a" = Some (setClient alice (Some with_profile))
  ∧ localVisitors s' = <["v_a" := cleared]> (localVisitors s)
  ∧ effects s' = effects s
  ∧ visitors (redis (shared s')) !! "v_a" = Some cleared
  ∧ channel (redis (shared s')) = []
  ∧ pending s'
    = [{| todo := [IssuePublish Updated]; about := cleared;
          held_as := Some "v_a" |};
       {| todo := [IssuePublish Updated]; about := cleared;
          held_as := Some "v_a" |}].
Proof.
  intros s s' cleared.
  assert (H1 : visitorId alice_socket = Some "v_a") by reflexivity.
  assert (H2 : localVisitors s !! "v_a" = Some (setClient alice (Some with_profile)))
    by (vm_compute; reflexivity).
  destruct (client_info_without_facts sample_instance alice_socket "v_a"
              (setClient alice (Some with_profile)) s H1 H2)
    as (_ & Hl & _ & He & Hstore).
  fold s' in Hl, He, Hstore. simpl in Hstore. destruct Hstore as [Hshared Hcalls].
  split; [exact H1|]. split; [exact H2|]. split; [exact Hl|].
  split; [exact He|].
  rewrite Hshared, Hcalls. repeat split; vm_compute; reflexivity.
Defined.

(** X10.  Once the close handler has run for a socket, the route
    [GET /api/visitor/:id] answers 404 for the id of that socket. *)
Theorem closed_visitor_is_not_found (INSTANCE_ID : string) (ws : WebSocket)
    (vid : string) (s : Server) :
  visitorId ws = Some vid →
  vid ≠ "" →
  getVisitorById (snd (close INSTANCE_ID ws s)) vid = None.
Proof.
  intros Hws Hvid. unfold getVisitorById.
  destruct (close_registries INSTANCE_ID ws s)
    as [[Hfalsy _] | (_ & -> & -> & _)].
  - rewrite Hws in Hfalsy. simpl in Hfalsy.
    destruct (String.eqb_spec vid ""); [done | discriminate].
  - rewrite Hws. simpl. by rewrite !lookup_delete_eq.
Qed.

Lemma closed_visitor_is_not_found_witness :
  visitorId alice_socket = Some "v_a"
  ∧ "v_a" ≠ ""
  ∧ getVisitorById alice_online "v_a" = Some alice
  ∧ getVisitorById (snd (close sample_instance alice_socket alice_online)) "v_a"
    = None.
Proof.
  assert (H : "v_a" ≠ "") by discriminate.
  split; [reflexivity|]. split; [exact H|]. split; [vm_compute; reflexivity|].
  apply (closed_visitor_is_not_found sample_instance alice_socket "v_a"
           alice_online eq_refl H).
Defined.

(** ** Without the shared store *)

Lemma publish_disconnected (INSTANCE_ID : string) (v : VisitorInfo)
    (sh : SharedVisitors) :
  isConnected sh = false →
  publishVisitorJoined INSTANCE_ID v sh = (Returned tt, sh)
  ∧ publishVisitorUpdated INSTANCE_ID v sh = (Returned tt, sh)
  ∧ publishVisitorLeft INSTANCE_ID v sh = (Returned tt, sh)
  ∧ getAllSharedVisitors sh = (Returned [], sh).
Proof.
  intros Hc.
  unfold publishVisitorJoined, publishVisitorUpdated, publishVisitorLeft,
    getAllSharedVisitors, gets, mbind, M_bind, mret, M_ret.
  rewrite Hc, andb_false_r. done.
Qed.

(** X11.  While [isConnected] is false no handler issues a command to the
    shared store: the state of [shared-visitors.ts], the Redis server
    included, is the same after every handler. *)
Theorem handlers_leave_store_alone (INSTANCE_ID : string) (a : Action) (s : Server) :
  isConnected (shared s) = false →
  shared (snd (handle INSTANCE_ID a s)) = shared s.
Proof.
  intros Hc.
  assert (Hoff : pubClient (shared s) && isConnected (shared s) = false)
    by (rewrite Hc; apply andb_false_r).
  destruct a as [ws newId serverInfo now | ws m | ws | m]; simpl handle;
    change (onVisitorEvent onRemoteEvent []) with [onRemoteEvent].
  - run_handler. unfold isSharedVisitorsConnected.
    rewrite Hoff. simpl. by rewrite Hc.
  - run_handler. destruct m as [raw|t|[payload|]]; simpl; try done.
    + destruct (visitorId ws) as [vid|]; simpl; [|done].
      destruct (localVisitors s !! vid) as [v|]; simpl; [|done].
      rewrite Hoff. simpl. repeat case_match; simplify_eq/=; done.
    + destruct (visitorId ws) as [vid|]; simpl; [|done].
      by destruct (localVisitors s !! vid).
  - run_handler. destruct (truthy (visitorId ws)); [|done].
    destruct (localVisitors s !! default "" (visitorId ws)) as [v|]; [|done].
    simpl. by rewrite Hoff.
  - destruct m as [raw|event]; [done|].
    destruct (decide (instanceId event = INSTANCE_ID)) as [Heq|Hne].
    + by rewrite onChannelMessage_own.
    + rewrite onChannelMessage_foreign by done. run_handler.
      by destruct (type event).
Qed.

Lemma handlers_leave_store_alone_witness :
  isConnected (shared alice_online) = false
  ∧ shared (snd (handle sample_instance (SocketClose alice_socket) alice_online))
    = shared alice_online.
Proof.
  split; [reflexivity|].
  apply (handlers_leave_store_alone sample_instance (SocketClose alice_socket)
           alice_online). reflexivity.
Defined.

(** X12.  On an instance that hears nothing from the channel, the visitors
    of [allVisitors] are exactly the local ones after every socket
    handler; so, without the shared store, [GET /api/visitors] lists
    exactly the records of [localVisitors]. *)
Theorem local_mode_registries_agree (INSTANCE_ID : string) (a : Action)
    (s : Server) :
  is_socket_action a →
  allVisitors s = localVisitors s →
  let s' := snd (handle INSTANCE_ID a s) in
  allVisitors s' = localVisitors s'
  ∧ (isConnected (shared s') = false →
     fst (getVisitors s') = Returned (map snd (map_to_list (localVisitors s')))).
Proof.
  intros Hsock Heq s'.
  assert (Hagree : allVisitors s' = localVisitors s').
  { subst s'. destruct a as [ws newId serverInfo now | ws m | ws | m];
      simpl handle; [| | |done].
    - destruct (open_registries INSTANCE_ID ws newId serverInfo now s)
        as (-> & -> & _). by rewrite Heq.
    - destruct (message_stores INSTANCE_ID ws m s)
        as [[-> ->] | (vid & v & c & _ & -> & ->)]; by rewrite Heq.
    - destruct (close_registries INSTANCE_ID ws s)
        as [[_ ->] | (_ & -> & -> & _)]; by rewrite Heq. }
  split; [done|].
  intros Hc. unfold getVisitors, gets, mbind, M_bind, isSharedVisitorsConnected.
  rewrite Hc. simpl. by rewrite Hagree.
Qed.

Lemma local_mode_registries_agree_witness :
  is_socket_action (SocketOpen new_socket "v_b"
                      (sample_server "93.34.1.7" (Some turin)) 2000)
  ∧ allVisitors alice_online = localVisitors alice_online
  ∧ allVisitors
      (snd (handle sample_instance
              (SocketOpen new_socket "v_b"
                 (sample_server "93.34.1.7" (Some turin)) 2000) alice_online))
    = localVisitors
        (snd (handle sample_instance
                (SocketOpen new_socket "v_b"
                   (sample_server "93.34.1.7" (Some turin)) 2000) alice_online)).
Proof.
  split; [exact I|]. split; [reflexivity|].
  apply (local_mode_registries_agree sample_instance
           (SocketOpen new_socket "v_b" (sample_server "93.34.1.7" (Some turin)) 2000)
           alice_online I eq_refl).
Defined.

(** ** The shared directory, whatever the connection does *)

Ltac run_publish :=
  unfold publishVisitorJoined, publishVisitorUpdated, publishVisitorLeft,
    send_command, try_catch, gets, mbind, M_bind, mret, M_ret; simpl.








Example rejected_expire_publishes_nothing :
  let s' := snd (publishVisitorJoined sample_instance bob flaky_directory) in
  visitors (redis s') !! "v_b" = Some bob
  ∧ expiry (redis s') = None
  ∧ channel (redis s') = [].
Proof. repeat split; vm_compute; reflexivity. Qed.

(** X14.  On a connected store that serves its commands, announcing a
    visitor that the directory does not hold and then its departure
    leaves the records of the directory as they were, and puts the
    [joined] event and then the [left] event on the channel. *)
Theorem joined_then_left (INSTANCE_ID : string) (v : VisitorInfo)
    (s : SharedVisitors) :
  pubClient s = true → isConnected s = true → rejections (redis s) = [] →
  visitors (redis s) !! id v = None →
  let s1 := snd (publishVisitorJoined INSTANCE_ID v s) in
  let s2 := snd (publishVisitorLeft INSTANCE_ID v s1) in
  visitors (redis s2) = visitors (redis s)
  ∧ channel (redis s2)
    = channel (redis s)
      ++ [event_of INSTANCE_ID Joined v; event_of INSTANCE_ID Left v]
  ∧ expiry (redis s2)
    = if decide (visitors (redis s) = ∅) then None else Some VISITOR_TTL.
Proof.
  destruct s as [pc ic [vs ex ch rej]]. simpl.
  intros -> -> -> Hfresh. run_publish.
  rewrite (delete_insert_id vs (id v) v Hfresh).
  split; [done|]. split; [by rewrite <- app_assoc|].
  destruct (decide (<[id v:=v]> vs = ∅)) as [He|_];
    [exfalso; by apply (insert_non_empty _ _ _ He) | done].
Qed.

Lemma joined_then_left_witness :
  let s1 := snd (publishVisitorJoined sample_instance alice expiring_directory) in
  let s2 := snd (publishVisitorLeft sample_instance alice s1) in
  pubClient expiring_directory = true
  ∧ isConnected expiring_directory = true
  ∧ rejections (redis expiring_directory) = []
  ∧ visitors (redis expiring_directory) !! id alice = None
  ∧ visitors (redis s2) = visitors (redis expiring_directory)
  ∧ channel (redis s2)
    = channel (redis expiring_directory)
      ++ [event_of sample_instance Joined alice;
          event_of sample_instance Left alice].
Proof.
  intros s1 s2.
  assert (H : visitors (redis expiring_directory) !! id alice = None)
    by (vm_compute; reflexivity).
  destruct (joined_then_left sample_instance alice expiring_directory
              eq_refl eq_refl eq_refl H) as (Hv & Hch & _).
  exact (conj eq_refl (conj eq_refl (conj eq_refl (conj H (conj Hv Hch))))).
Defined.

(** X15.  [initSharedVisitors], on a module that is not connected,
    returns; it answers [true] exactly when every step of the start
    succeeded, and that is exactly when the module is connected
    afterwards; it issues no command; and after a start that failed the
    publishing functions do nothing and the directory reads as empty. *)
Theorem initSharedVisitors_all_or_nothing (INSTANCE_ID : string) (env : InitEnv)
    (s : SharedVisitors) :
  isConnected s = false →
  let s' := snd (initSharedVisitors env s) in
  redis s' = redis s
  ∧ (all_succeed env
     ∧ fst (initSharedVisitors env s) = Returned true
     ∧ isConnected s' = true ∧ pubClient s' = true
     ∨ ¬ all_succeed env
       ∧ fst (initSharedVisitors env s) = Returned false
       ∧ isConnected s' = false
       ∧ ∀ v, publishVisitorJoined INSTANCE_ID v s' = (Returned tt, s')
              ∧ publishVisitorUpdated INSTANCE_ID v s' = (Returned tt, s')
              ∧ publishVisitorLeft INSTANCE_ID v s' = (Returned tt, s')
              ∧ getAllSharedVisitors s' = (Returned [], s')).
Proof.
  intros Hc. unfold all_succeed.
  unfold initSharedVisitors, try_catch, await, modify, mbind, M_bind, mret, M_ret.
  destruct env as [[[]|e1] [[]|e2] [[]|e3] [[]|e4] [[]|e5]]; simpl;
    (split; [done|]);
    first [ left; done
          | right; split; [intros (?&?&?&?&?); discriminate|];
            split; [done|]; split; [done|];
            intros v; by apply publish_disconnected ].
Qed.

Lemma initSharedVisitors_all_or_nothing_witness :
  isConnected not_started = false
  ∧ fst (initSharedVisitors refusing not_started) = Returned false
  ∧ fst (initSharedVisitors accepting not_started) = Returned true
  ∧ redis (snd (initSharedVisitors refusing not_started)) = redis not_started.
Proof.
  split; [reflexivity|]. split; [reflexivity|]. split; [reflexivity|].
  apply (initSharedVisitors_all_or_nothing sample_instance refusing not_started).
  reflexivity.
Defined.

(** ** The limiter *)

Lemma sweep_keeps_open_windows_witness :
  1000 ≤ 2000
  ∧ userRateLimits (sweep 1000 one_counted) !! "fp1:cb1"
    = Some {| count := 1; resetTime := 60000 |}
  ∧ fst (checkRateLimit 2000 "fp1:cb1" (sweep 1000 one_counted))
    = fst (checkRateLimit 2000 "fp1:cb1" one_counted)
  ∧ userRateLimits (snd (checkRateLimit 2000 "fp1:cb1" (sweep 1000 one_counted)))
      !! "fp1:cb1"
    = userRateLimits (snd (checkRateLimit 2000 "fp1:cb1" one_counted))
        !! "fp1:cb1".
Proof.
  assert (H : 1000 ≤ 2000) by lia.
  destruct (sweep_keeps_open_windows 1000 2000 "fp1:cb1" one_counted H)
    as (Hkept & _ & Hanswer & Hwindow).
  split; [exact H|]. split; [rewrite Hkept; vm_compute; reflexivity|].
  split; [exact Hanswer | exact Hwindow].
Defined.

Lemma checkRateLimit_cases (now : Z) (userId : string) (s : Profiler) :
  ∃ b l, fst (checkRateLimit now userId s) = Returned b
         ∧ (snd (checkRateLimit now userId s) = s
            ∨ snd (checkRateLimit now userId s)
              = on_userRateLimits (insert userId l) s
              ∧ (limiter_bounded s → 1 ≤ count l ≤ RATE_LIMIT_MAX)).
Proof.
  unfold checkRateLimit, gets, modify, mbind, M_bind, mret, M_ret.
  unfold limiter_bounded, RATE_LIMIT_MAX.
  destruct (userRateLimits s !! userId) as [l|] eqn:Hl.
  - destruct (decide (now > resetTime l)).
    + eexists _, _; split; [reflexivity|]. right. split; [reflexivity|].
      simpl. lia.
    + destruct (decide (count l >= 2)).
      * exists false, l. split; [reflexivity|]. by left.
      * eexists _, _; split; [reflexivity|]. right. split; [reflexivity|].
        intros Hb. specialize (Hb _ _ Hl). simpl. lia.
  - eexists _, _; split; [reflexivity|]. right. split; [reflexivity|].
    simpl. lia.
Qed.

Section Accounting.
Variable GROK_API_KEY : option string.
Variable buildPrompt : Z → ClientInfo → option GeoData → Outcome string.
Variable parseAIResponse : string → option UserProfile.

#[local] Abbreviation generate' :=
  (generateAIProfile GROK_API_KEY buildPrompt parseAIResponse).

(** What a request does to the limiter: nothing, or one write to the
    window of its own identity that keeps the count within the limit. *)
Lemma generate_limiter (env : Env) (clientInfo : ClientInfo)
    (geo : option GeoData) (s : Profiler) :
  userRateLimits (snd (generate' env clientInfo geo s)) = userRateLimits s
  ∨ ∃ l, userRateLimits (snd (generate' env clientInfo geo s))
         = <[userIdOf clientInfo := l]> (userRateLimits s)
         ∧ (limiter_bounded s → 1 ≤ count l ≤ RATE_LIMIT_MAX).
Proof.
  destruct (getCachedProfile_returns env (cacheKeyOf clientInfo) s) as [[p|] Hget].
  - left. unfold generateAIProfile, mbind, M_bind. fold (cacheKeyOf clientInfo).
    by rewrite Hget.
  - destruct (truthy GROK_API_KEY) eqn:Hkey.
    + rewrite (generate_limited GROK_API_KEY buildPrompt parseAIResponse) by done.
      destruct (checkRateLimit_cases (now env) (userIdOf clientInfo) s)
        as (b & l & Hb & Hs).
      destruct (checkRateLimit (now env) (userIdOf clientInfo) s) as [o s_lim].
      simpl in Hb, Hs. subst o.
      assert (Hafter : userRateLimits
                         (snd (if b
                               then infer buildPrompt parseAIResponse env clientInfo
                                      geo (cacheKeyOf clientInfo) s_lim
                               else (Returned (fallback_with "Rate limited"), s_lim)))
                       = userRateLimits s_lim).
      { destruct b; [|done].
        destruct (infer_returns buildPrompt parseAIResponse env clientInfo geo
                    (cacheKeyOf clientInfo) s_lim) as (r & s' & -> & _ & _ & Hsame).
        done. }
      destruct b; simpl in Hafter |- *; rewrite ?Hafter;
        (destruct Hs as [-> | [-> Hl]]; [by left | right; by exists l]).
    + left. by rewrite (generate_unconfigured GROK_API_KEY buildPrompt
                          parseAIResponse) by done.
Qed.

(** X16.  No request ever takes a window beyond the limit: if every
    window of the limiter counts between one and [RATE_LIMIT_MAX]
    requests, it still does after [generateAIProfile], whatever the
    request and its outcome. *)
Theorem limiter_stays_bounded (env : Env) (clientInfo : ClientInfo)
    (geo : option GeoData) (s : Profiler) :
  limiter_bounded s →
  limiter_bounded (snd (generate' env clientInfo geo s)).
Proof.
  intros Hb k l Hk.
  destruct (generate_limiter env clientInfo geo s) as [Hsame | (l' & Hins & Hl')].
  - rewrite Hsame in Hk. by eapply Hb.
  - rewrite Hins in Hk. destruct (decide (userIdOf clientInfo = k)) as [<-|Hne].
    + rewrite lookup_insert_eq in Hk. simplify_eq. by apply Hl'.
    + rewrite lookup_insert_ne in Hk by done. by eapply Hb.
Qed.

(** X17.  A request touches the window of no other identity. *)
Theorem limiter_is_per_identity (env : Env) (clientInfo : ClientInfo)
    (geo : option GeoData) (s : Profiler) (other : string) :
  other ≠ userIdOf clientInfo →
  userRateLimits (snd (generate' env clientInfo geo s)) !! other
  = userRateLimits s !! other.
Proof.
  intros Hne.
  destruct (generate_limiter env clientInfo geo s) as [-> | (l' & -> & _)];
    [done|].
  by rewrite lookup_insert_ne.
Qed.

(** X21.  A request that passes the limiter is counted even when the
    inference call fails: in an open window with room left, a request that
    misses the cache and whose inference call fails returns a [fallback]
    and raises the count of the window by one. *)
Theorem failed_inference_is_counted (env : Env) (clientInfo : ClientInfo)
    (geo : option GeoData) (s : Profiler) (l : RateLimit) :
  truthy GROK_API_KEY = true →
  cache_miss env (cacheKeyOf clientInfo) s →
  open_window (now env) (userIdOf clientInfo) s l →
  count l < RATE_LIMIT_MAX →
  inference_failure buildPrompt parseAIResponse env clientInfo geo →
  ∃ err,
    generate' env clientInfo geo s
    = (Returned (fallback_with err),
       on_userRateLimits
         (insert (userIdOf clientInfo)
            {| count := count l + 1; resetTime := resetTime l |}) s).
Proof.
  intros Hkey Hmiss Hopen Hroom Hfail.
  rewrite (generate_limited GROK_API_KEY buildPrompt parseAIResponse) by done.
  rewrite (checkRateLimit_counts _ _ _ _ Hopen Hroom).
  by apply infer_failure.
Qed.

(** X20.  What the service answered is what the cache gives back: when a
    request returns with source [ai] and the store takes the write, the
    profile carries [aiGenerated], and the next request of the same
    identity that reaches the store returns that very profile with source
    [cache] and changes nothing. *)
Theorem cache_gives_back_the_answer (env1 env2 : Env)
    (clientInfo1 clientInfo2 : ClientInfo) (geo1 geo2 : option GeoData)
    (s : Profiler) (r1 : ProfileResult) :
  fst (generate' env1 clientInfo1 geo1 s) = Returned r1 →
  source r1 = ai →
  linkOnSet env1 = Serving →
  linkOnGet env2 = Serving →
  cacheKeyOf clientInfo2 = cacheKeyOf clientInfo1 →
  let s1 := snd (generate' env1 clientInfo1 geo1 s) in
  ∃ p, profile r1 = Some p
       ∧ p !! "aiGenerated" = Some "true"
       ∧ generate' env2 clientInfo2 geo2 s1
         = (Returned {| profile := Some p; source := cache; error := None |}, s1).
Proof.
  intros Hr1 Hai Hset Hget Hkey s1.
  assert (Hstored : ∃ p, profile r1 = Some p ∧ p !! "aiGenerated" = Some "true"
                         ∧ cacheStore s1 !! cacheKeyOf clientInfo1
                           = Some (StoredProfile p)).
  { subst s1. revert Hr1.
    destruct (getCachedProfile_returns env1 (cacheKeyOf clientInfo1) s)
      as [[p|] Hc].
    - unfold generateAIProfile, mbind, M_bind. fold (cacheKeyOf clientInfo1).
      rewrite Hc. simpl. intros [= <-]. discriminate.
    - destruct (truthy GROK_API_KEY) eqn:Hk.
      + rewrite (generate_limited GROK_API_KEY buildPrompt parseAIResponse)
          by done.
        destruct (checkRateLimit (now env1) (userIdOf clientInfo1) s)
          as [[[]|e] s_lim]; simpl.
        * unfold infer, cacheProfile, try_catch, await, modify, mbind, M_bind,
            mret, M_ret. rewrite Hset.
          repeat case_match; simplify_eq/=; intros [= <-]; try discriminate.
          eexists. split; [done|]. split; apply lookup_insert_eq.
        * intros [= <-]. discriminate.
        * discriminate.
      + rewrite (generate_unconfigured GROK_API_KEY buildPrompt parseAIResponse)
          by done.
        simpl. intros [= <-]. discriminate. }
  destruct Hstored as (p & Hp & Hflag & Hkept).
  exists p. split; [done|]. split; [done|].
  apply (generate_hit GROK_API_KEY buildPrompt parseAIResponse).
  split; [done|]. by rewrite Hkey.
Qed.
End Accounting.

Lemma one_counted_bounded : limiter_bounded one_counted.
Proof.
  intros k l Hk. simpl in Hk. apply lookup_singleton_Some in Hk as [_ <-].
  simpl. unfold RATE_LIMIT_MAX. lia.
Qed.

Lemma limiter_stays_bounded_witness :
  limiter_bounded one_counted
  ∧ limiter_bounded
      (snd (generateAIProfile sample_key sample_prompt sample_parse
              (env_at 1000 NoClient NoClient (Returned answering))
              with_profile None one_counted)).
Proof.
  split; [exact one_counted_bounded|].
  apply (limiter_stays_bounded sample_key sample_prompt sample_parse
           (env_at 1000 NoClient NoClient (Returned answering))
           with_profile None one_counted one_counted_bounded).
Defined.

Lemma limiter_is_per_identity_witness :
  "fp1:cb1" ≠ userIdOf {| fingerprintId := Some "fp2"; crossBrowserId := None;
                          timezone := None; userProfile := None; facts := ∅ |}
  ∧ userRateLimits
      (snd (generateAIProfile sample_key sample_prompt sample_parse
              (env_at 1000 NoClient NoClient (Returned answering))
              {| fingerprintId := Some "fp2"; crossBrowserId := None;
                 timezone := None; userProfile := None; facts := ∅ |}
              None one_counted)) !! "fp1:cb1"
    = userRateLimits one_counted !! "fp1:cb1".
Proof.
  assert (H : "fp1:cb1" ≠ userIdOf {| fingerprintId := Some "fp2";
                                      crossBrowserId := None; timezone := None;
                                      userProfile := None; facts := ∅ |})
    by (vm_compute; discriminate).
  split; [exact H|].
  apply (limiter_is_per_identity sample_key sample_prompt sample_parse
           (env_at 1000 NoClient NoClient (Returned answering))
           {| fingerprintId := Some "fp2"; crossBrowserId := None;
              timezone := None; userProfile := None; facts := ∅ |}
           None one_counted "fp1:cb1" H).
Defined.

Lemma failed_inference_is_counted_witness :
  let env := env_at 1000 NoClient NoClient (Returned failing) in
  truthy sample_key = true
  ∧ cache_miss env (cacheKeyOf with_profile) one_counted
  ∧ open_window (now env) (userIdOf with_profile) one_counted
      {| count := 1; resetTime := 60000 |}
  ∧ inference_failure sample_prompt sample_parse env with_profile None
  ∧ ∃ err,
      generateAIProfile sample_key sample_prompt sample_parse env with_profile
        None one_counted
      = (Returned (fallback_with err),
         on_userRateLimits
           (insert (userIdOf with_profile) {| count := 1 + 1; resetTime := 60000 |})
           one_counted).
Proof.
  intros env.
  assert (H1 : truthy sample_key = true) by reflexivity.
  assert (H2 : cache_miss env (cacheKeyOf with_profile) one_counted) by reflexivity.
  assert (H3 : open_window (now env) (userIdOf with_profile) one_counted
                 {| count := 1; resetTime := 60000 |}).
  { split; [vm_compute; reflexivity | simpl; lia]. }
  assert (H4 : count {| count := 1; resetTime := 60000 |} < RATE_LIMIT_MAX)
    by (simpl; unfold RATE_LIMIT_MAX; lia).
  assert (H5 : inference_failure sample_prompt sample_parse env with_profile None)
    by (by eapply (non_success_status _ _ _ _ _ "DATA" failing)).
  split; [exact H1|]. split; [exact H2|]. split; [exact H3|]. split; [exact H5|].
  apply (failed_inference_is_counted sample_key sample_prompt sample_parse env
           with_profile None one_counted _ H1 H2 H3 H4 H5).
Defined.

Lemma cache_gives_back_the_answer_witness :
  let env1 := env_at 0 Serving Serving (Returned answering) in
  let env2 := env_at 90000 Serving NoClient (Thrown "ENETDOWN") in
  let generate := generateAIProfile sample_key sample_prompt sample_parse in
  let r1 := {| profile := Some (<["aiGenerated" := "true"]>
                                  {[ "likelyDeveloper" := "true" ]});
               source := ai; error := None |} in
  fst (generate env1 with_profile None fresh_profiler) = Returned r1
  ∧ ∃ p, profile r1 = Some p
         ∧ p !! "aiGenerated" = Some "true"
         ∧ generate env2 without_profile None
             (snd (generate env1 with_profile None fresh_profiler))
           = (Returned {| profile := Some p; source := cache; error := None |},
              snd (generate env1 with_profile None fresh_profiler)).
Proof.
  intros env1 env2 generate r1.
  assert (H1 : fst (generate env1 with_profile None fresh_profiler) = Returned r1)
    by (vm_compute; reflexivity).
  split; [exact H1|].
  apply (cache_gives_back_the_answer sample_key sample_prompt sample_parse
           env1 env2 with_profile without_profile None None fresh_profiler r1
           H1 eq_refl eq_refl eq_refl eq_refl).
Defined.

(** X18.  A window admits the first [RATE_LIMIT_MAX] requests and no
    other: when the first of any number of requests of one identity opens
    a window and the others arrive before its reset time has passed, the
    limiter admits the first two and refuses all the rest. *)
Theorem window_admits_two (t1 : Z) (later : list Z) (userId : string)
    (s : Profiler) :
  no_open_window t1 userId s →
  Forall (fun t => ¬ t > t1 + RATE_LIMIT_WINDOW) later →
  admissions (t1 :: later) userId s
  = true :: take 1 (replicate (length later) true)
    ++ replicate (length later - 1) false.
Proof.
  intros Hnew Hlater. simpl.
  rewrite (checkRateLimit_new_window _ _ _ Hnew). f_equal.
  set (s1 := on_userRateLimits _ s).
  assert (H1 : userRateLimits s1 !! userId
               = Some {| count := 1; resetTime := t1 + RATE_LIMIT_WINDOW |})
    by apply lookup_insert_eq.
  clearbody s1. destruct later as [|t2 rest]; [done|].
  apply Forall_cons in Hlater as [H2 Hrest]. simpl.
  rewrite (checkRateLimit_counts t2 userId s1
             {| count := 1; resetTime := t1 + RATE_LIMIT_WINDOW |})
    by (done || (simpl; unfold RATE_LIMIT_MAX; lia)).
  simpl. f_equal. rewrite Nat.sub_0_r.
  set (s2 := on_userRateLimits _ s1).
  assert (Hfull : userRateLimits s2 !! userId
                  = Some {| count := 2; resetTime := t1 + RATE_LIMIT_WINDOW |})
    by apply lookup_insert_eq.
  clearbody s2. clear H1 H2 Hnew.
  induction rest as [|t rest IH]; [done|].
  apply Forall_cons in Hrest as [Ht Hrest]. simpl.
  rewrite checkRateLimit_refuses.
  - f_equal. by apply IH.
  - eexists. split; [split; [exact Hfull | exact Ht]|].
    simpl. unfold RATE_LIMIT_MAX. lia.
Qed.

Lemma window_admits_two_witness :
  no_open_window 0 "fp1:cb1" fresh_profiler
  ∧ Forall (fun t => ¬ t > 0 + RATE_LIMIT_WINDOW) [10; 20; 60000]
  ∧ admissions [0; 10; 20; 60000] "fp1:cb1" fresh_profiler
    = [true; true; false; false].
Proof.
  assert (H1 : no_open_window 0 "fp1:cb1" fresh_profiler) by (vm_compute; exact I).
  assert (H2 : Forall (fun t => ¬ t > 0 + RATE_LIMIT_WINDOW) [10; 20; 60000]).
  { unfold RATE_LIMIT_WINDOW. repeat constructor; lia. }
  split; [exact H1|]. split; [exact H2|].
  apply (window_admits_two 0 [10; 20; 60000] "fp1:cb1" fresh_profiler H1 H2).
Defined.

(** ** Keys *)

Lemma append_nil (s : string) : "" +:+ s = s.
Proof. reflexivity. Qed.

Lemma append_cons (a : ascii) (s t : string) :
  String a s +:+ t = String a (s +:+ t).
Proof. reflexivity. Qed.

Lemma colon_splits (f1 f2 c1 c2 : string) :
  colon_free f1 → colon_free f2 →
  f1 +:+ ":" +:+ c1 = f2 +:+ ":" +:+ c2 →
  f1 = f2 ∧ c1 = c2.
Proof.
  revert f2. induction f1 as [|a f1 IH]; intros [|b f2]; simpl;
    rewrite ?append_cons, ?append_nil.
  - intros _ _ [= ->]. done.
  - intros _ [Hb _] [= <- _]. done.
  - intros [Ha _] _ [= -> _]. done.
  - intros [_ H1] [_ H2] [= -> Hrest].
    destruct (IH f2 H1 H2 Hrest) as [-> ->]. done.
Qed.

(** X22.  Identities whose fingerprint has no colon never share a cache
    key or a limiter key: for such fingerprints [getCacheKey], and the key
    of the limiter, determine both parts of the identity. *)
Theorem keys_determine_identity (f1 f2 c1 c2 : string) :
  colon_free f1 → colon_free f2 →
  (getCacheKey f1 c1 = getCacheKey f2 c2 → f1 = f2 ∧ c1 = c2)
  ∧ (f1 +:+ ":" +:+ c1 = f2 +:+ ":" +:+ c2 → f1 = f2 ∧ c1 = c2).
Proof.
  intros H1 H2. split; [|by apply colon_splits].
  unfold getCacheKey. rewrite !append_cons, !append_nil. intros Heq.
  apply colon_splits; [done | done |]. by simplify_eq.
Qed.

Lemma keys_determine_identity_witness :
  colon_free "fp1" ∧ colon_free "fp2"
  ∧ (getCacheKey "fp1" "cb1" = getCacheKey "fp2" "cb1" → "fp1" = "fp2" ∧ "cb1" = "cb1").
Proof.
  assert (H1 : colon_free "fp1") by (simpl; repeat split; discriminate).
  assert (H2 : colon_free "fp2") by (simpl; repeat split; discriminate).
  split; [exact H1|]. split; [exact H2|].
  apply (keys_determine_identity "fp1" "fp2" "cb1" "cb1" H1 H2).
Defined.

(** With a colon in the fingerprint two identities can share their keys. *)
Example colliding_identities :
  getCacheKey "a:b" "c" = getCacheKey "a" "b:c".
Proof. reflexivity. Qed.

(** ** Connections *)

(** X23.  The delay that [reconnectStrategy] grants is 200 ms per retry
    and never more than 1000 ms, so its ceiling of 2000 ms is never
    reached; from the sixth retry on it ends reconnecting. *)
Theorem reconnectStrategy_bounds (retries : Z) :
  0 ≤ retries →
  (retries ≤ 5 ∧ reconnectStrategy retries = Some (retries * 200)
   ∧ retries * 200 ≤ 1000)
  ∨ (5 < retries ∧ reconnectStrategy retries = None).
Proof.
  intros Hr. unfold reconnectStrategy. case_decide.
  - right. split; [lia | done].
  - left. split; [lia|]. split; [f_equal; lia | lia].
Qed.

Lemma reconnectStrategy_bounds_witness :
  0 ≤ 5
  ∧ ((5 ≤ 5 ∧ reconnectStrategy 5 = Some (5 * 200) ∧ 5 * 200 ≤ 1000)
     ∨ (5 < 5 ∧ reconnectStrategy 5 = None)).
Proof.
  assert (H : 0 ≤ 5) by lia.
  split; [exact H|]. apply (reconnectStrategy_bounds 5 H).
Defined.

(** X24.  [getRedis] after an attempt to connect.  When the attempt
    succeeds, the client is open and the next call returns it without
    another attempt.  When it fails, every call within the 5 seconds that
    follow the failure returns [null] and tries nothing, whatever the
    server would answer.  An [error] event holds back even an open client
    for 5 seconds. *)
Theorem getRedis_after_an_attempt (env1 env2 : ConnectEnv) (h : RedisHandle) :
  tries_to_connect env1 h →
  let h1 := snd (getRedis env1 h) in
  (fst (getRedis env1 h) = true →
   redisClient h1 = Some true ∧ getRedis env2 h1 = (true, h1))
  ∧ (fst (getRedis env1 h) = false →
     clockOnFailure env1 > 0 →
     clock env2 - clockOnFailure env1 < REDIS_BACKOFF_MS →
     getRedis env2 h1 = (false, h1))
  ∧ (∀ t, t > 0 → clock env2 - t < REDIS_BACKOFF_MS →
          getRedis env2 (onRedisError t h1) = (false, onRedisError t h1)).
Proof.
  intros (Hback & Hclosed & Hidle). unfold getRedis.
  rewrite (decide_False _ _ Hback), (decide_False _ _ Hclosed), Hidle.
  split; [|split].
  - destruct (created env1), (connected env1); simpl; try discriminate.
    intros _. split; reflexivity.
  - destruct (created env1), (connected env1); simpl; try discriminate;
      intros _ Hpos Hsoon; by rewrite decide_True.
  - intros t Hpos Hsoon.
    destruct (created env1), (connected env1); simpl; by rewrite decide_True.
Qed.

Lemma getRedis_after_an_attempt_witness :
  tries_to_connect failing_connect never_connected
  ∧ fst (getRedis failing_connect never_connected) = false
  ∧ getRedis (working_connect 6100)
      (snd (getRedis failing_connect never_connected))
    = (false, snd (getRedis failing_connect never_connected))
  ∧ fst (getRedis (working_connect 6200)
           (snd (getRedis failing_connect never_connected))) = true.
Proof.
  assert (H : tries_to_connect failing_connect never_connected).
  { split; [simpl; lia | split; [discriminate | reflexivity]]. }
  destruct (getRedis_after_an_attempt failing_connect (working_connect 6100)
              never_connected H) as (_ & Hfail & _).
  split; [exact H|]. split; [reflexivity|]. split; [|reflexivity].
  apply Hfail; [reflexivity | simpl; lia | simpl; unfold REDIS_BACKOFF_MS; lia].
Defined.

(** ** Unique visitors *)

Lemma trackFrom_set (fuel : nat) (attempt maxRetries : Z) (link : Z → Link)
    (key : string) (t : Tracker) :
  let r := fst (trackFrom fuel attempt maxRetries link key t) in
  let t' := snd (trackFrom fuel attempt maxRetries link key t) in
  (r = true → (key ∉ uniqueVisitors t)
              ∧ uniqueVisitors t' = {[ key ]} ∪ uniqueVisitors t)
  ∧ (r = false → uniqueVisitors t' = uniqueVisitors t).
Proof.
  revert attempt t. induction fuel as [|fuel IH]; intros attempt t; simpl.
  { split; [intros ?; discriminate | intros _; reflexivity]. }
  destruct (link attempt) as [|e|].
  - case_decide; [|split; [intros ?; discriminate | intros _; reflexivity]].
    apply (IH (attempt + 1) (sleep (100 * attempt) t)).
  - case_decide.
    + apply (IH (attempt + 1) (sleep (100 * attempt) t)).
    + apply (IH (attempt + 1) t).
  - simpl. split.
    + intros Hnew. apply bool_decide_eq_true in Hnew. done.
    + intros Hold. apply bool_decide_eq_false in Hold.
      apply dec_stable in Hold. set_solver.
Qed.

Lemma new_visitor_set (link : Z → Link) (fingerprintId crossBrowserId : string)
    (t : Tracker) :
  let key := fingerprintId +:+ ":" +:+ crossBrowserId in
  let r := fst (trackUniqueVisitor link fingerprintId crossBrowserId t) in
  let t' := snd (trackUniqueVisitor link fingerprintId crossBrowserId t) in
  (r = true → (key ∉ uniqueVisitors t)
              ∧ uniqueVisitors t' = {[ key ]} ∪ uniqueVisitors t)
  ∧ (r = false → uniqueVisitors t' = uniqueVisitors t).
Proof. apply trackFrom_set. Qed.

(** X25.  [trackUniqueVisitor] reports a visitor as new at most once.  It
    answers [true] only for a pair that the set did not hold, and the set
    then holds it; when it answers [false] the set is as it was; and once
    it has answered [true] for a pair, every later call for that pair
    answers [false], whatever the store does. *)
Theorem new_visitor_is_reported_once (link link' : Z → Link)
    (fingerprintId crossBrowserId : string) (t : Tracker) :
  let key := fingerprintId +:+ ":" +:+ crossBrowserId in
  let r := fst (trackUniqueVisitor link fingerprintId crossBrowserId t) in
  let t' := snd (trackUniqueVisitor link fingerprintId crossBrowserId t) in
  (r = true →
   (key ∉ uniqueVisitors t)
   ∧ uniqueVisitors t' = {[ key ]} ∪ uniqueVisitors t
   ∧ fst (trackUniqueVisitor link' fingerprintId crossBrowserId t') = false)
  ∧ (r = false → uniqueVisitors t' = uniqueVisitors t).
Proof.
  intros key r t'.
  destruct (new_visitor_set link fingerprintId crossBrowserId t)
    as [Htrue Hfalse].
  split; [|exact Hfalse].
  intros Hr. destruct (Htrue Hr) as [Hnew Hset].
  split; [exact Hnew|]. split; [exact Hset|].
  destruct (new_visitor_set link' fingerprintId crossBrowserId t')
    as [Hagain _].
  apply not_true_is_false. intros Hyes.
  destruct (Hagain Hyes) as [Habsent _]. apply Habsent.
  subst t'. rewrite Hset. set_solver.
Qed.

Example tracked_on_second_attempt :
  trackUniqueVisitor second_attempt_serves "fp1" "cb1" empty_tracker
  = (true, {| uniqueVisitors := {[ "fp1:cb1" ]}; slept := [100] |})
  ∧ fst (trackUniqueVisitor always_serving "fp1" "cb1"
           (snd (trackUniqueVisitor second_attempt_serves "fp1" "cb1"
                   empty_tracker))) = false
  ∧ trackUniqueVisitor (fun _ => NoClient) "fp1" "cb1" empty_tracker
    = (false, {| uniqueVisitors := ∅; slept := [100; 200] |}).
Proof. repeat split; vm_compute; reflexivity. Qed.

(** X26.  [trackUniqueVisitor] makes at most three attempts, and between
    them it sleeps 100 ms and then 200 ms.  What it does depends on the
    store at the attempts 1, 2 and 3 only; when none of the three is
    served it answers [false], having slept 100 ms and 200 ms and added
    nothing; and whatever the store does, it has slept nothing, 100 ms, or
    100 ms and then 200 ms. *)
Theorem tracking_makes_three_attempts (link link' : Z → Link)
    (fingerprintId crossBrowserId : string) (t : Tracker) :
  (∀ attempt, 1 ≤ attempt ≤ 3 → link' attempt = link attempt) →
  trackUniqueVisitor link' fingerprintId crossBrowserId t
  = trackUniqueVisitor link fingerprintId crossBrowserId t
  ∧ ((∀ attempt, 1 ≤ attempt ≤ 3 → link attempt ≠ Serving) →
     trackUniqueVisitor link fingerprintId crossBrowserId t
     = (false, {| uniqueVisitors := uniqueVisitors t;
                  slept := slept t ++ [100; 200] |}))
  ∧ ∃ waits,
      slept (snd (trackUniqueVisitor link fingerprintId crossBrowserId t))
      = slept t ++ waits
      ∧ (waits = [] ∨ waits = [100] ∨ waits = [100; 200]).
Proof.
  intros Hsame. unfold trackUniqueVisitor. simpl.
  rewrite (Hsame 1), (Hsame (1 + 1)), (Hsame (1 + 1 + 1)) by lia.
  split; [reflexivity|]. split.
  - intros Hdown.
    pose proof (Hdown 1 ltac:(lia)) as H1.
    pose proof (Hdown (1 + 1) ltac:(lia)) as H2.
    pose proof (Hdown (1 + 1 + 1) ltac:(lia)) as H3.
    destruct (link 1) as [|e1|]; [| |done];
      destruct (link (1 + 1)) as [|e2|]; try done;
      destruct (link (1 + 1 + 1)) as [|e3|]; try done;
      simpl; unfold sleep; simpl; by rewrite <- app_assoc.
  - repeat (match goal with
            | |- context [match link ?a with _ => _ end] => destruct (link a)
            end; simpl);
      rewrite <- ?app_assoc; simpl;
      first [ by (exists []; rewrite app_nil_r; auto)
            | by (exists [100]; auto)
            | by (exists [100; 200]; auto) ].
Qed.

Lemma tracking_makes_three_attempts_witness :
  let later : Z → Link :=
    fun attempt => if decide (attempt ≤ 3) then Rejecting "ECONNRESET"
                   else Serving in
  (∀ attempt, 1 ≤ attempt ≤ 3 → later attempt = Rejecting "ECONNRESET")
  ∧ trackUniqueVisitor later "fp1" "cb1" empty_tracker
    = trackUniqueVisitor (fun _ => Rejecting "ECONNRESET") "fp1" "cb1"
        empty_tracker
  ∧ trackUniqueVisitor (fun _ => Rejecting "ECONNRESET") "fp1" "cb1"
      empty_tracker
    = (false, {| uniqueVisitors := ∅; slept := [100; 200] |}).
Proof.
  intros later.
  assert (H : ∀ attempt, 1 ≤ attempt ≤ 3 → later attempt = Rejecting "ECONNRESET").
  { intros attempt Hin. unfold later. by rewrite decide_True by lia. }
  destruct (tracking_makes_three_attempts (fun _ => Rejecting "ECONNRESET") later
              "fp1" "cb1" empty_tracker H) as (Hsame & Hdown & _).
  split; [exact H|]. split; [exact Hsame|].
  apply Hdown. intros attempt _. discriminate.
Defined.

(** X27.  The all-time count follows the reports: on a store that serves
    the count, [getTotalUniqueVisitors] after a call of
    [trackUniqueVisitor] is one more than before when the call answered
    [true], and the same when it answered [false]. *)
Theorem total_follows_reports (link counting : Z → Link)
    (fingerprintId crossBrowserId : string) (t : Tracker) :
  counting 1 = Serving →
  let r := fst (trackUniqueVisitor link fingerprintId crossBrowserId t) in
  let t' := snd (trackUniqueVisitor link fingerprintId crossBrowserId t) in
  fst (getTotalUniqueVisitors counting t')
  = fst (getTotalUniqueVisitors counting t) + (if r then 1 else 0).
Proof.
  intros Hserve r t'. unfold getTotalUniqueVisitors. simpl. rewrite Hserve. simpl.
  destruct (new_visitor_set link fingerprintId crossBrowserId t) as [Htrue Hfalse].
  fold r t' in Htrue, Hfalse. destruct r.
  - destruct (Htrue eq_refl) as [Hnew ->].
    rewrite size_union by set_solver. rewrite size_singleton. lia.
  - rewrite (Hfalse eq_refl). lia.
Qed.

Lemma total_follows_reports_witness :
  always_serving 1 = Serving
  ∧ fst (getTotalUniqueVisitors always_serving
           (snd (trackUniqueVisitor second_attempt_serves "fp1" "cb1"
                   empty_tracker)))
    = fst (getTotalUniqueVisitors always_serving empty_tracker) + 1.
Proof.
  split; [reflexivity|].
  apply (total_follows_reports second_attempt_serves always_serving "fp1" "cb1"
           empty_tracker eq_refl).
Defined.

(** ** The browser's view *)

Lemma inbox_app (me : string) (es1 es2 : list Effect) :
  inbox me (es1 ++ es2) = inbox me es1 ++ inbox me es2.
Proof. apply omap_app. Qed.

Lemma inbox_broadcast (me : string) (m : WSMessage) (rs : list string) :
  NoDup rs →
  inbox me (map (fun to => Send to m) rs) = if decide (me ∈ rs) then [m] else [].
Proof.
  induction 1 as [|to rs Hnotin Hnd IH].
  - destruct (decide (me ∈ @nil string)) as [Hin|_];
      [by apply elem_of_nil in Hin | reflexivity].
  - unfold inbox in *. cbn [map omap list_omap]. rewrite IH.
    destruct (decide (to = me)) as [->|Hne].
    + destruct (decide (me ∈ rs)); [done|].
      destruct (decide (me ∈ me :: rs)) as [_|Hout]; [done|].
      exfalso. apply Hout. by left.
    + destruct (decide (me ∈ rs)) as [Hin|Hout];
        destruct (decide (me ∈ to :: rs)) as [Hin'|Hout']; try done.
      * exfalso. apply Hout'. by right.
      * apply elem_of_cons in Hin' as [->|Hin']; done.
Qed.

Lemma inbox_cons (me to : string) (m : WSMessage) (es : list Effect) :
  inbox me (Send to m :: es)
  = (if decide (to = me) then [m] else []) ++ inbox me es.
Proof. unfold inbox. simpl. by destruct (decide (to = me)). Qed.

Lemma browser_effects (me : string) (s s' : Server) (new : list Effect) :
  effects s' = effects s ++ new →
  browser me s'
  = foldl (fun st m => useWebSocket.handleMessage m st) (browser me s)
          (inbox me new).
Proof.
  intros Heff. unfold browser. by rewrite Heff, inbox_app, foldl_app.
Qed.

Lemma shown_directory (m : gmap string VisitorInfo) (me : string) :
  keyed_by_id m →
  list_to_set (map id (redactVisitorsExcept (map snd (map_to_list m)) me))
  = (dom m : gset string).
Proof.
  intros Hkeyed. apply set_eq. intros x.
  rewrite elem_of_list_to_set, elem_of_dom. unfold redactVisitorsExcept.
  rewrite !list_elem_of_fmap. split.
  - intros (r & -> & Hr). apply list_elem_of_fmap in Hr as (v & -> & Hv).
    apply list_elem_of_fmap in Hv as ([k v'] & -> & Hkv).
    apply elem_of_map_to_list in Hkv. simpl.
    assert (Hid : id (if String.eqb (id v') me then v' else redactVisitorInfo v')
                  = id v') by (by destruct (String.eqb (id v') me)).
    rewrite Hid, (Hkeyed _ _ Hkv). by eexists.
  - intros [v Hv].
    exists (if String.eqb (id v) me then v else redactVisitorInfo v). split.
    + rewrite <- (Hkeyed _ _ Hv). by destruct (String.eqb (id v) me).
    + apply list_elem_of_fmap. exists v. split; [done|].
      apply list_elem_of_fmap. exists (x, v). split; [done|].
      by apply elem_of_map_to_list.
Qed.

Lemma shown_updated (u : VisitorInfo) (st : useWebSocket.State) :
  shown (useWebSocket.handleMessage (visitor_updated u) st) = shown st
  ∧ own_id (useWebSocket.handleMessage (visitor_updated u) st) = own_id st.
Proof.
  unfold shown, own_id. simpl. split.
  - f_equal. rewrite map_map. apply map_ext. intros v. by case_decide.
  - destruct (useWebSocket.currentVisitor st) as [own|]; [|done].
    case_decide; simpl; congruence.
Qed.

Lemma shown_joined (v : VisitorInfo) (st : useWebSocket.State) :
  shown (useWebSocket.handleMessage (visitor_joined v) st)
  = shown st ∪ {[ id v ]}.
Proof.
  unfold shown. simpl. rewrite map_app, list_to_set_app_L. simpl. set_solver.
Qed.

Lemma shown_left (v : VisitorInfo) (st : useWebSocket.State) :
  shown (useWebSocket.handleMessage (visitor_left v) st)
  = shown st ∖ {[ id v ]}.
Proof.
  unfold shown. simpl. apply set_eq. intros x.
  rewrite elem_of_difference, !elem_of_list_to_set, !list_elem_of_fmap.
  split.
  - intros (r & -> & Hr). apply list_elem_of_filter in Hr as [Hne Hr].
    split; [by exists r | set_solver].
  - intros [(r & -> & Hr) Hne]. exists r. split; [done|].
    apply list_elem_of_filter. split; [set_solver | done].
Qed.

(** The hook of a socket that is sent only updates lists the same ids. *)
Lemma updates_keep_view (me : string) (new : list Effect)
    (st : useWebSocket.State) :
  Forall is_update new →
  shown (foldl (fun st m => useWebSocket.handleMessage m st) st (inbox me new))
  = shown st
  ∧ own_id (foldl (fun st m => useWebSocket.handleMessage m st) st
                  (inbox me new))
    = own_id st.
Proof.
  intros Hnew. revert st. induction Hnew as [|e new He _ IH]; intros st; [done|].
  unfold inbox. cbn [omap list_omap]. fold (inbox me new).
  destruct e as [to m | fp cb]; [|apply IH].
  destruct (decide (to = me)); [|apply IH].
  destruct m as [v vs | v | u | v]; try done. cbn [foldl].
  destruct (IH (useWebSocket.handleMessage (visitor_updated u) st)) as [-> ->].
  apply shown_updated.
Qed.

Lemma open_local (INSTANCE_ID : string) (ws : WebSocket) (newId : string)
    (serverInfo : ServerInfo) (now : Z) (s : Server) :
  isConnected (shared s) = false →
  let v := {| id := newId; server := serverInfo; client := None;
              connectedAt := now |} in
  let ws' := {| visitorId := Some newId; readyState := readyState ws |} in
  let s' := snd (open INSTANCE_ID ws newId serverInfo now s) in
  shared s' = shared s
  ∧ effects s'
    = effects s
      ++ Send newId
           (welcome v (redactVisitorsExcept
                         (map snd (map_to_list (<[newId := v]> (allVisitors s))))
                         newId))
         :: map (fun to => Send to (visitor_joined (redactVisitorInfo v)))
                (recipients (Some newId) (<[newId := ws']> (connections s))).
Proof.
  intros Hc. cbv zeta. run_handler. unfold isSharedVisitorsConnected.
  rewrite Hc, andb_false_r. simpl. rewrite Hc. simpl. by rewrite <- app_assoc.
Qed.

Lemma updates_broadcast (u : VisitorInfo) (rs : list string) :
  Forall is_update (map (fun to => Send to (visitor_updated u)) rs).
Proof.
  apply Forall_forall. intros e He.
  by apply list_elem_of_fmap in He as (to & -> & _).
Qed.

Lemma message_local (INSTANCE_ID : string) (ws : WebSocket)
    (m : ClientMessage) (s : Server) :
  isConnected (shared s) = false →
  let s' := snd (message INSTANCE_ID ws m s) in
  shared s' = shared s
  ∧ ∃ new, effects s' = effects s ++ new ∧ Forall is_update new.
Proof.
  intros Hc. run_handler.
  assert (Hnone : ∀ st : Server,
            effects st = effects s →
            ∃ new, effects st = effects s ++ new ∧ Forall is_update new).
  { intros st ->. exists []. by rewrite app_nil_r. }
  destruct m as [raw|t|[payload|]]; simpl; try (split; [done | by apply Hnone]).
  - destruct (visitorId ws) as [vid|]; simpl; [|split; [done | by apply Hnone]].
    destruct (localVisitors s !! vid) as [v|]; simpl;
      [|split; [done | by apply Hnone]].
    rewrite Hc, andb_false_r.
    simpl. repeat case_match; simplify_eq/=;
      (split; [done|]);
      first [ by apply Hnone
            | eexists; split; [rewrite <- ?app_assoc; reflexivity|];
              repeat first [ apply Forall_nil_2 | apply Forall_app_2
                           | apply Forall_cons_2 | exact I
                           | apply updates_broadcast ] ].
  - destruct (visitorId ws) as [vid|]; simpl; [|split; [done | by apply Hnone]].
    destruct (localVisitors s !! vid); split; done || by apply Hnone.
Qed.

Lemma close_local (INSTANCE_ID : string) (ws : WebSocket) (s : Server) :
  isConnected (shared s) = false →
  let vid := default "" (visitorId ws) in
  let s' := snd (close INSTANCE_ID ws s) in
  shared s' = shared s
  ∧ (truthy (visitorId ws) = true →
     match localVisitors s !! vid with
     | Some v =>
         effects s'
         = effects s
           ++ map (fun to => Send to (visitor_left (redactVisitorInfo v)))
                  (recipients None (delete vid (connections s)))
     | None => effects s' = effects s
     end).
Proof.
  intros Hc vid s'. subst s' vid. run_handler.
  destruct (truthy (visitorId ws)); [|done].
  destruct (localVisitors s !! default "" (visitorId ws)) as [v|]; [|done].
  simpl. by rewrite Hc, andb_false_r.
Qed.

(** One socket handler, without the shared store. *)
Lemma handle_keeps_view (INSTANCE_ID : string) (a : Action) (s : Server) :
  is_socket_action a →
  isConnected (shared s) = false →
  keyed_by_id (localVisitors s) →
  allVisitors s = localVisitors s →
  browsers_follow s →
  let s' := snd (handle INSTANCE_ID a s) in
  isConnected (shared s') = false
  ∧ keyed_by_id (localVisitors s')
  ∧ allVisitors s' = localVisitors s'
  ∧ browsers_follow s'.
Proof.
  intros Hsock Hc Hkeyed Hagree Hview s'. subst s'.
  destruct a as [ws newId serverInfo now | ws m | ws | m]; simpl handle;
    [| | |done].
  - destruct (open_registries INSTANCE_ID ws newId serverInfo now s)
      as (Hl & Ha & Hcs).
    destruct (open_local INSTANCE_ID ws newId serverInfo now s Hc)
      as (Hsh & Heff).
    set (s' := snd (open INSTANCE_ID ws newId serverInfo now s)) in *.
    set (v := {| id := newId; server := serverInfo; client := None;
                 connectedAt := now |}) in *.
    assert (Hkeyed' : keyed_by_id (<[newId := v]> (allVisitors s))).
    { rewrite Hagree. by apply keyed_insert. }
    split; [by rewrite Hsh|]. split; [rewrite Hl; by apply keyed_insert|].
    split; [by rewrite Hl, Ha, Hagree|].
    intros me w Hw Hopen. rewrite Hcs in Hw.
    rewrite (browser_effects me s s' _ Heff), inbox_cons.
    rewrite inbox_broadcast by apply recipients_NoDup.
    destruct (decide (newId = me)) as [->|Hne].
    + rewrite decide_False
        by (rewrite recipients_spec; intros (? & _ & Hex & _); done).
      cbn [app foldl]. split; [|reflexivity].
      rewrite Ha. by apply shown_directory.
    + rewrite lookup_insert_ne in Hw by done.
      destruct (Hview me w Hw Hopen) as [Hshown Hown].
      rewrite decide_True.
      2:{ apply recipients_spec. exists w. rewrite lookup_insert_ne by done.
          split; [done|]. split; [congruence | done]. }
      cbn [app foldl]. split; [|exact Hown].
      rewrite shown_joined, Hshown, Ha, dom_insert_L. simpl. set_solver.
  - destruct (message_registries INSTANCE_ID ws m s) as (Hcs & _).
    destruct (message_local INSTANCE_ID ws m s Hc)
      as (Hsh & new & Heff & Hnew).
    pose proof (message_stores INSTANCE_ID ws m s) as Hstores.
    set (s' := snd (message INSTANCE_ID ws m s)) in *. simpl in Hstores.
    assert (Hdom : dom (allVisitors s') = dom (allVisitors s)
                   ∧ keyed_by_id (localVisitors s')
                   ∧ allVisitors s' = localVisitors s').
    { destruct Hstores as [[-> ->] | (vid & v & c & Hv & -> & ->)]; [done|].
      split; [|split].
      - rewrite dom_insert_L. rewrite Hagree.
        apply (elem_of_dom_2 (D := gset string)) in Hv. set_solver.
      - apply keyed_insert; [done|]. simpl. by apply Hkeyed.
      - by rewrite Hagree. }
    destruct Hdom as (Hdom & Hkeyed' & Hagree').
    split; [by rewrite Hsh|]. split; [done|]. split; [done|].
    intros me w Hw Hopen. rewrite Hcs in Hw.
    destruct (Hview me w Hw Hopen) as [Hshown Hown].
    rewrite (browser_effects me s s' _ Heff).
    destruct (updates_keep_view me new (browser me s) Hnew) as [-> ->].
    by rewrite Hdom.
  - destruct (close_local INSTANCE_ID ws s Hc) as (Hsh & Heff).
    destruct (close_registries INSTANCE_ID ws s)
      as [[_ Hsame] | (Htruthy & Hl & Ha & Hcs)].
    { rewrite Hsame. done. }
    specialize (Heff Htruthy).
    set (s' := snd (close INSTANCE_ID ws s)) in *.
    set (vid := default "" (visitorId ws)) in *.
    split; [by rewrite Hsh|]. split; [rewrite Hl; by apply keyed_delete|].
    split; [by rewrite Hl, Ha, Hagree|].
    intros me w Hw Hopen. rewrite Hcs in Hw.
    apply lookup_delete_Some in Hw as [Hne Hw].
    destruct (Hview me w Hw Hopen) as [Hshown Hown].
    rewrite Ha, dom_delete_L.
    destruct (localVisitors s !! vid) as [v|] eqn:Hv.
    + rewrite (browser_effects me s s' _ Heff).
      rewrite inbox_broadcast by apply recipients_NoDup.
      rewrite decide_True.
      2:{ apply recipients_spec. exists w. rewrite lookup_delete_ne by done.
          done. }
      cbn [foldl]. split; [|exact Hown].
      rewrite shown_left, Hshown. simpl. by rewrite (Hkeyed _ _ Hv).
    + assert (Hsame : browser me s' = browser me s).
      { unfold browser. by rewrite Heff. }
      rewrite Hsame, Hshown. split; [|done].
      rewrite Hagree. apply not_elem_of_dom in Hv. set_solver.
Qed.

Lemma run_keeps_view (INSTANCE_ID : string) (actions : list Action) (s : Server) :
  Forall is_socket_action actions →
  isConnected (shared s) = false →
  keyed_by_id (localVisitors s) →
  allVisitors s = localVisitors s →
  browsers_follow s →
  browsers_follow (run INSTANCE_ID actions s).
Proof.
  intros Hsock. revert s.
  induction Hsock as [|a actions Ha _ IH]; intros s Hc Hkeyed Hagree Hview;
    [done|].
  simpl.
  destruct (handle_keeps_view INSTANCE_ID a s Ha Hc Hkeyed Hagree Hview)
    as (Hc' & Hkeyed' & Hagree' & Hview').
  by apply IH.
Qed.

(** X28.  Server and browser agree.  On an instance that starts without
    visitors and runs without the shared store, after any sequence of
    socket events the hook behind every registered open socket, having
    handled in order the messages written to that socket, lists exactly
    the visitors of [allVisitors] (by id) and has a current visitor with
    the id of its socket. *)
Theorem browser_follows_registry (INSTANCE_ID : string)
    (actions : list Action) (s : Server) :
  freshly_started s →
  Forall is_socket_action actions →
  let s' := run INSTANCE_ID actions s in
  ∀ me ws, connections s' !! me = Some ws → readyState ws = OPEN →
    shown (browser me s') = dom (allVisitors s')
    ∧ own_id (browser me s') = Some me.
Proof.
  intros (Hl & Ha & Hcs & Hc) Hsock s'.
  apply (run_keeps_view INSTANCE_ID actions s Hsock Hc).
  - rewrite Hl. intros k v Hkv. by rewrite lookup_empty in Hkv.
  - by rewrite Hl, Ha.
  - intros me w Hw. by rewrite Hcs, lookup_empty in Hw.
Qed.

Lemma browser_follows_registry_witness :
  let s' := run sample_instance scenario (initial local_only) in
  freshly_started (initial local_only)
  ∧ Forall is_socket_action scenario
  ∧ connections s' !! "v_a" = Some alice_socket
  ∧ shown (browser "v_a" s') = dom (allVisitors s')
  ∧ own_id (browser "v_a" s') = Some "v_a".
Proof.
  intros s'.
  assert (H1 : freshly_started (initial local_only)) by done.
  assert (H2 : Forall is_socket_action scenario)
    by (repeat constructor).
  assert (H3 : connections s' !! "v_a" = Some alice_socket)
    by (vm_compute; reflexivity).
  destruct (browser_follows_registry sample_instance scenario
              (initial local_only) H1 H2 "v_a" alice_socket H3 eq_refl)
    as [Hshown Hown].
  exact (conj H1 (conj H2 (conj H3 (conj Hshown Hown)))).
Defined.

(** With the channel the two can part: an update from another instance
    about a visitor this instance has not heard of enters [allVisitors],
    and the hook, which only replaces records it lists, does not show
    it. *)
Example remote_update_is_not_shown :
  let s' := run sample_instance
              [SocketOpen new_socket "v_a" (sample_server "127.0.0.1" None) 1000;
               ChannelReceive (Encoded {| type := Updated; visitor := carol;
                                          instanceId := "instance_3021_b" |})]
              (initial local_only) in
  "v_c" ∈ dom (allVisitors s')
  ∧ map id (useWebSocket.visitors (browser "v_a" s')) = ["v_a"].
Proof.
  split; [apply elem_of_dom; eexists; vm_compute; reflexivity|].
  vm_compute. reflexivity.
Qed.

(** ** The online count *)

(** X29.  The count of visitors online that [GET /api/stats] reports: the
    route always answers; the count is the size of the shared directory
    when the store is connected, serves the command and the directory is
    not empty, and the size of [allVisitors] otherwise (store not
    connected, command rejected, or directory empty); so it is zero only
    when [allVisitors] is empty. *)
Theorem statsOnline_count (s : Server) :
  let directory := Z.of_nat (size (visitors (redis (shared s)))) in
  let known := Z.of_nat (size (allVisitors s)) in
  ∃ n, fst (statsOnline s) = Returned n
       ∧ (n = if pubClient (shared s) && isConnected (shared s)
              then match rejections (redis (shared s)) with
                   | true :: _ => known
                   | _ => if decide (directory = 0) then known else directory
                   end
              else known)
       ∧ (n = 0 → allVisitors s = ∅).
Proof.
  intros directory known.
  assert (Hzero : known = 0 → allVisitors s = ∅).
  { intros H. apply map_size_empty_iff. unfold known in H. lia. }
  unfold statsOnline, getSharedOnlineCount, in_shared, try_catch, gets, mbind,
    M_bind, mret, M_ret.
  destruct (pubClient (shared s) && isConnected (shared s)); simpl.
  - destruct (rejections (redis (shared s))) as [|[] rest]; simpl;
      fold directory known.
    + case_decide; eexists; (split; [reflexivity|]); split; try done.
    + eexists; split; [reflexivity|]. done.
    + case_decide; eexists; (split; [reflexivity|]); split; try done.
  - eexists; split; [reflexivity|]. done.
Qed.
